(** * Web navigator agent: plan, execute, extract

    A shallow embedding of the agent's pipeline (parser.py, planner.py,
    orchestrator.py, extractor.py, session_memory.py, and the adapter
    manager of llm_adapter.py) and the properties its design document states
    about it.

    Python text is a sequence of Unicode code points.  The character tables
    of the interpreter (which code points are decimal digits, which are white
    space, how letters fold under IGNORECASE, how a decimal literal rounds to
    a binary64 float) are not part of the repository: they are the fields of
    the class [Runtime], and every definition that depends on them is stated
    for an arbitrary runtime. *)

From Stdlib Require Import ZArith NArith QArith Lia Bool Ascii String.
From stdpp Require Import base option list sorting gmap.

Local Open Scope Z_scope.

(** ** Python values *)

Module Py.

(** A code point, and a string of them. *)
Abbreviation char := N (only parsing).
Abbreviation pystr := (list N) (only parsing).

(** ASCII literals of the source, as code point lists. *)
Definition py (s : string) : pystr :=
  List.map N_of_ascii (list_ascii_of_string s).

(** The same for a literal that holds double quotes: each is written as
    a backquote, a character no literal of the source uses. *)
Definition pyq (s : string) : pystr :=
  List.map (fun c => if (c =? 96)%N then 34%N else c) (py s).

(** U+20B9, the rupee sign of the price patterns. *)
Definition rupee : char := 8377%N.

(** Floats: the finite ones are rationals. *)
Inductive pyfloat :=
| Fin (q : Q)
| PInf.

Definition fle (a b : pyfloat) : bool :=
  match a, b with
  | Fin x, Fin y => Qle_bool x y
  | _, PInf => true
  | PInf, Fin _ => false
  end.

Definition flt (a b : pyfloat) : bool := negb (fle b a).

(** A value that the decoded reply can put in a field the code reads as
    a number: [None], a bool, an int, a float (finite, infinite or NaN), a
    string, a list or a dictionary.  A finite float is the rational it
    holds. *)
Inductive pyval :=
| VNone
| VBool (b : bool)
| VInt (z : Z)
| VFloat (q : Q)
| VInf (negative : bool)
| VNaN
| VStr (s : list N)
| VList
| VDict.

(** Truth value of an [Optional[float]] argument: [None] and zero are
    falsy. *)
Definition truthy_num (m : option Q) : bool :=
  match m with
  | None => false
  | Some q => negb (Qeq_bool q 0)
  end.

(** Truth value of an [Optional[str]]: [None] and the empty string are
    falsy. *)
Definition truthy_str (s : option pystr) : bool :=
  match s with
  | None | Some [] => false
  | Some (_ :: _) => true
  end.

(** [x if x else None] *)
Definition if_truthy (s : option pystr) : option pystr :=
  if truthy_str s then s else None.

Class Runtime := {
  (** [\d]: Unicode decimal digits, with their values *)
  is_digit : char -> bool;
  digit_value : char -> Z;
  (** [\s], [str.strip], [str.split]: Unicode white space *)
  is_space : char -> bool;
  (** [\w]: Unicode word characters *)
  is_word : char -> bool;
  (** IGNORECASE comparison of a pattern letter with a text character *)
  fold_eq : char -> char -> bool;
  (** [str.lower] *)
  lower : pystr -> pystr;
  (** rounding of an exact non-negative decimal to the nearest float *)
  to_float : Q -> pyfloat;
  (** on ASCII the digits are '0'..'9' *)
  is_digit_ascii :
    forall c : char, (c < 128)%N ->
      is_digit c = ((48 <=? c)%N && (c <=? 57)%N);
  (** the rupee sign is a currency symbol, not a digit *)
  is_digit_rupee : is_digit rupee = false
}.

(** The runtime whose tables are the ASCII part of Unicode and whose
    floats hold every decimal exactly; the concrete evaluations below run
    on it, on ASCII text with rupee signs and small numbers. *)
Definition ascii_lower (c : char) : char :=
  if ((65 <=? c) && (c <=? 90))%N then (c + 32)%N else c.

Program Definition ascii_runtime : Runtime := {|
  is_digit c := ((48 <=? c) && (c <=? 57))%N;
  digit_value c := Z.of_N c - 48;
  is_space c := (((9 <=? c) && (c <=? 13)) || ((28 <=? c) && (c <=? 32)))%N;
  is_word c :=
    (((48 <=? c) && (c <=? 57)) || ((65 <=? c) && (c <=? 90)) ||
     ((97 <=? c) && (c <=? 122)) || (c =? 95))%N;
  fold_eq c x := (ascii_lower c =? ascii_lower x)%N;
  lower s := List.map ascii_lower s;
  to_float q := Fin q
|}.
Next Obligation. reflexivity. Qed.
Next Obligation. reflexivity. Qed.

(** Exceptions: a computation returns or raises with a message. *)
Inductive exn (A : Type) :=
| Ok (a : A)
| Raise (msg : pystr).
Arguments Ok {A} a.
Arguments Raise {A} msg.

Definition bind {A B} (m : exn A) (f : A -> exn B) : exn B :=
  match m with
  | Ok a => f a
  | Raise e => Raise e
  end.

Fixpoint mapM {A B} (f : A -> exn B) (l : list A) : exn (list B) :=
  match l with
  | [] => Ok []
  | x :: t => bind (f x) (fun y => bind (mapM f t) (fun ys => Ok (y :: ys)))
  end.

(** [type(v).__name__], as the messages of TypeError show it *)
Definition type_name (v : pyval) : pystr :=
  match v with
  | VNone => py "NoneType"
  | VBool _ => py "bool"
  | VInt _ => py "int"
  | VFloat _ | VInf _ | VNaN => py "float"
  | VStr _ => py "str"
  | VList => py "list"
  | VDict => py "dict"
  end.

(** [n > x] for an int [n]: exact between an int and a float, false for
    NaN, TypeError when [x] is not a number *)
Definition int_gt (n : Z) (x : pyval) : exn bool :=
  match x with
  | VInt z => Ok (z <? n)
  | VBool b => Ok (Z.b2z b <? n)
  | VFloat q => Ok (negb (Qle_bool (inject_Z n) q))
  | VInf negative => Ok negative
  | VNaN => Ok false
  | VNone | VStr _ | VList | VDict =>
      Raise (py "'>' not supported between instances of 'int' and '"
             ++ type_name x ++ py "'")
  end.

(** [needle in hay] on strings. *)
Fixpoint starts_with (p s : pystr) : bool :=
  match p, s with
  | [], _ => true
  | _ :: _, [] => false
  | a :: p', b :: s' => (a =? b)%N && starts_with p' s'
  end.

Fixpoint contains (needle hay : pystr) : bool :=
  starts_with needle hay ||
  match hay with
  | [] => false
  | _ :: t => contains needle t
  end.

(** [sep.join(parts)] *)
Fixpoint join (sep : pystr) (parts : list pystr) : pystr :=
  match parts with
  | [] => []
  | [p] => p
  | p :: rest => p ++ sep ++ join sep rest
  end.

(** [sorted(data, key=key, reverse=reverse)]: the stable sort.  With
    [reverse] the order of the keys is inverted and elements with equal
    keys still keep their input order. *)
Section Sorted.
Context {A K : Type} (le : K -> K -> bool) (key : A -> K).

Definition before (reverse : bool) (x y : A) : bool :=
  if reverse then le (key y) (key x) else le (key x) (key y).

(** insert [x], which came before every element of [l] in the input *)
Fixpoint insert_sorted (reverse : bool) (x : A) (l : list A) : list A :=
  match l with
  | [] => [x]
  | y :: t =>
      if before reverse x y then x :: y :: t
      else y :: insert_sorted reverse x t
  end.

Fixpoint sorted (reverse : bool) (l : list A) : list A :=
  match l with
  | [] => []
  | x :: t => insert_sorted reverse x (sorted reverse t)
  end.
End Sorted.

(** [s.strip()] *)
Section Strip.
Context {R : Runtime}.

Fixpoint lstrip (s : pystr) : pystr :=
  match s with
  | [] => []
  | c :: t => if is_space c then lstrip t else s
  end.

Definition strip (s : pystr) : pystr :=
  rev (lstrip (rev (lstrip s))).
End Strip.

End Py.

(** ** The regular expressions of the [re] module

    A backtracking matcher in continuation-passing style: greedy repetition,
    leftmost match, one capturing group.  It covers the operators the source
    patterns use. *)

Module Re.
Import Py.

Inductive regex :=
| Eps
| Chr (c : char)          (** a caseless literal: matches itself *)
| ChrI (c : char)         (** a letter under IGNORECASE *)
| Digit                   (** [\d] *)
| Space                   (** [\s] *)
| Alt (a b : regex)       (** [a|b], also a two-member class *)
| Seq (a b : regex)
| Opt (a : regex)         (** [a?] *)
| Star (a : regex)        (** [a*] *)
| Group (a : regex).      (** [(a)], group 1 *)

Definition Plus (a : regex) : regex := Seq a (Star a).

Fixpoint seq_of (l : list regex) : regex :=
  match l with
  | [] => Eps
  | [a] => a
  | a :: t => Seq a (seq_of t)
  end.

(** a word of letters, each matched without regard to case *)
Definition word (s : string) : regex := seq_of (List.map ChrI (py s)).

Section Match.
Context {R : Runtime} {A : Type}.

(** [rmatch r s g k]: match [r] at the head of [s] with group 1 bound
    to [g] so far, then continue with [k] on the rest; [None] makes the
    matcher backtrack into the last choice.  A repetition goes round again
    only after an iteration that consumed a character, as in [re], so its
    counter, the length of the text, is never what ends it early: when it
    reaches zero the text is empty. *)
Fixpoint rmatch (r : regex) (s : pystr) (g : option pystr)
    (k : pystr -> option pystr -> option A) : option A :=
  match r with
  | Eps => k s g
  | Chr c =>
      match s with
      | x :: t => if (c =? x)%N then k t g else None
      | [] => None
      end
  | ChrI c =>
      match s with
      | x :: t => if fold_eq c x then k t g else None
      | [] => None
      end
  | Digit =>
      match s with
      | x :: t => if is_digit x then k t g else None
      | [] => None
      end
  | Space =>
      match s with
      | x :: t => if is_space x then k t g else None
      | [] => None
      end
  | Alt a b =>
      match rmatch a s g k with
      | Some v => Some v
      | None => rmatch b s g k
      end
  | Seq a b => rmatch a s g (fun s' g' => rmatch b s' g' k)
  | Opt a =>
      match rmatch a s g k with
      | Some v => Some v
      | None => k s g
      end
  | Star a =>
      (fix loop (n : nat) (s : pystr) (g : option pystr) {struct n} : option A :=
         match n with
         | O => k s g
         | S n' =>
             match rmatch a s g (fun s' g' =>
                     if (length s' <? length s)%nat then loop n' s' g' else None) with
             | Some v => Some v
             | None => k s g
             end
         end) (length s) s g
  | Group a =>
      rmatch a s g (fun s' _ => k s' (Some (take (length s - length s') s)))
  end.
End Match.

Section Search.
Context {R : Runtime}.

(** [re.search(r, s)]: the match at the leftmost position that has one;
    the result is [match.group(1)]. *)
Fixpoint search (r : regex) (s : pystr) : option (option pystr) :=
  match rmatch r s None (fun _ g => Some g) with
  | Some g => Some g
  | None =>
      match s with
      | [] => None
      | _ :: t => search r t
      end
  end.
End Search.

End Re.

(** ** extractor.py *)

Module Extractor.
Import Py Re.

(** One raw fragment of the browsing session: the dictionary that
    [extract_from_playwright_data] reads ('text', and 'href' and 'src'
    under 'attributes'). *)
Record fragment := {
  f_text : option pystr;
  f_attributes : option (gmap pystr pystr);
  f_other_keys : bool
}.

(** [ExtractedData] *)
Record ExtractedData := {
  title : option pystr;
  price : option pystr;
  url : option pystr;
  description : option pystr;
  rating : option pystr;
  image_url : option pystr;
  raw_data : fragment
}.

(** A record travels either as the dataclass object or, after
    [to_dict()], as a dictionary with the same seven keys.  Attribute
    access ([item.price]) works on the object only. *)
Inductive item :=
| Obj (d : ExtractedData)
| Dict (d : ExtractedData).

Definition to_dict (d : ExtractedData) : item := Dict d.

Definition attribute_error : pystr :=
  py "'dict' object has no attribute".

(** [item.price], [item.rating] *)
Definition attr_price (it : item) : exn (option pystr) :=
  match it with
  | Obj d => Ok (price d)
  | Dict _ => Raise attribute_error
  end.

Definition attr_rating (it : item) : exn (option pystr) :=
  match it with
  | Obj d => Ok (rating d)
  | Dict _ => Raise attribute_error
  end.

(** the numeric token [\d+(?:,\d{3})*(?:\.\d{2})?] *)
Definition number_token : regex :=
  Seq (Plus Digit)
    (Seq (Star (seq_of [Chr 44%N; Digit; Digit; Digit]))
         (Opt (seq_of [Chr 46%N; Digit; Digit]))).

(** [self.price_patterns], compiled with IGNORECASE *)
Definition price_patterns : list regex :=
  [ seq_of [Chr rupee; Star Space; Group number_token];
    seq_of [word "Rs"; Opt (Chr 46%N); Star Space; Group number_token];
    seq_of [word "INR"; Star Space; Group number_token];
    seq_of [Group number_token; Star Space; word "rupee"; Opt (ChrI 115%N)];
    seq_of [Group number_token; Star Space; Chr rupee] ].

(** the pattern of [filter_by_price], [sort_by_price] and the
    orchestrator: [(\d+(?:,\d{3})*(?:\.\d{2})?)], case sensitive *)
Definition price_number : regex := Group number_token.

Section WithRuntime.
Context {R : Runtime}.

(** [float(s)] on a text of digits and points: the value of an unsigned
    decimal literal (at most one point, a digit on one side of it at
    least), and [None], the ValueError, for every other such text.  Texts
    with other characters (a sign, an exponent, white space, [nan], [inf])
    are outside this reading of [float].  The value read so far is
    [acc / 10^frac]. *)
Fixpoint float_digits (s : pystr) (seen_point : bool) (ndigits : nat)
    (acc : Z) (scale : positive) : option Q :=
  match s with
  | [] => if (0 <? ndigits)%nat then Some (acc # scale) else None
  | c :: t =>
      if is_digit c then
        float_digits t seen_point (S ndigits) (10 * acc + digit_value c)
          (if seen_point then (10 * scale)%positive else scale)
      else if (c =? 46)%N && negb seen_point then
        float_digits t true ndigits acc scale
      else None
  end.

Definition py_float (s : pystr) : option pyfloat :=
  to_float <$> float_digits s false 0%nat 0 1%positive.

(** [s.replace(',', '')] *)
Definition remove_commas (s : pystr) : pystr :=
  List.filter (fun c => negb (c =? 44)%N) s.

(** [_extract_price] *)
Fixpoint first_price (patterns : list regex) (text : pystr) : option pystr :=
  match patterns with
  | [] => None
  | pattern :: rest =>
      match search pattern text with
      | Some m =>
          let price := default [] m in
          if negb (existsb (fun symbol => contains symbol price)
                     [[rupee]; py "Rs"; py "INR"])
          then Some (rupee :: price)
          else Some price
      | None => first_price rest text
      end
  end.

Definition _extract_price (text : pystr) : option pystr :=
  match text with
  | [] => None
  | _ => first_price price_patterns text
  end.

(** [_normalize_url] *)
Definition _normalize_url (url : pystr) : pystr :=
  match url with
  | [] => []
  | _ =>
      if negb (starts_with (py "http://") url || starts_with (py "https://") url)
      then
        if starts_with (py "//") url then py "https:" ++ url
        else if starts_with (py "/") url then py "https://example.com" ++ url
        else py "https://" ++ url
      else url
  end.

(** the price as a number: the first numeric token of the string, or
    [None] when the string has none or [float] rejects it *)
Definition price_value (p : pystr) : option pyfloat :=
  match search price_number p with
  | Some m => py_float (remove_commas (default [] m))
  | None => None
  end.

(** [filter_by_price] *)
Definition keep_price (max_price min_price : option Q) (it : item) : exn bool :=
  bind (attr_price it) (fun p =>
    if negb (truthy_str p) then Ok false
    else
      match price_value (default [] p) with
      | None => Ok false
      | Some v =>
          if truthy_num max_price && flt (Fin (default 0%Q max_price)) v then Ok false
          else if truthy_num min_price && flt v (Fin (default 0%Q min_price)) then Ok false
          else Ok true
      end).

Fixpoint filter_items (max_price min_price : option Q) (data : list item)
    : exn (list item) :=
  match data with
  | [] => Ok []
  | it :: rest =>
      bind (keep_price max_price min_price it) (fun b =>
      bind (filter_items max_price min_price rest) (fun l =>
      Ok (if b then it :: l else l)))
  end.

Definition filter_by_price (data : list item) (max_price min_price : option Q)
    : exn (list item) :=
  if negb (truthy_num max_price) && negb (truthy_num min_price) then Ok data
  else filter_items max_price min_price data.

(** [sort_by_price]: the key of a record, then the stable sort on it *)
Definition get_price_value (reverse : bool) (it : item) : exn pyfloat :=
  bind (attr_price it) (fun p =>
    if negb (truthy_str p) then Ok (if reverse then PInf else Fin 0)
    else
      match price_value (default [] p) with
      | None => Ok (if reverse then PInf else Fin 0)
      | Some v => Ok v
      end).

Definition sorted_by_key (key : item -> exn pyfloat) (reverse : bool)
    (data : list item) : exn (list item) :=
  bind (mapM (fun it => bind (key it) (fun k => Ok (k, it))) data) (fun keyed =>
  Ok (snd <$> sorted fle fst reverse keyed)).

Definition sort_by_price (data : list item) (reverse : bool) : exn (list item) :=
  sorted_by_key (get_price_value reverse) reverse data.

(** [sort_by_rating]; [float] is read as [py_float] reads it, which is
    what Python does on ratings of digits and points, the form
    [_extract_rating] produces *)
Definition get_rating_value (it : item) : exn pyfloat :=
  bind (attr_rating it) (fun r =>
    if negb (truthy_str r) then Ok (Fin 0)
    else
      match py_float (default [] r) with
      | None => Ok (Fin 0)
      | Some v => Ok v
      end).

Definition sort_by_rating (data : list item) (reverse : bool) : exn (list item) :=
  sorted_by_key get_rating_value reverse data.

(** [limit_results]: [data[:limit]]; a negative limit counts from the
    end *)
Definition limit_results {A} (data : list A) (limit : Z) : list A :=
  if 0 <=? limit then take (Z.to_nat limit) data
  else take (length data - Z.to_nat (- limit)) data.

(** [deduplicate].  [getattr(item, field, '')] reads one of the six text
    fields of an object; what any other attribute name gives (on an
    object: [raw_data], a method; on a dictionary: its own methods,
    never a key, so the default for the six names) is the parameter
    [other_attr], the [str()] of the attribute when it exists and is
    truthy. *)
Section Deduplicate.
Context (other_attr : item -> pystr -> option pystr).

Definition text_field (d : ExtractedData) (field : pystr)
    : option (option pystr) :=
  if decide (field = py "title") then Some (title d)
  else if decide (field = py "price") then Some (price d)
  else if decide (field = py "url") then Some (url d)
  else if decide (field = py "description") then Some (description d)
  else if decide (field = py "rating") then Some (rating d)
  else if decide (field = py "image_url") then Some (image_url d)
  else None.

(** [str(value)] when [value] is truthy *)
Definition getattr_truthy (it : item) (field : pystr) : option pystr :=
  match it with
  | Obj d =>
      match text_field d field with
      | Some v => if_truthy v
      | None => other_attr it field
      end
  | Dict d =>
      match text_field d field with
      | Some _ => None
      | None => other_attr it field
      end
  end.

Definition key_parts (key_fields : list pystr) (it : item) : list pystr :=
  omap (fun field => (fun v => strip (lower v)) <$> getattr_truthy it field)
    key_fields.

Definition item_key (key_fields : list pystr) (it : item) : pystr :=
  join (py "|") (key_parts key_fields it).

Fixpoint dedup_loop (key_fields : list pystr) (seen : gset pystr)
    (data : list item) : list item :=
  match data with
  | [] => []
  | it :: rest =>
      let key := item_key key_fields it in
      if decide (key ∈ seen) then dedup_loop key_fields seen rest
      else it :: dedup_loop key_fields ({[ key ]} ∪ seen) rest
  end.

Definition deduplicate (data : list item) (key_fields : option (list pystr))
    : list item :=
  let key_fields :=
    match key_fields with
    | None | Some [] => [py "title"; py "url"]
    | Some kf => kf
    end in
  dedup_loop key_fields ∅ data.
End Deduplicate.

(** [self.rating_patterns], compiled with IGNORECASE *)
Definition rating_number : regex :=
  Seq (Plus Digit) (Opt (Seq (Chr 46%N) (Plus Digit))).

Definition rating_patterns : list regex :=
  [ seq_of [Group rating_number; Star Space; word "out"; Star Space;
            word "of"; Star Space; Chr 53%N];
    seq_of [Group rating_number; Star Space; Chr 47%N; Star Space; Chr 53%N];
    seq_of [Group rating_number; Star Space; word "star"; Opt (ChrI 115%N)];
    seq_of [word "rating"; Star (Alt (Chr 58%N) Space); Group rating_number] ].

(** [_extract_rating] *)
Fixpoint first_rating (patterns : list regex) (text : pystr) : option pystr :=
  match patterns with
  | [] => None
  | pattern :: rest =>
      match search pattern text with
      | Some m => Some (default [] m)
      | None => first_rating rest text
      end
  end.

Definition _extract_rating (text : pystr) : option pystr :=
  match text with
  | [] => None
  | _ => first_rating rating_patterns text
  end.

(** [_clean_text]: runs of white space become one blank, characters
    outside [\w\s.,!?] and the five currency signs go, and the result
    is stripped *)
Fixpoint collapse_spaces (in_run : bool) (s : pystr) : pystr :=
  match s with
  | [] => []
  | c :: t =>
      if is_space c then
        if in_run then collapse_spaces true t
        else 32%N :: collapse_spaces true t
      else c :: collapse_spaces false t
  end.

Definition kept_char (c : char) : bool :=
  is_word c || is_space c ||
  existsb (fun k => (c =? k)%N)
    [46; 44; 33; 63; rupee; 36; 8364; 163; 165]%N.

Definition _clean_text (text : pystr) : pystr :=
  match text with
  | [] => []
  | _ => strip (List.filter kept_char (collapse_spaces false text))
  end.

(** [extract_from_playwright_data] *)
Definition extract_fragment (f : fragment) : option ExtractedData :=
  let href := f_attributes f ≫= (.!! py "href") in
  let src := f_attributes f ≫= (.!! py "src") in
  let data := {|
    title := _clean_text <$> f_text f;
    price := if_truthy (f_text f ≫= _extract_price);
    url := _normalize_url <$> href;
    description := _clean_text <$> f_text f;
    rating := if_truthy (f_text f ≫= _extract_rating);
    image_url := _normalize_url <$> src;
    raw_data := f |} in
  if truthy_str (title data) || truthy_str (price data) ||
     truthy_str (url data) || truthy_str (description data)
  then Some data else None.

Definition extract_from_playwright_data (playwright_data : list fragment)
    (selectors : gmap pystr (option pystr)) : list ExtractedData :=
  omap extract_fragment playwright_data.
End WithRuntime.

End Extractor.

(** ** parser.py *)

Module Parser.
Import Py.

(** A value of the metadata dictionaries. *)
Inductive meta :=
| MStr (s : pystr)
| MInt (z : Z)
| MBool (b : bool).

(** One entry of [actions], a dictionary.  A field is [None] when the key
    is missing.  Nothing in the code checks the values: the two numbers
    hold whatever the reply gave them, and the action is a string or, for a
    null of the reply, [None]. *)
Record action_dict := {
  a_action : option (option pystr);
  a_selector : option pystr;
  a_value : option pystr;
  a_url : option pystr;
  a_timeout : option pyval;
  a_multiple : option bool;
  a_retries : option pyval;
  a_metadata : option (gmap pystr meta)
}.

(** [filters]: the keys the pipeline reads.  A key that is missing and a
    key that holds [None] are one case here: every reader treats them
    alike. *)
Record filters_t := {
  price_max : option Q;
  price_min : option Q;
  sort : option pystr
}.

Definition no_filters : filters_t :=
  {| price_max := None; price_min := None; sort := None |}.

(** [ParsedInstruction].  A selector is a string or, for a null of the
    reply, [None]; [filters] and [fields] are [None] when the reply held
    a null there, which [parse] keeps. *)
Record ParsedInstruction := {
  task : pystr;
  query : pystr;
  filters : option filters_t;
  count : Z;
  fields : option (list pystr);
  target_url : option pystr;
  selectors : gmap pystr (option pystr);
  actions : list action_dict;
  raw_instruction : pystr
}.

(** The object [json.loads] returns for the model's reply.  [None] is a
    key that is missing or holds a null, one case for the task, the query,
    the count, the target URL, the selectors and the actions: [parse] and
    the readers of these fields replace a null and supply a missing key
    with the same default.  For [filters] and [fields] a null is kept, so
    there [None] is the missing key and [Some None] the null. *)
Record plan_data := {
  pd_task : option pystr;
  pd_query : option pystr;
  pd_filters : option (option filters_t);
  pd_count : option Z;
  pd_fields : option (option (list pystr));
  pd_target_url : option pystr;
  pd_selectors : option (gmap pystr (option pystr));
  pd_actions : option (list action_dict)
}.

(** [_get_default_selectors] *)
Definition search_selectors : gmap pystr pystr :=
  list_to_map [
    (py "search_box", pyq "input[name=`q`], input[name=`search`], input[type=`search`]");
    (py "search_button", pyq "button[type=`submit`], input[type=`submit`], .search-button");
    (py "results", py ".result, .search-result, .product-item, .item");
    (py "title", py "h1, h2, h3, .title, .name");
    (py "price", pyq ".price, .cost, [class*=`price`]");
    (py "link", py "a, .link") ].

Definition navigate_selectors : gmap pystr pystr :=
  list_to_map [
    (py "page_content", py "body, main, .content");
    (py "navigation", py "nav, .nav, .menu") ].

Definition extract_selectors : gmap pystr pystr :=
  list_to_map [
    (py "content", py "body, main, .content, .article");
    (py "title", py "h1, .title, .headline");
    (py "text", py "p, .text, .description") ].

Definition _get_default_selectors (task : pystr) : gmap pystr (option pystr) :=
  Some <$>
    (if decide (task = py "search") then search_selectors
     else if decide (task = py "navigate") then navigate_selectors
     else if decide (task = py "extract") then extract_selectors
     else search_selectors).

(** [_get_default_actions] *)
Definition _get_default_actions (parsed : ParsedInstruction) : list action_dict :=
  let goto := {|
    a_action := Some (Some (py "goto")); a_selector := None; a_value := None;
    a_url := target_url parsed; a_timeout := None; a_multiple := None;
    a_retries := None; a_metadata := None |} in
  let wait n := {|
    a_action := Some (Some (py "wait")); a_selector := None; a_value := None;
    a_url := None; a_timeout := Some (VInt n); a_multiple := None;
    a_retries := None; a_metadata := None |} in
  let extract sel many := {|
    a_action := Some (Some (py "extract")); a_selector := Some sel; a_value := None;
    a_url := None; a_timeout := None; a_multiple := Some many;
    a_retries := None; a_metadata := None |} in
  if decide (task parsed = py "search") then
    [ goto;
      {| a_action := Some (Some (py "fill")); a_selector := Some (pyq "input[name=`q`]");
         a_value := Some (query parsed); a_url := None; a_timeout := None;
         a_multiple := None; a_retries := None; a_metadata := None |};
      {| a_action := Some (Some (py "click")); a_selector := Some (pyq "button[type=`submit`]");
         a_value := None; a_url := None; a_timeout := None;
         a_multiple := None; a_retries := None; a_metadata := None |};
      wait 3;
      extract (py ".result") true ]
  else if decide (task parsed = py "navigate") then [ goto; wait 2 ]
  else if decide (task parsed = py "extract") then
    [ goto; wait 2; extract (py "body") false ]
  else [].

(** [_get_default_url] *)
Definition _get_default_url (task : pystr) : pystr :=
  if decide (task = py "search") then py "https://www.google.com"
  else if decide (task = py "navigate") then py "https://www.example.com"
  else if decide (task = py "extract") then py "https://www.example.com"
  else if decide (task = py "fill_form") then py "https://www.example.com/contact"
  else if decide (task = py "click") then py "https://www.example.com"
  else if decide (task = py "screenshot") then py "https://www.example.com"
  else py "https://www.google.com".

(** [_validate_and_enhance]: each assignment in the order of the source,
    the default actions being built before the default URL is set *)
Definition _validate_and_enhance (parsed : ParsedInstruction) : ParsedInstruction :=
  let task1 := match task parsed with [] => py "search" | t => t end in
  let query1 := match query parsed with [] => raw_instruction parsed | q => q end in
  let selectors1 :=
    if decide (selectors parsed = ∅) then _get_default_selectors task1
    else selectors parsed in
  let parsed1 := {|
    task := task1; query := query1; filters := filters parsed;
    count := count parsed; fields := fields parsed;
    target_url := target_url parsed; selectors := selectors1;
    actions := actions parsed; raw_instruction := raw_instruction parsed |} in
  let actions1 :=
    match actions parsed with
    | [] => _get_default_actions parsed1
    | acts => acts
    end in
  let target_url1 :=
    if truthy_str (target_url parsed) then target_url parsed
    else Some (_get_default_url task1) in
  {| task := task1; query := query1; filters := filters parsed;
     count := count parsed; fields := fields parsed;
     target_url := target_url1; selectors := selectors1;
     actions := actions1; raw_instruction := raw_instruction parsed |}.

Section WithRuntime.
Context {R : Runtime}.

(** [_create_fallback_instruction] *)
Definition fallback_task (instruction : pystr) : pystr :=
  let instruction_lower := lower instruction in
  if contains (py "search") instruction_lower then py "search"
  else if contains (py "navigate") instruction_lower
          || contains (py "go to") instruction_lower then py "navigate"
  else if contains (py "extract") instruction_lower
          || contains (py "get") instruction_lower then py "extract"
  else if contains (py "fill") instruction_lower
          || contains (py "form") instruction_lower then py "fill_form"
  else py "search".

Definition _create_fallback_instruction (instruction : pystr)
    : exn ParsedInstruction :=
  let task := fallback_task instruction in
  let query := instruction in
  Ok {|
    task := task;
    query := query;
    filters := Some no_filters;
    count := 5;
    fields := Some [py "title"; py "url"];
    target_url := Some (_get_default_url task);
    selectors := _get_default_selectors task;
    actions := _get_default_actions {|
      task := task; query := query; filters := Some no_filters; count := 5;
      fields := Some [py "title"; py "url"]; target_url := None;
      selectors := ∅; actions := []; raw_instruction := instruction |};
    raw_instruction := instruction |}.

(** [parse].  [reply] is what the body of the [try] has in hand when it
    builds the intent: the decoded object, or the exception raised on the
    way to it (by the language model, by [json.loads], or by [.get] on a
    reply that is no object). *)
Definition parse (reply : exn plan_data) (instruction : pystr)
    : exn ParsedInstruction :=
  match
    bind reply (fun plan_data =>
      Ok (_validate_and_enhance {|
        task := default (py "search") (pd_task plan_data);
        query := default instruction (pd_query plan_data);
        filters := default (Some no_filters) (pd_filters plan_data);
        count := default 5 (pd_count plan_data);
        fields := default (Some [py "title"; py "url"]) (pd_fields plan_data);
        target_url := pd_target_url plan_data;
        selectors := default ∅ (pd_selectors plan_data);
        actions := default [] (pd_actions plan_data);
        raw_instruction := instruction |}))
  with
  | Ok parsed => Ok parsed
  | Raise _ => _create_fallback_instruction instruction
  end.
End WithRuntime.

End Parser.

(** ** planner.py *)

Module Planner.
Import Py.
Import Parser.

(** [Step].  [timeout] and [retries] hold what the action dictionary
    held: an int in a well-formed plan, any value otherwise.  [action] is
    a string, or [None] when the dictionary held a null there. *)
Record Step := {
  action : option pystr;
  selector : option pystr;
  value : option pystr;
  url : option pystr;
  timeout : pyval;
  multiple : bool;
  retries : pyval;
  metadata : gmap pystr meta
}.

(** [_load_step_templates]: action, timeout, multiple *)
Definition template := list (pystr * Z * bool).

Definition search_template : template :=
  [ (py "goto", 15, false); (py "wait", 2, false); (py "fill", 10, false);
    (py "click", 10, false); (py "wait", 5, false); (py "extract", 10, true) ].

Definition step_templates (task : pystr) : option template :=
  if decide (task = py "search") then Some search_template
  else if decide (task = py "navigate") then
    Some [ (py "goto", 15, false); (py "wait", 3, false) ]
  else if decide (task = py "extract") then
    Some [ (py "goto", 15, false); (py "wait", 3, false); (py "extract", 10, true) ]
  else if decide (task = py "fill_form") then
    Some [ (py "goto", 15, false); (py "wait", 2, false); (py "fill", 10, false);
           (py "click", 10, false) ]
  else if decide (task = py "click") then
    Some [ (py "goto", 15, false); (py "wait", 2, false); (py "click", 10, false) ]
  else if decide (task = py "screenshot") then
    Some [ (py "goto", 15, false); (py "wait", 3, false); (py "screenshot", 5, false) ]
  else None.

(** [_convert_actions_to_steps] *)
Definition step_of_action (a : action_dict) : Step := {|
  action := default (Some (py "goto")) (a_action a);
  selector := a_selector a;
  value := a_value a;
  url := a_url a;
  timeout := default (VInt 10) (a_timeout a);
  multiple := default false (a_multiple a);
  retries := default (VInt 3) (a_retries a);
  metadata := default ∅ (a_metadata a) |}.

Definition _convert_actions_to_steps (actions : list action_dict) : list Step :=
  step_of_action <$> actions.

(** [_generate_steps_from_template] *)
Definition _generate_steps_from_template (parsed_instruction : ParsedInstruction)
    : list Step :=
  let template :=
    default search_template (step_templates (task parsed_instruction)) in
  (fun '(a, t, m) => {|
     action := Some a; selector := None; value := None; url := None;
     timeout := VInt t; multiple := m; retries := VInt 3; metadata := ∅ |})
  <$> template.

(** [_get_selector] *)
Definition fallback_selectors : gmap pystr pystr :=
  list_to_map [
    (py "search_box", pyq "input[name=`q`], input[type=`search`], input[placeholder*=`search`]");
    (py "search_button", pyq "button[type=`submit`], input[type=`submit`], .search-button");
    (py "results", py ".result, .search-result, .product-item, .item");
    (py "title", py "h1, h2, h3, .title, .name");
    (py "price", pyq ".price, .cost, [class*=`price`]");
    (py "link", py "a, .link") ].

Definition _get_selector (parsed_instruction : ParsedInstruction)
    (selector_type : pystr) : option pystr :=
  match selectors parsed_instruction !! selector_type with
  | Some s => s
  | None => Some (default (py "body") (fallback_selectors !! selector_type))
  end.

(** [_enhance_steps]: the body of the loop for the step at index [i] *)
Definition enhance_step (parsed_instruction : ParsedInstruction) (i : nat)
    (step : Step) : Step :=
  let act a := bool_decide (action step = Some a) in
  {| action := action step;
     selector :=
       if act (py "fill") then _get_selector parsed_instruction (py "search_box")
       else if act (py "click") then _get_selector parsed_instruction (py "search_button")
       else if act (py "extract") then _get_selector parsed_instruction (py "results")
       else selector step;
     value := if act (py "fill") then Some (query parsed_instruction) else value step;
     url :=
       if act (py "goto") && negb (truthy_str (url step))
       then target_url parsed_instruction else url step;
     timeout := timeout step;
     multiple := if act (py "extract") then true else multiple step;
     retries := retries step;
     metadata :=
       <[py "step_number" := MInt (Z.of_nat i + 1)]>
         (<[py "query" := MStr (query parsed_instruction)]>
            (<[py "task" := MStr (task parsed_instruction)]> (metadata step))) |}.

Definition _enhance_steps (steps : list Step)
    (parsed_instruction : ParsedInstruction) : list Step :=
  imap (enhance_step parsed_instruction) steps.

(** [max(x, n)] with [n] an int: [x] unless [n > x].  So a NaN stays,
    and a value that is not a number raises TypeError. *)
Definition py_max (x : pyval) (n : Z) : exn pyval :=
  bind (int_gt n x) (fun greater => Ok (if greater then VInt n else x)).

Definition wait_step : Step := {|
  action := Some (py "wait"); selector := None; value := None; url := None;
  timeout := VInt 2; multiple := false; retries := VInt 3;
  metadata := {[ py "purpose" := MStr (py "wait_after_action") ]} |}.

(** [_add_error_handling] *)
Definition harden_step (step : Step) : exn Step :=
  let act a := bool_decide (action step = Some a) in
  bind (if act (py "click") || act (py "fill") || act (py "extract")
        then py_max (retries step) 3 else Ok (retries step)) (fun retries1 =>
  bind (if act (py "goto") then py_max (timeout step) 15 else Ok (timeout step))
    (fun timeout1 =>
  Ok {| action := action step; selector := selector step; value := value step;
        url := url step; timeout := timeout1; multiple := multiple step;
        retries := retries1; metadata := metadata step |})).

Fixpoint _add_error_handling (steps : list Step) : exn (list Step) :=
  match steps with
  | [] => Ok []
  | step :: rest =>
      bind (harden_step step) (fun step1 =>
      bind (_add_error_handling rest) (fun enhanced_steps =>
      if bool_decide (action step = Some (py "click"))
         || bool_decide (action step = Some (py "fill"))
      then Ok (step1 :: wait_step :: enhanced_steps)
      else Ok (step1 :: enhanced_steps)))
  end.

(** [_create_fallback_steps] *)
Definition fallback_meta : gmap pystr meta := {[ py "fallback" := MBool true ]}.

Definition _create_fallback_steps (parsed_instruction : ParsedInstruction)
    : list Step :=
  let mk a sel val u t many := {|
    action := Some a; selector := sel; value := val; url := u; timeout := VInt t;
    multiple := many; retries := VInt 3; metadata := fallback_meta |} in
  [ mk (py "goto") None None
      (if truthy_str (target_url parsed_instruction)
       then target_url parsed_instruction
       else Some (py "https://www.google.com")) 15 false;
    mk (py "wait") None None None 3 false ] ++
  (if decide (task parsed_instruction = py "search") then
     [ mk (py "fill") (Some (pyq "input[name=`q`]")) (Some (query parsed_instruction))
         None 10 false;
       mk (py "click") (Some (pyq "button[type=`submit`]")) None None 10 false;
       mk (py "wait") None None None 5 false;
       mk (py "extract") (Some (py "body")) None None 10 true ]
   else []).

(** [plan] *)
Definition plan (parsed_instruction : ParsedInstruction) : exn (list Step) :=
  match
    let steps :=
      match actions parsed_instruction with
      | [] => _generate_steps_from_template parsed_instruction
      | acts => _convert_actions_to_steps acts
      end in
    let steps := _enhance_steps steps parsed_instruction in
    _add_error_handling steps
  with
  | Ok steps => Ok steps
  | Raise _ => Ok (_create_fallback_steps parsed_instruction)
  end.

End Planner.

(** ** session_memory.py *)

Module Memory.
Import Py.

(** What a task leaves in memory: its records, or the error message. *)
Inductive result_t :=
| Records (l : list Extractor.item)
| ErrorResult (msg : pystr).

(** A [datetime] is naive or aware of its offset from UTC: [datetime.now()]
    gives a naive one, [datetime.fromisoformat] either kind, as the text it
    reads ends in an offset or not.  The microseconds are what a comparison
    of two datetimes of one kind compares; for an aware one they are those of
    its instant in UTC. *)
Inductive datetime :=
| Naive (microseconds : Z)
| Aware (microseconds : Z).

Definition micros (t : datetime) : Z :=
  match t with Naive z | Aware z => z end.

Definition is_aware (t : datetime) : bool :=
  match t with Aware _ => true | Naive _ => false end.

(** the message of the TypeError of a comparison between the two kinds *)
Definition cant_compare : pystr :=
  py "can't compare offset-naive and offset-aware datetimes".

(** [a > b] on datetimes *)
Definition dt_gt (a b : datetime) : exn bool :=
  if Bool.eqb (is_aware a) (is_aware b) then Ok (micros b <? micros a)
  else Raise cant_compare.

(** [[x for x in l if test(x)]] with a test that can raise *)
Fixpoint filterM {A} (test : A -> exn bool) (l : list A) : exn (list A) :=
  match l with
  | [] => Ok []
  | x :: rest =>
      bind (test x) (fun keep =>
      bind (filterM test rest) (fun out =>
      Ok (if keep then x :: out else out)))
  end.

(** [MemoryEntry] *)
Record MemoryEntry := {
  id : pystr;
  instruction : pystr;
  result : result_t;
  timestamp : datetime;
  task_type : pystr;
  success : bool;
  metadata : gmap pystr Parser.meta
}.

(** [SessionContext].  [_load_from_disk] fills the three counters from the
    file as they are, so a counter is any value of a JSON document. *)
Record SessionContext := {
  session_id : pystr;
  start_time : datetime;
  last_activity : datetime;
  total_tasks : pyval;
  successful_tasks : pyval;
  failed_tasks : pyval
}.

(** [x += 1] on a counter: the sum for a number (a bool counts as an int;
    on a finite float the sum is taken exactly, without the rounding of the
    float addition), a TypeError for anything else *)
Definition incr (x : pyval) : exn pyval :=
  match x with
  | VInt z => Ok (VInt (z + 1))
  | VBool b => Ok (VInt (Z.b2z b + 1))
  | VFloat q => Ok (VFloat (q + 1))
  | VInf _ | VNaN => Ok x
  | VStr _ => Raise (pyq "can only concatenate str (not `int`) to str")
  | VList => Raise (py "'int' object is not iterable")
  | VNone | VDict =>
      Raise (py "unsupported operand type(s) for +=: '" ++ type_name x
             ++ py "' and 'int'")
  end.

(** [SessionMemory]: the list and the context, the two attributes the
    methods change *)
Record SessionMemory := {
  memories : list MemoryEntry;
  session_context : option SessionContext
}.

Definition max_memories : nat := 100.
Definition memory_ttl_days : Z := 7.

(** [timedelta(days=d)] in microseconds *)
Definition timedelta_days (d : Z) : Z := d * 86400 * 1000000.

Definition fle_Z (a b : Z) : bool := a <=? b.

(** the microseconds of the timestamp of an entry *)
Definition timestamp_micros (mem : MemoryEntry) : Z := micros (timestamp mem).

(** [sorted(l, key=lambda x: x.timestamp, reverse=True)].  Timestamps of
    one kind are ordered by their microseconds.  With both kinds in the list
    the sort raises the TypeError of the comparison: a sort that returns has
    compared each entry of its result with the next one, and some naive
    timestamp would stand next to an aware one. *)
Definition sorted_by_timestamp (l : list MemoryEntry) : exn (list MemoryEntry) :=
  if existsb (fun mem => is_aware (timestamp mem)) l
     && existsb (fun mem => negb (is_aware (timestamp mem))) l
  then Raise cant_compare
  else Ok (sorted fle_Z timestamp_micros true l).

(** [_cleanup_old_memories], at the time [now] its [datetime.now()]
    reads.  The two assignments to [self.memories] stand in one [try]: an
    exception in the first leaves the list as it was, one in the second
    leaves the list of the first, and the handler only logs. *)
Definition _cleanup_old_memories (now : Z) (self : SessionMemory) : SessionMemory :=
  let cutoff_date := Naive (now - timedelta_days memory_ttl_days) in
  match filterM (fun mem => dt_gt (timestamp mem) cutoff_date) (memories self) with
  | Raise _ => self
  | Ok memories1 =>
      if (max_memories <? length memories1)%nat then
        match sorted_by_timestamp memories1 with
        | Ok newest_first =>
            {| memories := take max_memories newest_first;
               session_context := session_context self |}
        | Raise _ =>
            {| memories := memories1; session_context := session_context self |}
        end
      else {| memories := memories1; session_context := session_context self |}
  end.

(** The three readings of the clock and the identifier that one
    [add_memory] draws. *)
Record draws := {
  memory_id : pystr;
  now_entry : Z;
  now_activity : Z;
  now_cleanup : Z
}.

(** [add_memory]: the new state and the identifier it returns; writing
    the store to disk changes neither.  The body stands in one [try]: when
    a counter cannot be added to, the entry is in the list and the counters
    before it are updated, but the cleanup is not reached, and the empty
    string is returned. *)
Definition add_memory (d : draws) (self : SessionMemory) (instruction : pystr)
    (result : result_t) (success : bool) (task_type : pystr)
    (metadata : gmap pystr Parser.meta) : SessionMemory * pystr :=
  let entry := {|
    id := memory_id d; instruction := instruction; result := result;
    timestamp := Naive (now_entry d); task_type := task_type; success := success;
    metadata := metadata |} in
  let memories1 := memories self ++ [entry] in
  match session_context self with
  | None =>
      (_cleanup_old_memories (now_cleanup d)
         {| memories := memories1; session_context := None |},
       memory_id d)
  | Some c =>
      match incr (total_tasks c) with
      | Raise _ => ({| memories := memories1; session_context := Some c |}, [])
      | Ok total1 =>
          match incr (if success then successful_tasks c else failed_tasks c) with
          | Raise _ =>
              ({| memories := memories1;
                  session_context := Some {|
                    session_id := session_id c;
                    start_time := start_time c;
                    last_activity := last_activity c;
                    total_tasks := total1;
                    successful_tasks := successful_tasks c;
                    failed_tasks := failed_tasks c |} |}, [])
          | Ok counted =>
              (_cleanup_old_memories (now_cleanup d)
                 {| memories := memories1;
                    session_context := Some {|
                      session_id := session_id c;
                      start_time := start_time c;
                      last_activity := Naive (now_activity d);
                      total_tasks := total1;
                      successful_tasks :=
                        if success then counted else successful_tasks c;
                      failed_tasks :=
                        if success then failed_tasks c else counted |} |},
               memory_id d)
          end
      end
  end.

End Memory.

(** ** orchestrator.py *)

Module Orchestrator.
Import Py.
Import Extractor.
Import Parser.
Import Planner.

(** [ExecutionResult.status]: the three values the dataclass names *)
Inductive status_t := success | error | partial.

(** What a browser action hands back as [data]: nothing, a list of
    fragments, or one dictionary. *)
Inductive payload :=
| NoData
| Many (l : list fragment)
| One (f : fragment).

Definition payload_truthy (d : payload) : bool :=
  match d with
  | NoData => false
  | Many l => negb (bool_decide (l = []))
  | One f => bool_decide (is_Some (f_text f)) || bool_decide (is_Some (f_attributes f))
             || f_other_keys f
  end.

(** [ActionResult] *)
Record ActionResult := {
  ok : bool;
  data : payload;
  err : option pystr
}.

(** The entries of the structured log. *)
Inductive level_t := info | warning | error_level.

Inductive message :=
| Starting
| RetrievedContext
| ParsedInstructionMsg
| PlannedSteps (steps_count : nat)
| ExecutingStep (i n : nat)
| StepCompleted (i : nat)
| StepFailed (i : nat)
| CriticalStepFailed (i : nat)
| StepExecutionError (i : nat)
| StepRetrying (attempt retries : Z)
| StepFailedAfter (retries : Z)
| ExtractFailed
| ProcessFailed
| Completed
| TaskFailed.

Record log_entry := {
  level : level_t;
  msg : message;
  detail : option pystr
}.

Definition _log (l : level_t) (m : message) (d : option pystr) : log_entry :=
  {| level := l; msg := m; detail := d |}.

(** [ExecutionResult], without the wall-clock time and the metadata
    summary *)
Record ExecutionResult := {
  task_id : pystr;
  status : status_t;
  instruction : pystr;
  results : list item;
  error_message : option pystr;
  logs : list log_entry
}.

Definition known_action (a : option pystr) : bool :=
  bool_decide (a ∈ [Some (py "goto"); Some (py "click"); Some (py "fill");
                    Some (py "extract"); Some (py "wait"); Some (py "screenshot")]).

(** [step.action in ["goto", "click"]] *)
Definition critical (a : option pystr) : bool :=
  bool_decide (a ∈ [Some (py "goto"); Some (py "click")]).

(** [range(v)]: the number of rounds when [v] is an int or a bool;
    anything else cannot be interpreted as an integer *)
Definition range_of (v : pyval) : exn Z :=
  match v with
  | VInt z => Ok z
  | VBool b => Ok (Z.b2z b)
  | _ => Raise (py "'" ++ type_name v
                ++ py "' object cannot be interpreted as an integer")
  end.

Section WithBrowser.
Context {R : Runtime}.
(** The browsing session: its states, and one call of the method that
    belongs to the step's action, which returns or raises. *)
Context {Browser : Type}.
Context (browser_call : Browser -> Step -> exn ActionResult * Browser).
Context (other_attr : item -> pystr -> option pystr).

(** one pass through the [try] of the retry loop *)
Definition attempt (browser : Browser) (step : Step) : exn ActionResult * Browser :=
  if known_action (action step) then browser_call browser step
  else (Raise (py "Unknown action: " ++ default (py "None") (action step)), browser).

(** [_execute_step_with_retry]: the loop over [range(step.retries)] from
    attempt number [attempt_no], with [left] attempts to go *)
Fixpoint retry_loop (left : nat) (attempt_no retries : Z) (browser : Browser)
    (step : Step) (last_error : option pystr)
    : ActionResult * Browser * list log_entry :=
  match left with
  | O => ({| ok := false;
             data := NoData;
             err := Some (default (py "None") last_error) |}, browser, [])
  | S left' =>
      match attempt browser step with
      | (Ok r, browser') => (r, browser', [])
      | (Raise e, browser') =>
          let entry :=
            if attempt_no <? retries - 1
            then _log warning (StepRetrying (attempt_no + 1) retries) (Some e)
            else _log error_level (StepFailedAfter retries) (Some e) in
          let '(r, browser'', l) :=
            retry_loop left' (attempt_no + 1) retries browser' step (Some e) in
          (r, browser'', entry :: l)
      end
  end.

Definition _execute_step_with_retry (browser : Browser) (step : Step)
    : exn (ActionResult * Browser * list log_entry) :=
  bind (range_of (retries step)) (fun n =>
  Ok (retry_loop (Z.to_nat n) 0 n browser step None)).

(** the price test of [_extract_data_from_step_result] on one record *)
Definition under_price_max (max_price : option Q) (d : ExtractedData) : exn bool :=
  if truthy_num max_price && truthy_str (price d) then
    match Re.search price_number (default [] (price d)) with
    | Some m =>
        match py_float (remove_commas (default [] m)) with
        | Some v => Ok (negb (flt (Fin (default 0%Q max_price)) v))
        | None => Raise (py "could not convert string to float")
        end
    | None => Ok true
    end
  else Ok true.

Fixpoint dicts_under (max_price : option Q) (extracted : list ExtractedData)
    : exn (list item) :=
  match extracted with
  | [] => Ok []
  | d :: rest =>
      bind (under_price_max max_price d) (fun keep =>
      bind (dicts_under max_price rest) (fun l =>
      Ok (if keep then to_dict d :: l else l)))
  end.

(** [filters.get('sort')] decides the sort *)
Definition sort_results (f : filters_t) (results : list item) : exn (list item) :=
  if bool_decide (sort f = Some (py "rating")) then sort_by_rating results true
  else if bool_decide (sort f = Some (py "price")) then sort_by_price results false
  else Ok results.

(** [count or 5] *)
Definition limit_of (parsed_instruction : ParsedInstruction) : Z :=
  if count parsed_instruction =? 0 then 5 else count parsed_instruction.

(** [parsed_instruction.filters.get]: the dictionary, or AttributeError
    when [filters] is [None] *)
Definition filters_get (parsed_instruction : ParsedInstruction) : exn filters_t :=
  match filters parsed_instruction with
  | Some f => Ok f
  | None => Raise (py "'NoneType' object has no attribute 'get'")
  end.

(** [_extract_data_from_step_result]: [filters] is read for the first
    record, and for the sort when there is no record *)
Definition _extract_data_from_step_result (step_result : ActionResult)
    (parsed_instruction : ParsedInstruction) : list item * list log_entry :=
  if negb (payload_truthy (data step_result)) then ([], [])
  else
    let extracted_data :=
      extract_from_playwright_data
        match data step_result with
        | Many l => l
        | One f => [f]
        | NoData => []
        end
        (selectors parsed_instruction) in
    match
      bind (filters_get parsed_instruction) (fun f =>
      bind (dicts_under (price_max f) extracted_data) (fun results =>
      bind (sort_results f results) (fun results =>
      Ok (limit_results results (limit_of parsed_instruction)))))
    with
    | Ok results => (results, [])
    | Raise e => ([], [_log error_level ExtractFailed (Some e)])
    end.

(** [_execute_steps]: the loop from the step at index [i], with [n] the
    length of the whole plan.  It gives the records the steps added,
    the log entries they wrote and the browser they left. *)
Fixpoint run_steps (browser : Browser) (i n : nat) (steps : list Step)
    (parsed_instruction : ParsedInstruction)
    : list item * list log_entry * Browser :=
  match steps with
  | [] => ([], [], browser)
  | step :: rest =>
      let executing := _log info (ExecutingStep (i + 1) n) None in
      match _execute_step_with_retry browser step with
      | Raise e =>
          let '(rs, l, b) := run_steps browser (i + 1) n rest parsed_instruction in
          (rs, executing :: _log error_level (StepExecutionError (i + 1)) (Some e) :: l, b)
      | Ok (step_result, browser', retry_log) =>
          if ok step_result then
            let '(extracted_data, extract_log) :=
              if bool_decide (action step = Some (py "extract"))
                 && payload_truthy (data step_result)
              then _extract_data_from_step_result step_result parsed_instruction
              else ([], []) in
            let '(rs, l, b) := run_steps browser' (i + 1) n rest parsed_instruction in
            (extracted_data ++ rs,
             executing :: retry_log ++ _log info (StepCompleted (i + 1)) None
               :: extract_log ++ l, b)
          else
            let failed := _log warning (StepFailed (i + 1)) (err step_result) in
            if critical (action step) then
              ([], executing :: retry_log ++
                   [failed; _log error_level (CriticalStepFailed (i + 1)) None],
               browser')
            else
              let '(rs, l, b) := run_steps browser' (i + 1) n rest parsed_instruction in
              (rs, executing :: retry_log ++ failed :: l, b)
      end
  end.

(** entering the [async with] block raises when the browser does not
    start *)
Definition _execute_steps (start : exn Browser) (steps : list Step)
    (parsed_instruction : ParsedInstruction)
    : exn (list item * list log_entry) :=
  bind start (fun browser =>
    let '(rs, l, _) := run_steps browser 0 (length steps) steps parsed_instruction in
    Ok (rs, l)).

(** [_process_results]: on an exception the list as it stood is
    returned.  A filter runs when its key is in [filters], which is then
    not empty; when [filters] is [None] the filters are passed over and
    reading the sort raises. *)
Definition _process_results (results : list item)
    (parsed_instruction : ParsedInstruction) : list item * list log_entry :=
  match results with
  | [] => ([], [])
  | _ =>
      let failed r e := (r, [_log error_level ProcessFailed (Some e)]) in
      let r1 := deduplicate other_attr results None in
      match filters_get parsed_instruction with
      | Raise e => failed r1 e
      | Ok f =>
      match (if price_max f is Some _ then filter_by_price r1 (price_max f) None
             else Ok r1) with
      | Raise e => failed r1 e
      | Ok r2 =>
          match (if price_min f is Some _ then filter_by_price r2 None (price_min f)
                 else Ok r2) with
          | Raise e => failed r2 e
          | Ok r3 =>
              match sort_results f r3 with
              | Raise e => failed r3 e
              | Ok r4 => (limit_results r4 (limit_of parsed_instruction), [])
              end
          end
      end
      end
  end.

(** What the collaborators of one [execute] do: the memory lookup, the
    language model with the JSON decoder, the start of the browser,
    the task store, and the draws of the two [add_memory] calls. *)
Record world := {
  w_task_id : pystr;
  w_context : exn unit;
  w_reply : exn plan_data;
  w_start : exn Browser;
  w_save : exn unit;
  w_draws : Memory.draws;
  w_draws_error : Memory.draws
}.

(** [execute]: the result and the memory it leaves; the execution time is
    left out of the metadata of the memory entries too *)
Definition execute (w : world) (memory : Memory.SessionMemory)
    (instruction : pystr) : ExecutionResult * Memory.SessionMemory :=
  let log0 := [_log info Starting None] in
  let body : exn (ExecutionResult * Memory.SessionMemory) * list log_entry
             * Memory.SessionMemory :=
    match w_context w with
    | Raise e => (Raise e, log0, memory)
    | Ok _ =>
    let log1 := log0 ++ [_log info RetrievedContext None] in
    match parse (w_reply w) instruction with
    | Raise e => (Raise e, log1, memory)
    | Ok parsed_instruction =>
    let log2 := log1 ++ [_log info ParsedInstructionMsg None] in
    match plan parsed_instruction with
    | Raise e => (Raise e, log2, memory)
    | Ok steps =>
    let log3 := log2 ++ [_log info (PlannedSteps (length steps)) None] in
    match _execute_steps (w_start w) steps parsed_instruction with
    | Raise e => (Raise e, log3, memory)
    | Ok (results, step_log) =>
    let '(processed_results, process_log) :=
      _process_results results parsed_instruction in
    let log4 := log3 ++ step_log ++ process_log in
    let execution_result := {|
      task_id := w_task_id w;
      status := match results with [] => error | _ => success end;
      instruction := instruction;
      results := processed_results;
      error_message := None;
      logs := log4 |} in
    let memory1 :=
      fst (Memory.add_memory (w_draws w) memory instruction
             (Memory.Records processed_results)
             (match results with [] => false | _ => true end)
             (task parsed_instruction)
             {[ py "task_id" := MStr (w_task_id w) ]}) in
    match w_save w with
    | Raise e => (Raise e, log4, memory1)
    | Ok _ => (Ok (execution_result, memory1), log4, memory1)
    end
    end end end end in
  match body with
  | (Ok r, _, _) => r
  | (Raise error_msg, log, memory1) =>
      let log' := log ++ [_log error_level TaskFailed (Some error_msg)] in
      ({| task_id := w_task_id w;
          status := error;
          instruction := instruction;
          results := [];
          error_message := Some error_msg;
          logs := log' |},
       fst (Memory.add_memory (w_draws_error w) memory1 instruction
              (Memory.ErrorResult error_msg) false (py "error")
              {[ py "task_id" := MStr (w_task_id w) ]}))
  end.
End WithBrowser.

End Orchestrator.

(** ** What a pattern can consume and capture *)

Module ReSpec.
Import Py Re.

Section Alphabet.
Context {R : Runtime} (P : char -> Prop).

(** every character [r] can consume satisfies [P] *)
Fixpoint consumes_only (r : regex) : Prop :=
  match r with
  | Eps => True
  | Chr c => P c
  | ChrI c => forall x, fold_eq c x = true -> P x
  | Digit => forall x, is_digit x = true -> P x
  | Space => forall x, is_space x = true -> P x
  | Alt a b | Seq a b => consumes_only a /\ consumes_only b
  | Opt a | Star a | Group a => consumes_only a
  end.

(** every group of [r] consumes characters of [P] only *)
Fixpoint groups_only (r : regex) : Prop :=
  match r with
  | Eps | Chr _ | ChrI _ | Digit | Space => True
  | Alt a b | Seq a b => groups_only a /\ groups_only b
  | Opt a | Star a => groups_only a
  | Group a => consumes_only a
  end.

(** [r] binds group 1 on every match *)
Fixpoint binds_group (r : regex) : bool :=
  match r with
  | Eps | Chr _ | ChrI _ | Digit | Space | Opt _ | Star _ => false
  | Alt a b => binds_group a && binds_group b
  | Seq a b => binds_group a || binds_group b
  | Group _ => true
  end.

(** a group value the match may leave: the one it found, unless [r]
    binds the group, or a token of [P] *)
Definition group_after (r : regex) (g g' : option pystr) : Prop :=
  (g' = g /\ binds_group r = false) \/
  (exists tok, g' = Some tok /\ Forall P tok).

Definition good_group (g : option pystr) : Prop :=
  exists tok, g = Some tok /\ Forall P tok.
End Alphabet.

End ReSpec.

(** ** Words of the statements about extractor.py *)

Module ExtractorSpec.
Import Py Re Extractor.

Section WithRuntime.
Context {R : Runtime}.

(** the characters of a numeric token: digits, comma, point *)
Definition price_char (c : char) : Prop :=
  is_digit c = true \/ c = 44%N \/ c = 46%N.

(** the number a record's price stands for, when it has one *)
Definition parsed_price (d : ExtractedData) : option pyfloat :=
  if truthy_str (price d) then price_value (default [] (price d)) else None.

(** a price within the bounds that are active *)
Definition within (max_price min_price : option Q) (v : pyfloat) : bool :=
  negb (truthy_num max_price && flt (Fin (default 0%Q max_price)) v) &&
  negb (truthy_num min_price && flt v (Fin (default 0%Q min_price))).

Definition kept (max_price min_price : option Q) (d : ExtractedData) : bool :=
  match parsed_price d with
  | Some v => within max_price min_price v
  | None => false
  end.

(** a URL with neither of the two schemes the normalizer knows *)
Definition scheme_less (url : pystr) : Prop :=
  starts_with (py "http://") url = false /\
  starts_with (py "https://") url = false.
End WithRuntime.

(** Records for the concrete evaluations: a title and, possibly, a
    price. *)
Definition record_of (t : string) (p : option pystr) : ExtractedData := {|
  title := Some (py t); price := p; url := None; description := None;
  rating := None; image_url := None;
  raw_data := {| f_text := None; f_attributes := None; f_other_keys := false |} |}.

Definition laptop_100 : ExtractedData := record_of "Laptop A" (Some (rupee :: py "100")).
Definition laptop_200 : ExtractedData := record_of "Laptop B" (Some (rupee :: py "200")).
Definition unpriced : ExtractedData := record_of "Laptop C" None.
Definition call_for_price : ExtractedData := record_of "Laptop D" (Some (py "call us")).

End ExtractorSpec.

(** ** Words of the statements about parser.py and planner.py *)

Module PlanSpec.
Import Py Parser Planner.

(** the task kinds of the design *)
Definition task_kinds : list pystr :=
  [py "search"; py "navigate"; py "extract"; py "fill_form"; py "click";
   py "screenshot"].

(** the task kinds for which [_get_default_actions] has a sequence *)
Definition kinds_with_actions : list pystr :=
  [py "search"; py "navigate"; py "extract"].

(** the task kinds the keyword fallback can choose *)
Definition fallback_kinds : list pystr :=
  [py "search"; py "navigate"; py "extract"; py "fill_form"].

(** a reply that names nothing but a task *)
Definition reply_with_task (t : pystr) : plan_data := {|
  pd_task := Some t; pd_query := None; pd_filters := None; pd_count := None;
  pd_fields := None; pd_target_url := None; pd_selectors := None;
  pd_actions := None |}.

(** a number that is at least [n]: an int, a finite float or +infinity *)
Definition at_least (n : Z) (v : pyval) : Prop :=
  match v with
  | VInt z => n <= z
  | VBool b => n <= Z.b2z b
  | VFloat q => (inject_Z n <= q)%Q
  | VInf negative => negative = false
  | VNaN | VNone | VStr _ | VList | VDict => False
  end.

(** the step has the retry budget and the timeout the hardening pass
    promises for its action *)
Definition hardened (s : Step) : Prop :=
  (action s ∈ [Some (py "click"); Some (py "fill"); Some (py "extract")] ->
     at_least 3 (retries s)) /\
  (action s = Some (py "goto") -> at_least 15 (timeout s)).

(** the same, but for a budget or a timeout that is NaN *)
Definition hardened_or_nan (s : Step) : Prop :=
  (action s ∈ [Some (py "click"); Some (py "fill"); Some (py "extract")] ->
     at_least 3 (retries s) \/ retries s = VNaN) /\
  (action s = Some (py "goto") -> at_least 15 (timeout s) \/ timeout s = VNaN).

(** no budget and no timeout of the intent's actions is NaN *)
Definition nan_free (parsed_instruction : ParsedInstruction) : Prop :=
  Forall (fun a => a_retries a <> Some VNaN /\ a_timeout a <> Some VNaN)
    (actions parsed_instruction).

(** an intent with one click action whose retry budget is NaN *)
Definition click_with_nan_budget : ParsedInstruction := {|
  task := py "click"; query := py "press the button"; filters := Some no_filters;
  count := 5; fields := Some [py "title"; py "url"];
  target_url := Some (py "https://www.example.com");
  selectors := ∅;
  actions := [ {| a_action := Some (Some (py "click")); a_selector := None; a_value := None;
                  a_url := None; a_timeout := None; a_multiple := None;
                  a_retries := Some VNaN; a_metadata := None |} ];
  raw_instruction := py "press the button" |}.

End PlanSpec.

(** ** Words of the statements about session_memory.py *)

Module MemorySpec.
Import Py Memory.

(** the timestamp of the entry is a naive datetime *)
Definition naive (mem : MemoryEntry) : Prop := is_aware (timestamp mem) = false.

(** a value [+= 1] accepts *)
Definition is_number (v : pyval) : bool :=
  match v with
  | VBool _ | VInt _ | VFloat _ | VInf _ | VNaN => true
  | VNone | VStr _ | VList | VDict => false
  end.

(** the counters that [add_memory] adds to, for a task that succeeded or
    one that did not, are numbers *)
Definition counts (success : bool) (self : SessionMemory) : Prop :=
  forall c, session_context self = Some c ->
    is_number (total_tasks c) = true /\
    is_number (if success then successful_tasks c else failed_tasks c) = true.

(** the entries of [memories] that are younger than the time-to-live at
    the time [now] *)
Definition fresh (now : Z) (memories : list MemoryEntry) : list MemoryEntry :=
  List.filter (fun mem => now - timedelta_days memory_ttl_days <? timestamp_micros mem)
    memories.

(** the entry [add_memory] builds *)
Definition entry_of (d : draws) (instruction : pystr) (result : result_t)
    (success : bool) (task_type : pystr) (metadata : gmap pystr Parser.meta)
    : MemoryEntry := {|
  id := memory_id d; instruction := instruction; result := result;
  timestamp := Naive (now_entry d); task_type := task_type; success := success;
  metadata := metadata |}.

(** a store that breaks both bounds: 101 entries from the epoch *)
Definition stale_entry : MemoryEntry := {|
  id := py "old"; instruction := py "search"; result := Records [];
  timestamp := Naive 0; task_type := py "search"; success := true;
  metadata := ∅ |}.

Definition stale_store : SessionMemory :=
  {| memories := replicate 101 stale_entry; session_context := None |}.




(** an insert eight days after the epoch *)
Definition late_draws : draws := {|
  memory_id := py "new"; now_entry := 691200000000;
  now_activity := 691200000000; now_cleanup := 691200000001 |}.

End MemorySpec.

(** ** Words of the statements about orchestrator.py *)

Module OrchSpec.
Import Py Extractor Parser Planner Orchestrator.

Section WithBrowser.
Context {R : Runtime} {Browser : Type}.
Context (browser_call : Browser -> Step -> exn ActionResult * Browser).

(** The exception that escapes to the top level of [execute], if one
    does: the one raised by the first of the memory lookup, the parser, the
    planner, the step loop and the task store that raises. *)
Definition escaped (w : world) (instruction : pystr) : option pystr :=
  match w_context w with
  | Raise e => Some e
  | Ok _ =>
      match parse (w_reply w) instruction with
      | Raise e => Some e
      | Ok parsed =>
          match plan parsed with
          | Raise e => Some e
          | Ok steps =>
              match _execute_steps browser_call (w_start w) steps parsed with
              | Raise e => Some e
              | Ok _ =>
                  match w_save w with
                  | Raise e => Some e
                  | Ok _ => None
                  end
              end
          end
      end
  end.

(** each of the next [n] attempts at the step raises: the step exhausts
    a retry budget of [n] *)
Fixpoint exhausts (n : nat) (browser : Browser) (step : Step) : bool :=
  match n with
  | O => true
  | S n' =>
      match attempt browser_call browser step with
      | (Raise _, browser') => exhausts n' browser' step
      | (Ok _, _) => false
      end
  end.
End WithBrowser.

(** the steps a log says were begun, by their number in the plan *)
Definition started (l : list log_entry) : list nat :=
  omap (fun e => match msg e with ExecutingStep i _ => Some i | _ => None end) l.

(** the log entries of a step that failed *)
Definition executing (i n : nat) : log_entry := _log info (ExecutingStep (i + 1) n) None.
Definition failed (i : nat) (r : ActionResult) : log_entry :=
  _log warning (StepFailed (i + 1)) (err r).
Definition critical_failed (i : nat) : log_entry :=
  _log error_level (CriticalStepFailed (i + 1)) None.

(** A browser without state whose every call raises, and one whose every
    call succeeds and extracts nothing. *)
Definition always_raises (b : unit) (s : Step) : exn ActionResult * unit :=
  (Raise (py "Timeout 30000ms exceeded"), b).

Definition always_ok (b : unit) (s : Step) : exn ActionResult * unit :=
  (Ok {| ok := true; data := NoData; err := None |}, b).

(** One whose every call fails the way the methods of [BrowserController]
    do: they catch the exception and return a result without success. *)
Definition always_fails (b : unit) (s : Step) : exn ActionResult * unit :=
  (Ok {| ok := false; data := NoData; err := Some (py "Timeout 30000ms exceeded") |},
   b).

Definition no_attr (it : item) (field : pystr) : option pystr := None.

Definition step_of (a : string) (r : Z) : Step := {|
  action := Some (py a); selector := None; value := None; url := None;
  timeout := VInt 10; multiple := false; retries := VInt r; metadata := ∅ |}.

Definition some_intent : ParsedInstruction := {|
  task := py "navigate"; query := py "open the page"; filters := Some no_filters;
  count := 5; fields := Some [py "title"; py "url"]; target_url := None;
  selectors := ∅; actions := []; raw_instruction := py "open the page" |}.

Definition some_draws : Memory.draws := {|
  Memory.memory_id := py "m1"; Memory.now_entry := 1000;
  Memory.now_activity := 1000; Memory.now_cleanup := 1000 |}.

Definition empty_memory : Memory.SessionMemory :=
  {| Memory.memories := []; Memory.session_context := None |}.

(** a run in which nothing goes wrong and the model asks for a
    navigation *)
Definition calm_world : world (Browser := unit) := {|
  w_task_id := py "t1";
  w_context := Ok tt;
  w_reply := Ok (PlanSpec.reply_with_task (py "navigate"));
  w_start := Ok tt;
  w_save := Ok tt;
  w_draws := some_draws;
  w_draws_error := some_draws |}.

End OrchSpec.

(** ** Words of further statements about extractor.py *)

Module ExtractorWords.
Import Py Re Extractor ExtractorSpec.

Section WithRuntime.
Context {R : Runtime}.

(** the characters of a rating token: digits and the point *)
Definition rating_char (c : char) : Prop :=
  is_digit c = true \/ c = 46%N.

(** the key [sort_by_price] gives an object *)
Definition price_key (reverse : bool) (d : ExtractedData) : pyfloat :=
  default (if reverse then PInf else Fin 0) (parsed_price d).

(** the key [sort_by_rating] gives an object *)
Definition rating_key (d : ExtractedData) : pyfloat :=
  if truthy_str (rating d) then default (Fin 0) (py_float (default [] (rating d)))
  else Fin 0.

(** every rating of the list is a text of digits and points *)
Definition plain_ratings (data : list ExtractedData) : Prop :=
  Forall (fun o => forall r, rating o = Some r -> Forall rating_char r) data.
End WithRuntime.

(** a record with a title and, possibly, a rating *)
Definition rated (t : string) (r : option pystr) : ExtractedData := {|
  title := Some (py t); price := None; url := None; description := None;
  rating := r; image_url := None;
  raw_data := {| f_text := None; f_attributes := None; f_other_keys := false |} |}.

(** the order of a sort: ascending, or descending with [reverse] *)
Definition in_order {A} (key : A -> pyfloat) (reverse : bool) (a b : A) : Prop :=
  if reverse then fle (key b) (key a) = true else fle (key a) (key b) = true.

(** [e] has a key equal to [k] *)
Definition key_is {A} (key : A -> pyfloat) (k : pyfloat) (e : A) : bool :=
  fle (key e) k && fle k (key e).

(** a URL that begins with one of the two schemes *)
Definition absolute (url : pystr) : Prop :=
  starts_with (py "http://") url = true \/ starts_with (py "https://") url = true.

(** the key fields [deduplicate] works with *)
Definition key_fields_of (key_fields : option (list pystr)) : list pystr :=
  match key_fields with
  | None | Some [] => [py "title"; py "url"]
  | Some kf => kf
  end.

(** A fragment with a text and a link, and one image without either. *)
Definition fragment_of (text : pystr) (href : string) : fragment := {|
  f_text := Some text;
  f_attributes := Some {[ py "href" := py href ]};
  f_other_keys := true |}.

Definition image_fragment : fragment := {|
  f_text := None;
  f_attributes := Some {[ py "src" := py "/img/1.png" ]};
  f_other_keys := false |}.

End ExtractorWords.

(** ** Words of further statements about parser.py and planner.py *)

Module PlanWords.
Import Py Parser Planner PlanSpec.

(** the steps [plan] starts from: the intent's actions, or the template
    of its task kind when it has none *)
Definition initial_steps (parsed_instruction : ParsedInstruction) : list Step :=
  match actions parsed_instruction with
  | [] => _generate_steps_from_template parsed_instruction
  | acts => _convert_actions_to_steps acts
  end.

(** a value on which [max] raises: it is not a number *)
Definition not_a_number (v : pyval) : bool :=
  match v with
  | VNone | VStr _ | VList | VDict => true
  | VBool _ | VInt _ | VFloat _ | VInf _ | VNaN => false
  end.

(** a step on which the hardening pass raises: a click, fill or extract
    step whose retry budget is not a number, or a goto step whose timeout is
    not one *)
Definition rejected_budget (s : Step) : bool :=
  (bool_decide (action s ∈ [Some (py "click"); Some (py "fill"); Some (py "extract")])
   && not_a_number (retries s))
  || (bool_decide (action s = Some (py "goto")) && not_a_number (timeout s)).

(** the actions of a plan after the hardening pass: a wait after every
    click and every fill *)
Definition with_waits (steps : list Step) : list (option pystr) :=
  steps ≫= (fun s =>
    if bool_decide (action s = Some (py "click")) || bool_decide (action s = Some (py "fill"))
    then [action s; Some (py "wait")] else [action s]).

(** an intent with one click action whose retry budget is null *)
Definition click_without_budget : ParsedInstruction := {|
  task := py "click"; query := py "press the button"; filters := Some no_filters;
  count := 5; fields := Some [py "title"; py "url"];
  target_url := Some (py "https://www.example.com");
  selectors := ∅;
  actions := [ {| a_action := Some (Some (py "click")); a_selector := None; a_value := None;
                  a_url := None; a_timeout := None; a_multiple := None;
                  a_retries := Some VNone; a_metadata := None |} ];
  raw_instruction := py "press the button" |}.

End PlanWords.

(** ** session_memory.py, the other operations *)

Module MemoryOps.
Import Py Memory.

(** [_initialize_session], with the identifier and the two readings of the
    clock it draws *)
Definition _initialize_session (id : pystr) (now_start now_activity : Z)
    : SessionContext := {|
  session_id := id; start_time := Naive now_start;
  last_activity := Naive now_activity;
  total_tasks := VInt 0; successful_tasks := VInt 0; failed_tasks := VInt 0 |}.

(** a new [SessionMemory] that loaded nothing from disk *)
Definition new_memory (id : pystr) (now_start now_activity : Z) : SessionMemory :=
  {| memories := [];
     session_context := Some (_initialize_session id now_start now_activity) |}.

(** [clear_memories] *)
Definition clear_memories (self : SessionMemory) : SessionMemory :=
  {| memories := [];
     session_context :=
       (fun c => {|
          session_id := session_id c; start_time := start_time c;
          last_activity := last_activity c;
          total_tasks := VInt 0; successful_tasks := VInt 0;
          failed_tasks := VInt 0 |})
       <$> session_context self |}.

(** [get_recent_memories]: the newest first, cut with [[:limit]] *)
Definition get_recent_memories (self : SessionMemory) (limit : Z)
    : exn (list MemoryEntry) :=
  bind (sorted_by_timestamp (memories self)) (fun newest_first =>
  Ok (Extractor.limit_results newest_first limit)).

(** [get_memories_by_type] *)
Definition get_memories_by_type (self : SessionMemory) (task_type : pystr)
    : list MemoryEntry :=
  List.filter (fun mem => bool_decide (Memory.task_type mem = task_type)) (memories self).

Section WithRuntime.
Context {R : Runtime}.

(** [s.split()]: the maximal runs of characters that are not white space;
    [cur] is the run being read, last character first *)
Fixpoint split_from (cur : pystr) (s : pystr) : list pystr :=
  match s with
  | [] => match cur with [] => [] | _ => [rev cur] end
  | c :: t =>
      if is_space c then
        match cur with
        | [] => split_from [] t
        | _ => rev cur :: split_from [] t
        end
      else split_from (c :: cur) t
  end.

Definition split (s : pystr) : list pystr := split_from [] s.

(** [set(s.lower().split())] *)
Definition words (s : pystr) : gset pystr := list_to_set (split (lower s)).

Definition zero_division : pystr := py "division by zero".

(** the Jaccard score of two word sets; the quotient of the two sizes is
    rounded to a float *)
Definition similarity (a b : gset pystr) : exn pyfloat :=
  if bool_decide (size (a ∪ b) = 0%nat) then Raise zero_division
  else Ok (to_float (Z.of_nat (size (a ∩ b)) # Pos.of_nat (size (a ∪ b)))).

(** [find_similar_memories] *)
Definition find_similar_memories (self : SessionMemory) (instruction : pystr)
    (limit : Z) : exn (list MemoryEntry) :=
  let instruction_words := words instruction in
  bind (mapM (fun mem =>
                bind (similarity instruction_words (words (Memory.instruction mem)))
                  (fun s => Ok (mem, s)))
          (memories self)) (fun scored_memories =>
  Ok (fst <$> List.filter (fun ms => flt (Fin 0) (snd ms))
                (Extractor.limit_results (sorted fle snd true scored_memories) limit))).

(** [get_context_for_instruction], as far as it can raise: the similar
    tasks are looked up first, then the recent ones, and nothing after them
    raises *)
Definition get_context_for_instruction (self : SessionMemory) (instruction : pystr)
    : exn unit :=
  bind (find_similar_memories self instruction 3) (fun _ =>
  bind (get_recent_memories self 5) (fun _ => Ok tt)).
End WithRuntime.

(** The calls that change a memory, and a run of them. *)
Inductive call :=
| AddMemory (d : draws) (instruction : pystr) (result : result_t) (success : bool)
    (task_type : pystr) (metadata : gmap pystr Parser.meta)
| ClearMemories.

Definition do_call (self : SessionMemory) (c : call) : SessionMemory :=
  match c with
  | AddMemory d instruction result success task_type metadata =>
      fst (add_memory d self instruction result success task_type metadata)
  | ClearMemories => clear_memories self
  end.

Definition do_calls (self : SessionMemory) (calls : list call) : SessionMemory :=
  foldl do_call self calls.

(** a text without a word: white space only *)
Definition blank `{Runtime} (s : pystr) : Prop :=
  Forall (fun c => is_space c = true) (lower s).

End MemoryOps.

(** ** Words of further statements about orchestrator.py *)

Module OrchWords.
Import Py Extractor Parser Planner Orchestrator OrchSpec ExtractorSpec ExtractorWords.

(** one of the dictionaries [to_dict()] makes *)
Definition is_dict (it : item) : bool :=
  match it with Dict _ => true | Obj _ => false end.

(** the filters ask for one of the two sorts *)
Definition sorting (filters : option filters_t) : Prop :=
  exists f, filters = Some f /\
            (sort f = Some (py "rating") \/ sort f = Some (py "price")).

(** What the step loop can gather under the filters: records that passed
    the price test of their step, and none at all when a sort is asked for or
    the filters are null. *)
Definition gathered `{Runtime} (filters : option filters_t)
    (ds : list ExtractedData) : Prop :=
  (forall f, filters = Some f ->
     Forall (fun d => under_price_max (price_max f) d = Ok true) ds) /\
  (sorting filters -> ds = []) /\
  (filters = None -> ds = []).

(** A shop: every call succeeds, and an extract hands back two products. *)
Definition shop_call (b : unit) (s : Step) : exn ActionResult * unit :=
  (Ok {| ok := true;
         data := if bool_decide (action s = Some (py "extract"))
                 then Many [fragment_of (py "Laptop B Rs. 200 3.9 stars") "/b";
                            fragment_of (py "Laptop A Rs. 100 4.5 stars") "/a"]
                 else NoData;
         err := None |}, b).

(** a reply that asks for a search sorted by rating *)
Definition sorting_reply : plan_data := {|
  pd_task := Some (py "search"); pd_query := Some (py "laptops");
  pd_filters := Some (Some {| price_max := None; price_min := None;
                              sort := Some (py "rating") |});
  pd_count := None; pd_fields := None; pd_target_url := None;
  pd_selectors := None; pd_actions := None |}.

(** a reply that asks for a search with a price bound *)
Definition priced_reply : plan_data := {|
  pd_task := Some (py "search"); pd_query := Some (py "laptops");
  pd_filters := Some (Some {| price_max := Some 150%Q; price_min := None;
                              sort := None |});
  pd_count := None; pd_fields := None; pd_target_url := None;
  pd_selectors := None; pd_actions := None |}.

(** a run in which the collaborators do their part, for a given reply and
    a given outcome of the memory lookup *)
Definition world_of (context : exn unit) (reply : plan_data)
    : world (Browser := unit) := {|
  w_task_id := py "t1";
  w_context := context;
  w_reply := Ok reply;
  w_start := Ok tt;
  w_save := Ok tt;
  w_draws := some_draws;
  w_draws_error := some_draws |}.

(** a memory that holds one task whose instruction was the empty text *)
Definition blank_store : Memory.SessionMemory := {|
  Memory.memories := [MemorySpec.entry_of some_draws [] (Memory.Records []) false
                        (py "search") ∅];
  Memory.session_context := None |}.

End OrchWords.

(** ** llm_adapter.py *)

Module Llm.
Import Py.

Section Manager.
(** The adapters are objects of the adapter classes.  What their two
    methods do depends on the models and the servers behind them: the
    state [World].  [is_available] returns a truth value, as the three
    adapters do; [generate] returns a response or raises. *)
Context {Adapter World Response : Type}.
Context (is_available : Adapter -> World -> bool * World).
Context (adapter_generate : Adapter -> pystr -> World -> exn Response * World).

Record LLMManager := {
  primary_adapter : Adapter;
  fallback_adapters : list Adapter;
  current_adapter : Adapter
}.

(** [LLMManager.__init__] *)
Definition new_manager (primary : Adapter) (fallbacks : list Adapter) : LLMManager :=
  {| primary_adapter := primary;
     fallback_adapters := fallbacks;
     current_adapter := primary |}.

(** the loop of [generate] over [adapters_to_try]: the adapter that
    answered and its response, or nothing when the list is used up *)
Fixpoint try_adapters (adapters : list Adapter) (prompt : pystr) (w : World)
    : option (Adapter * Response) * World :=
  match adapters with
  | [] => (None, w)
  | adapter :: rest =>
      let '(available, w1) := is_available adapter w in
      if negb available then try_adapters rest prompt w1
      else
        match adapter_generate adapter prompt w1 with
        | (Ok response, w2) => (Some (adapter, response), w2)
        | (Raise _, w2) => try_adapters rest prompt w2
        end
  end.

Definition all_failed : pystr := py "All LLM adapters failed".

(** [LLMManager.generate] *)
Definition generate (self : LLMManager) (prompt : pystr) (w : World)
    : exn Response * LLMManager * World :=
  match try_adapters (current_adapter self :: fallback_adapters self) prompt w with
  | (Some (adapter, response), w') =>
      (Ok response,
       {| primary_adapter := primary_adapter self;
          fallback_adapters := fallback_adapters self;
          current_adapter := adapter |},
       w')
  | (None, w') => (Raise all_failed, self, w')
  end.

(** A run of [generate] calls on one manager. *)
Fixpoint generate_all (self : LLMManager) (prompts : list pystr) (w : World)
    : list (exn Response) * LLMManager * World :=
  match prompts with
  | [] => ([], self, w)
  | prompt :: rest =>
      let '(r, self1, w1) := generate self prompt w in
      let '(rs, self2, w2) := generate_all self1 rest w1 in
      (r :: rs, self2, w2)
  end.
End Manager.

End Llm.

(** * Properties *)

(** ** The matcher *)

Module ReFacts.
Import Py Re ReSpec.

Section Facts.
Context {R : Runtime} (P : char -> Prop).

Lemma take_consumed (pre s' : pystr) :
  take (length (pre ++ s') - length s') (pre ++ s') = pre.
Proof.
  rewrite length_app.
  replace (length pre + length s' - length s')%nat with (length pre) by lia.
  by rewrite take_app_length.
Qed.

(** What a successful match consumed is a prefix of the text made of
    characters the pattern admits. *)
Lemma rmatch_consumes {A} (r : regex) :
  consumes_only P r ->
  forall (s : pystr) g (k : pystr -> option pystr -> option A) v,
    rmatch r s g k = Some v ->
    exists pre s' g', s = pre ++ s' /\ Forall P pre /\ k s' g' = Some v.
Proof.
  induction r as [|c|c| | |a IHa b IHb|a IHa b IHb|a IHa|a IHa|a IHa];
    simpl; intros HP s g k v Hm.
  - by exists [], s, g.
  - destruct s as [|x t]; [done|].
    destruct (N.eqb_spec c x) as [->|]; [|done].
    exists [x], t, g. repeat split; auto.
  - destruct s as [|x t]; [done|].
    destruct (fold_eq c x) eqn:E; [|done].
    exists [x], t, g. repeat split; auto.
  - destruct s as [|x t]; [done|].
    destruct (is_digit x) eqn:E; [|done].
    exists [x], t, g. repeat split; auto.
  - destruct s as [|x t]; [done|].
    destruct (is_space x) eqn:E; [|done].
    exists [x], t, g. repeat split; auto.
  - destruct HP as [Ha Hb].
    destruct (rmatch a s g k) eqn:E.
    + inversion Hm; subst. eauto.
    + eauto.
  - destruct HP as [Ha Hb].
    destruct (IHa Ha _ _ _ _ Hm) as (p1 & s1 & g1 & -> & H1 & Hk).
    destruct (IHb Hb _ _ _ _ Hk) as (p2 & s2 & g2 & -> & H2 & Hk2).
    exists (p1 ++ p2), s2, g2. rewrite <- app_assoc. repeat split; auto.
    by apply Forall_app.
  - destruct (rmatch a s g k) eqn:E.
    + inversion Hm; subst. eauto.
    + by exists [], s, g.
  - revert Hm. generalize (length s) at 1. intros n. revert s g.
    induction n as [|n IHn]; intros s g Hm.
    + by exists [], s, g.
    + destruct (rmatch a s g _) eqn:E.
      * inversion Hm; subst.
        destruct (IHa HP _ _ _ _ E) as (p1 & s1 & g1 & -> & H1 & Hk).
        destruct (_ <? _)%nat; [|done].
        destruct (IHn _ _ Hk) as (p2 & s2 & g2 & -> & H2 & Hk2).
        exists (p1 ++ p2), s2, g2. rewrite <- app_assoc. repeat split; auto.
        by apply Forall_app.
      * by exists [], s, g.
  - destruct (IHa HP _ _ _ _ Hm) as (p1 & s1 & g1 & -> & H1 & Hk).
    eexists p1, s1, _. eauto.
Qed.

Lemma group_after_seq (a b : regex) g g1 g2 :
  group_after P a g g1 -> group_after P b g1 g2 ->
  group_after P (Seq a b) g g2.
Proof.
  intros [[-> Ha]|Ha] [[-> Hb]|Hb]; unfold group_after; simpl.
  - left. by rewrite Ha, Hb.
  - by right.
  - by right.
  - by right.
Qed.

Lemma group_after_star (a : regex) g g1 g2 :
  group_after P a g g1 -> group_after P (Star a) g1 g2 ->
  group_after P (Star a) g g2.
Proof.
  intros [[-> Ha]|Ha] [[-> Hb]|Hb]; unfold group_after; simpl.
  - by left.
  - by right.
  - by right.
  - by right.
Qed.

(** The group after a successful match. *)
Lemma rmatch_group {A} (r : regex) :
  groups_only P r ->
  forall (s : pystr) g (k : pystr -> option pystr -> option A) v,
    rmatch r s g k = Some v ->
    exists s' g', k s' g' = Some v /\ group_after P r g g'.
Proof.
  induction r as [|c|c| | |a IHa b IHb|a IHa b IHb|a IHa|a IHa|a IHa];
    simpl; intros HP s g k v Hm.
  - exists s, g. split; [done|by left].
  - destruct s as [|x t]; [done|].
    destruct (c =? x)%N; [|done]. exists t, g. split; [done|by left].
  - destruct s as [|x t]; [done|].
    destruct (fold_eq c x); [|done]. exists t, g. split; [done|by left].
  - destruct s as [|x t]; [done|].
    destruct (is_digit x); [|done]. exists t, g. split; [done|by left].
  - destruct s as [|x t]; [done|].
    destruct (is_space x); [|done]. exists t, g. split; [done|by left].
  - destruct HP as [Ha Hb].
    destruct (rmatch a s g k) eqn:E.
    + inversion Hm; subst.
      destruct (IHa Ha _ _ _ _ E) as (s1 & g1 & Hk & [[-> Hg]|Hg]).
      * exists s1, g. split; [done|]. left. simpl. by rewrite Hg.
      * exists s1, g1. split; [done|by right].
    + destruct (IHb Hb _ _ _ _ Hm) as (s1 & g1 & Hk & [[-> Hg]|Hg]).
      * exists s1, g. split; [done|]. left. simpl. by rewrite Hg, andb_false_r.
      * exists s1, g1. split; [done|by right].
  - destruct HP as [Ha Hb].
    destruct (IHa Ha _ _ _ _ Hm) as (s1 & g1 & Hk & Hg1).
    destruct (IHb Hb _ _ _ _ Hk) as (s2 & g2 & Hk2 & Hg2).
    exists s2, g2. split; [done|]. by eapply group_after_seq.
  - destruct (rmatch a s g k) eqn:E.
    + inversion Hm; subst.
      destruct (IHa HP _ _ _ _ E) as (s1 & g1 & Hk & [[-> Hg]|Hg]).
      * exists s1, g. split; [done|by left].
      * exists s1, g1. split; [done|by right].
    + exists s, g. split; [done|by left].
  - revert Hm. generalize (length s) at 1. intros n. revert s g.
    induction n as [|n IHn]; intros s g Hm.
    + exists s, g. split; [done|by left].
    + destruct (rmatch a s g _) eqn:E.
      * inversion Hm; subst.
        destruct (IHa HP _ _ _ _ E) as (s1 & g1 & Hk & Hg1).
        destruct (_ <? _)%nat; [|done].
        destruct (IHn _ _ Hk) as (s2 & g2 & Hk2 & Hg2).
        exists s2, g2. split; [done|]. by eapply group_after_star.
      * exists s, g. split; [done|by left].
  - destruct (rmatch_consumes a HP _ _ _ _ Hm) as (p1 & s1 & g1 & -> & H1 & Hk).
    rewrite take_consumed in Hk.
    exists s1, (Some p1). split; [done|]. right. by exists p1.
Qed.

(** [re.search] with a pattern that always binds its group returns a
    token of the group's alphabet. *)
Lemma search_group (r : regex) (s : pystr) m :
  groups_only P r -> binds_group r = true ->
  search r s = Some m -> good_group P m.
Proof.
  intros HP Hb. induction s as [|x t IH]; simpl.
  - destruct (rmatch r [] None _) eqn:E; [|done].
    intros [= <-].
    destruct (rmatch_group r HP _ _ _ _ E) as (s1 & g1 & [= <-] & [[_ Hg]|Hg]);
      [congruence|done].
  - destruct (rmatch r (x :: t) None _) eqn:E; [|done].
    intros [= <-].
    destruct (rmatch_group r HP _ _ _ _ E) as (s1 & g1 & [= <-] & [[_ Hg]|Hg]);
      [congruence|done].
Qed.

(** A needle that begins outside [P] does not occur in a text of
    [P]. *)
Lemma contains_outside (c : char) (needle hay : pystr) :
  ~ P c -> Forall P hay -> contains (c :: needle) hay = false.
Proof.
  intros Hc. induction 1 as [|x t Hx Ht IH]; simpl; [done|].
  rewrite IH, orb_false_r.
  destruct (N.eqb_spec c x) as [->|]; [done|done].
Qed.
End Facts.

End ReFacts.

(** ** extractor.py *)

Module ExtractorFacts.
Import Py Re ReSpec ReFacts Extractor ExtractorSpec.

Section WithRuntime.
Context {R : Runtime}.

Lemma number_token_chars : consumes_only price_char number_token.
Proof.
  unfold price_char. simpl. repeat split; auto.
Qed.

Lemma price_patterns_groups :
  Forall (fun q => groups_only price_char q /\ binds_group q = true)
    price_patterns.
Proof.
  pose proof number_token_chars as H.
  unfold price_patterns.
  repeat (apply Forall_cons; split; [split; [cbn -[consumes_only]; tauto|done]|]).
  constructor.
Qed.

Lemma rupee_not_price_char : ~ price_char rupee.
Proof.
  intros [H|[H|H]]; [|done|done].
  by rewrite is_digit_rupee in H.
Qed.

Lemma letter_not_price_char (c : char) :
  (57 < c < 128)%N -> ~ price_char c.
Proof.
  intros Hc [H|[H|H]]; [|lia|lia].
  rewrite is_digit_ascii in H by lia.
  apply andb_true_iff in H as [_ H]. apply N.leb_le in H. lia.
Qed.

Lemma token_has_no_marker (tok : pystr) :
  Forall price_char tok ->
  existsb (fun symbol => contains symbol tok) [[rupee]; py "Rs"; py "INR"] = false.
Proof.
  intros H. simpl.
  rewrite (contains_outside price_char rupee [] tok rupee_not_price_char H).
  change (py "Rs") with [82; 115]%N.
  change (py "INR") with [73; 78; 82]%N.
  rewrite (contains_outside price_char 82%N _ tok) by (auto using letter_not_price_char with lia).
  rewrite (contains_outside price_char 73%N _ tok) by (auto using letter_not_price_char with lia).
  done.
Qed.

Lemma first_price_spec (patterns : list regex) (text p : pystr) :
  Forall (fun q => groups_only price_char q /\ binds_group q = true) patterns ->
  first_price patterns text = Some p ->
  exists skipped pattern rest tok,
    patterns = skipped ++ pattern :: rest /\
    Forall (fun q => search q text = None) skipped /\
    search pattern text = Some (Some tok) /\
    Forall price_char tok /\
    p = rupee :: tok.
Proof.
  induction 1 as [|q rest [Hg Hb] Hrest IH]; cbn [first_price]; [done|].
  destruct (search q text) as [m|] eqn:E.
  - destruct (search_group price_char q text m Hg Hb E) as (tok & -> & Htok).
    cbv zeta. change (default [] (Some tok)) with tok.
    rewrite (token_has_no_marker tok Htok). cbn [negb].
    intros [= <-]. by exists [], q, rest, tok.
  - intros Hp. destruct (IH Hp) as (sk & pat & rs & tok & -> & Hsk & Hs & Htok & ->).
    exists (q :: sk), pat, rs, tok. repeat split; auto.
Qed.

(** C10. Whenever price extraction returns a value, the value is the rupee
    sign followed by the numeric token captured by the first pattern that
    matches the text.  The token holds digits, commas and points only, so
    none of the markers the symbol test looks for ('₹', 'Rs', 'INR') is in
    it and no marker of the text reaches the output. *)
Theorem extract_price_is_rupee_token (text p : pystr) :
  _extract_price text = Some p ->
  exists skipped pattern rest tok,
    price_patterns = skipped ++ pattern :: rest /\
    Forall (fun q => search q text = None) skipped /\
    search pattern text = Some (Some tok) /\
    Forall price_char tok /\
    p = rupee :: tok /\
    existsb (fun marker => contains marker tok) [[rupee]; py "Rs"; py "INR"] = false.
Proof.
  unfold _extract_price. destruct text as [|c text]; [done|].
  intros Hp.
  destruct (first_price_spec _ _ _ price_patterns_groups Hp)
    as (sk & pat & rs & tok & Heq & Hsk & Hs & Htok & ->).
  exists sk, pat, rs, tok. repeat split; auto using token_has_no_marker.
Qed.

(** [deduplicate] run again from the same set of seen keys changes
    nothing. *)
Lemma dedup_loop_idempotent (other_attr : item -> pystr -> option pystr)
    (key_fields : list pystr)
    (seen : gset pystr) (data : list item) :
  dedup_loop other_attr key_fields seen
    (dedup_loop other_attr key_fields seen data)
  = dedup_loop other_attr key_fields seen data.
Proof.
  revert seen. induction data as [|it rest IH]; intros seen; [done|].
  cbn [dedup_loop]. cbv zeta.
  destruct (decide (item_key other_attr key_fields it ∈ seen)) as [Hin|Hout].
  - apply IH.
  - cbn [dedup_loop]. cbv zeta.
    destruct (decide (item_key other_attr key_fields it ∈ seen)); [done|].
    f_equal. apply IH.
Qed.

(** C5. Deduplication is idempotent, for every list of records and every
    choice of key fields, the default included. *)
Theorem deduplicate_idempotent (other_attr : item -> pystr -> option pystr)
    (data : list item)
    (key_fields : option (list pystr)) :
  deduplicate other_attr (deduplicate other_attr data key_fields) key_fields
  = deduplicate other_attr data key_fields.
Proof.
  unfold deduplicate. apply dedup_loop_idempotent.
Qed.

(** C9. A URL without one of the two schemes is made absolute from its own
    text alone: "https:" goes before a protocol-relative URL, the fixed host
    "https://example.com" before a root-relative one, and "https://" before
    any other.  The page the URL came from is not an argument. *)
Theorem normalize_url_scheme_less (url : pystr) :
  url <> [] ->
  scheme_less url ->
  (starts_with (py "//") url = true ->
     _normalize_url url = py "https:" ++ url) /\
  (starts_with (py "/") url = true -> starts_with (py "//") url = false ->
     _normalize_url url = py "https://example.com" ++ url) /\
  (starts_with (py "/") url = false ->
     _normalize_url url = py "https://" ++ url).
Proof.
  intros Hne [H1 H2]. unfold _normalize_url.
  destruct url as [|c t]; [done|].
  rewrite H1, H2. cbn [orb negb].
  repeat split.
  - by intros ->.
  - by intros -> ->.
  - intros H. destruct (starts_with (py "//") (c :: t)) eqn:E; [|by rewrite H].
    exfalso. revert E H. cbn. destruct (_ =? _)%N; [|done]. done.
Qed.

Lemma keep_price_obj (max_price min_price : option Q) (d : ExtractedData) :
  keep_price max_price min_price (Obj d) = Ok (kept max_price min_price d).
Proof.
  unfold keep_price, kept, parsed_price, within. cbn [attr_price bind].
  destruct (truthy_str (price d)); cbn [negb]; [|done].
  destruct (price_value _) as [v|]; [|done].
  destruct (truthy_num max_price && _); [done|].
  by destruct (truthy_num min_price && _).
Qed.

Lemma filter_items_obj (max_price min_price : option Q) (data : list ExtractedData) :
  filter_items max_price min_price (Obj <$> data)
  = Ok (Obj <$> List.filter (kept max_price min_price) data).
Proof.
  induction data as [|d rest IH]; [done|].
  cbn [fmap list_fmap filter_items List.filter].
  change (list_fmap _ _ Obj rest) with (Obj <$> rest).
  rewrite keep_price_obj, IH. cbn [bind].
  by destruct (kept max_price min_price d).
Qed.

Lemma filter_sublist {A} (f g : A -> bool) (l : list A) :
  (forall x, f x = true -> g x = true) ->
  sublist (List.filter f l) (List.filter g l).
Proof.
  intros Hfg. induction l as [|x t IH]; cbn [List.filter]; [constructor|].
  destruct (f x) eqn:Ef.
  - rewrite (Hfg x Ef). by constructor.
  - destruct (g x); [by constructor|done].
Qed.

Lemma filter_sublist_self {A} (f : A -> bool) (l : list A) :
  sublist (List.filter f l) l.
Proof.
  induction l as [|x t IH]; cbn [List.filter]; [constructor|].
  destruct (f x); by constructor.
Qed.

Lemma truthy_num_Some (q : Q) : truthy_num (Some q) = true <-> ~ (q == 0)%Q.
Proof.
  unfold truthy_num. rewrite negb_true_iff.
  split.
  - intros H Hq. apply Qeq_bool_iff in Hq. congruence.
  - intros H. destruct (Qeq_bool q 0) eqn:E; [|done].
    apply Qeq_bool_iff in E. done.
Qed.

(** Under a looser maximum every price a tighter, active maximum admits is
    admitted. *)
Lemma kept_monotone (m1 m2 : Q) (min_price : option Q) (d : ExtractedData) :
  (m2 <= m1)%Q -> truthy_num (Some m2) = true ->
  kept (Some m2) min_price d = true -> kept (Some m1) min_price d = true.
Proof.
  intros Hle Hm2. unfold kept. destruct (parsed_price d) as [v|]; [|done].
  unfold within. rewrite Hm2. cbn [andb default from_option id].
  rewrite !andb_true_iff, !negb_true_iff. intros [Hv Hmin]. split; [|done].
  apply andb_false_iff. right.
  unfold flt in *. apply negb_false_iff in Hv. apply negb_false_iff.
  destruct v as [q|]; [|done]. cbn [fle] in *.
  apply Qle_bool_iff in Hv. apply Qle_bool_iff. by apply (Qle_trans _ m2).
Qed.

(** C6, as far as it holds.  When the tighter maximum is active (not
    zero), what it keeps is a sublist of what any looser maximum keeps, so
    it never yields more records; whenever a bound is active every record
    of the result has a price that parses; and with no bound active (each
    absent or zero) any list, of objects or of dictionaries, is returned
    unchanged. *)
Theorem filter_by_price_monotone (data : list ExtractedData) (m1 m2 : Q)
    (min_price : option Q) :
  (m2 <= m1)%Q ->
  ~ (m2 == 0)%Q ->
  (exists r1 r2,
     filter_by_price (Obj <$> data) (Some m1) min_price = Ok (Obj <$> r1) /\
     filter_by_price (Obj <$> data) (Some m2) min_price = Ok (Obj <$> r2) /\
     sublist r2 r1 /\ (length r2 <= length r1)%nat) /\
  (forall hi lo, truthy_num hi || truthy_num lo = true ->
     exists r,
       filter_by_price (Obj <$> data) hi lo = Ok (Obj <$> r) /\
       Forall (fun d => is_Some (parsed_price d)) r) /\
  (forall (items : list item) hi lo,
     truthy_num hi = false -> truthy_num lo = false ->
     filter_by_price items hi lo = Ok items).
Proof.
  intros Hle Hm2. apply truthy_num_Some in Hm2.
  split; [|split; [|by intros items hi lo Hhi Hlo; unfold filter_by_price;
                       rewrite Hhi, Hlo]].
  - assert (Hsub : exists r1,
               filter_by_price (Obj <$> data) (Some m1) min_price = Ok (Obj <$> r1) /\
               sublist (List.filter (kept (Some m2) min_price) data) r1).
    { unfold filter_by_price.
      destruct (negb (truthy_num (Some m1)) && negb (truthy_num min_price)).
      - exists data. split; [done|]. apply filter_sublist_self.
      - eexists. split; [apply filter_items_obj|].
        apply filter_sublist. intros d. by apply kept_monotone. }
    destruct Hsub as (r1 & Hr1 & Hsub).
    exists r1, (List.filter (kept (Some m2) min_price) data).
    repeat split; [done| |done|by apply sublist_length].
    unfold filter_by_price. rewrite Hm2. cbn [negb andb].
    apply filter_items_obj.
  - intros hi lo Hact. exists (List.filter (kept hi lo) data). split.
    + unfold filter_by_price.
      destruct (truthy_num hi), (truthy_num lo); try done; apply filter_items_obj.
    + apply Forall_forall. intros d Hd. apply list_elem_of_In, filter_In in Hd as [_ Hd].
      unfold kept in Hd. by destruct (parsed_price d).
Qed.
End WithRuntime.

Section OnAscii.
#[local] Existing Instance ascii_runtime.

(** The matcher gives back characters as [re] does: the token before
    "rupee" is the one the suffix can follow. *)
Example extract_price_backtracks :
  _extract_price (py "12.34.56rupee") = Some (rupee :: py "34.56") /\
  _extract_price (py "x  99,00,22.383 rupees") = Some (rupee :: py "383") /\
  _extract_price (py "1INR 77,056 Rupees only") = Some (rupee :: py "77,056") /\
  _extract_price (py "free delivery") = None.
Proof. repeat split; reflexivity. Qed.

Example price_value_first_token :
  price_value (rupee :: py "1,234.50 (was 2,000)") = Some (Fin (123450 # 100)).
Proof. reflexivity. Qed.

(** C6, as stated, fails at the bound zero: zero counts as no bound, so the
    tighter bound 0 keeps the record that the looser bound 50 drops. *)
Lemma filter_by_price_zero_bound :
  (0 <= 50)%Q /\
  filter_by_price [Obj laptop_100] (Some 50%Q) None = Ok [] /\
  filter_by_price [Obj laptop_100] (Some 0%Q) None = Ok [Obj laptop_100].
Proof.
  split; [done|]. split; reflexivity.
Qed.

Lemma filter_by_price_monotone_witness :
  exists r1 r2,
    filter_by_price (Obj <$> [laptop_100; laptop_200; unpriced]) (Some 250%Q) None
      = Ok (Obj <$> r1) /\
    filter_by_price (Obj <$> [laptop_100; laptop_200; unpriced]) (Some 150%Q) None
      = Ok (Obj <$> r2) /\
    sublist r2 r1 /\ (length r2 <= length r1)%nat.
Proof.
  assert (H1 : (150 <= 250)%Q) by done.
  assert (H2 : ~ (150 == 0)%Q) by done.
  exact (proj1 (filter_by_price_monotone [laptop_100; laptop_200; unpriced]
                  250%Q 150%Q None H1 H2)).
Defined.

(** C7 at its failing input.  In the ascending order the orchestrator asks
    for, a record without a price, or with one that does not parse, has the
    key 0.0 and not infinity, and comes first in the result. *)
Theorem sort_by_price_unpriced_first :
  get_price_value false (Obj unpriced) = Ok (Fin 0) /\
  get_price_value false (Obj call_for_price) = Ok (Fin 0) /\
  sort_by_price [Obj laptop_200; Obj unpriced; Obj laptop_100; Obj call_for_price] false
  = Ok [Obj unpriced; Obj call_for_price; Obj laptop_100; Obj laptop_200].
Proof.
  repeat split; reflexivity.
Qed.

Lemma extract_price_is_rupee_token_witness :
  _extract_price (py "Price: Rs. 1,234 only") = Some (rupee :: py "1,234") /\
  exists skipped pattern rest tok,
    price_patterns = skipped ++ pattern :: rest /\
    Forall (fun q => search q (py "Price: Rs. 1,234 only") = None) skipped /\
    search pattern (py "Price: Rs. 1,234 only") = Some (Some tok) /\
    Forall price_char tok /\
    rupee :: py "1,234" = rupee :: tok /\
    existsb (fun marker => contains marker tok) [[rupee]; py "Rs"; py "INR"] = false.
Proof.
  split; [reflexivity|].
  apply (extract_price_is_rupee_token (py "Price: Rs. 1,234 only")).
  reflexivity.
Defined.

Lemma normalize_url_scheme_less_witness :
  _normalize_url (py "/product/123") = py "https://example.com/product/123".
Proof.
  assert (Hne : py "/product/123" <> []) by discriminate.
  assert (Hs : scheme_less (py "/product/123")) by (split; reflexivity).
  destruct (normalize_url_scheme_less (py "/product/123") Hne Hs) as (_ & H & _).
  apply H; reflexivity.
Defined.
End OnAscii.

End ExtractorFacts.

(** ** parser.py *)

Module ParserFacts.
Import Py Parser PlanSpec.

Lemma default_selectors_nonempty (task : pystr) :
  _get_default_selectors task <> ∅.
Proof.
  assert (H : forall m : gmap pystr pystr, m <> ∅ -> Some <$> m <> ∅).
  { intros m Hm Hf. by apply fmap_empty_inv in Hf. }
  assert (H' : forall (m : gmap pystr pystr) k, is_Some (m !! k) -> m <> ∅).
  { intros m k [v Hv] ->. by rewrite lookup_empty in Hv. }
  unfold _get_default_selectors. apply H.
  repeat destruct (decide _); try (apply (H' _ (py "title")); by eexists).
  apply (H' _ (py "navigation")). by eexists.
Qed.

Lemma default_actions_nonempty (parsed : ParsedInstruction) :
  task parsed ∈ kinds_with_actions -> _get_default_actions parsed <> [].
Proof.
  unfold kinds_with_actions, _get_default_actions. rewrite !elem_of_cons.
  intros [H|[H|[H|H]]].
  - by rewrite (decide_True _ _ H).
  - repeat destruct (decide _); done.
  - repeat destruct (decide _); done.
  - by apply elem_of_nil in H.
Qed.

Lemma validate_and_enhance_shape (parsed : ParsedInstruction) :
  selectors (_validate_and_enhance parsed) <> ∅ /\
  (task (_validate_and_enhance parsed) ∈ kinds_with_actions ->
   actions (_validate_and_enhance parsed) <> []).
Proof.
  unfold _validate_and_enhance. cbn [selectors task actions]. split.
  - destruct (decide (selectors parsed = ∅)); [|done].
    apply default_selectors_nonempty.
  - intros Hk. destruct (actions parsed) as [|a acts]; [|done].
    by apply default_actions_nonempty.
Qed.

Section WithRuntime.
Context {R : Runtime}.

Lemma fallback_task_kind (instruction : pystr) :
  fallback_task instruction ∈ fallback_kinds.
Proof.
  unfold fallback_task, fallback_kinds.
  repeat (destruct (_ : bool); [set_solver|]). set_solver.
Qed.

(** C2, as far as it holds.  [parse] never raises: when the body of its
    [try] fails it returns the fallback intent.  The intent it returns
    always has selectors, and it has actions whenever its task kind is one of
    search, navigate and extract; on the fallback the task kind is one of
    search, navigate, extract and fill_form, chosen by the keywords of the
    instruction; on the model path it is the task the reply names, whatever
    it is, and search when the reply names none or an empty one. *)
Theorem parse_never_raises (reply : exn plan_data) (instruction : pystr) :
  exists parsed,
    parse reply instruction = Ok parsed /\
    selectors parsed <> ∅ /\
    (task parsed ∈ kinds_with_actions -> actions parsed <> []) /\
    (forall e, reply = Raise e ->
       _create_fallback_instruction instruction = Ok parsed /\
       task parsed = fallback_task instruction /\
       task parsed ∈ fallback_kinds) /\
    (forall plan_data, reply = Ok plan_data ->
       task parsed = (if truthy_str (pd_task plan_data)
                      then default [] (pd_task plan_data)
                      else py "search") /\
       task parsed <> []).
Proof.
  destruct reply as [plan_data|e]; cbn [parse bind].
  - eexists. split; [done|].
    destruct (validate_and_enhance_shape {|
      task := default (py "search") (pd_task plan_data);
      query := default instruction (pd_query plan_data);
      filters := default (Some no_filters) (pd_filters plan_data);
      count := default 5 (pd_count plan_data);
      fields := default (Some [py "title"; py "url"]) (pd_fields plan_data);
      target_url := pd_target_url plan_data;
      selectors := default ∅ (pd_selectors plan_data);
      actions := default [] (pd_actions plan_data);
      raw_instruction := instruction |}) as [Hs Ha].
    split; [done|]. split; [done|]. split; [done|].
    intros pd [= <-]. unfold _validate_and_enhance. cbn [task].
    by destruct (pd_task plan_data) as [[|c t]|].
  - unfold _create_fallback_instruction. eexists. split; [done|].
    cbn [selectors task actions]. split; [|split; [|split]].
    + apply default_selectors_nonempty.
    + intros Hk. apply default_actions_nonempty. exact Hk.
    + intros e' _. split; [done|]. split; [done|]. apply fallback_task_kind.
    + done.
Qed.
End WithRuntime.

Section OnAscii.
#[local] Existing Instance ascii_runtime.

(** C2, as stated, fails on both paths.  When the model is unavailable and
    the instruction speaks of a form, the fallback intent has the task kind
    fill_form and no action; when the model names a task kind of its own,
    that name is kept. *)
Lemma parse_without_actions :
  (exists parsed,
     parse (Raise (py "no language model")) (py "Fill in the contact form")
       = Ok parsed /\
     task parsed = py "fill_form" /\ actions parsed = []) /\
  (exists parsed,
     parse (Ok (reply_with_task (py "purchase"))) (py "buy a laptop") = Ok parsed /\
     task parsed = py "purchase" /\ (task parsed ∉ task_kinds) /\
     actions parsed = []).
Proof.
  split.
  - eexists. split; [reflexivity|]. split; reflexivity.
  - eexists. split; [reflexivity|]. split; [reflexivity|]. split; [|reflexivity].
    intros H. apply (bool_decide_eq_true_2 _) in H. by vm_compute in H.
Qed.
End OnAscii.

End ParserFacts.

(** ** planner.py *)

Module PlannerFacts.
Import Py Parser Planner PlanSpec.

Lemma py_max_ok (x : pyval) (n : Z) (y : pyval) :
  py_max x n = Ok y ->
  (at_least n y \/ y = VNaN) /\ (x <> VNaN -> y <> VNaN).
Proof.
  unfold py_max.
  destruct x as [|b|z|q|negative| |s| |]; cbn [int_gt bind]; try done; intros [= <-].
  - destruct (Z.ltb_spec (Z.b2z b) n); (split; [left; cbn; lia|done]).
  - destruct (Z.ltb_spec z n); (split; [left; cbn; lia|done]).
  - destruct (Qle_bool (inject_Z n) q) eqn:E; cbn [negb].
    + split; [left; cbn; by apply Qle_bool_iff|done].
    + split; [left; cbn; lia|done].
  - destruct negative; (split; [left; cbn; (lia || done)|done]).
  - split; [by right|done].
Qed.

(** a step without NaN in its two numbers *)
Lemma hardened_without_nan (s : Step) :
  hardened_or_nan s -> retries s <> VNaN -> timeout s <> VNaN -> hardened s.
Proof.
  intros [H1 H2] Hr Ht. split.
  - intros Ha. by destruct (H1 Ha).
  - intros Ha. by destruct (H2 Ha).
Qed.

Lemma harden_step_hardened (step step1 : Step) :
  harden_step step = Ok step1 ->
  hardened_or_nan step1 /\ action step1 = action step /\
  (retries step <> VNaN -> retries step1 <> VNaN) /\
  (timeout step <> VNaN -> timeout step1 <> VNaN).
Proof.
  unfold harden_step.
  destruct (if _ : bool then py_max (retries step) 3 else _) as [r1|] eqn:Er; [|done].
  destruct (if _ : bool then py_max (timeout step) 15 else _) as [t1|] eqn:Et; [|done].
  cbn [bind]. intros [= <-]. cbn [action retries timeout].
  split; [|split; [done|split]].
  - split; cbn [action retries timeout].
    + intros Hin.
      assert (Hb : bool_decide (action step = Some (py "click"))
                   || bool_decide (action step = Some (py "fill"))
                   || bool_decide (action step = Some (py "extract")) = true).
      { rewrite !elem_of_cons in Hin. destruct Hin as [H|[H|[H|H]]].
        - by rewrite (bool_decide_eq_true_2 _ H).
        - by rewrite (bool_decide_eq_true_2 _ H), orb_true_r.
        - by rewrite (bool_decide_eq_true_2 _ H), !orb_true_r.
        - by apply elem_of_nil in H. }
      rewrite Hb in Er. by apply py_max_ok in Er as [Er _].
    + intros Hgoto. rewrite (bool_decide_eq_true_2 _ Hgoto) in Et.
      by apply py_max_ok in Et as [Et _].
  - destruct (_ || _) in Er; [by apply py_max_ok in Er as [_ Er]|by injection Er as <-].
  - destruct (bool_decide _) in Et; [by apply py_max_ok in Et as [_ Et]|by injection Et as <-].
Qed.

Lemma wait_step_hardened : hardened wait_step.
Proof.
  split; cbn.
  - intros H. apply (bool_decide_eq_true_2 _) in H. by vm_compute in H.
  - intros H. by vm_compute in H.
Qed.

Lemma hardened_or_nan_weaken (s : Step) : hardened s -> hardened_or_nan s.
Proof. intros [H1 H2]. split; intros Ha; left; auto. Qed.

Lemma add_error_handling_hardened (steps out : list Step) :
  _add_error_handling steps = Ok out ->
  Forall hardened_or_nan out /\ (steps <> [] -> out <> []) /\
  (Forall (fun s => retries s <> VNaN /\ timeout s <> VNaN) steps ->
   Forall hardened out).
Proof.
  revert out. induction steps as [|step rest IH]; intros out; cbn [_add_error_handling].
  - intros [= <-]. by repeat split.
  - destruct (harden_step step) as [step1|] eqn:E1; [|done]. cbn [bind].
    destruct (_add_error_handling rest) as [out1|] eqn:E2; [|done]. cbn [bind].
    destruct (harden_step_hardened _ _ E1) as (H1 & _ & Hr & Ht).
    destruct (IH _ eq_refl) as (H2 & _ & H3).
    assert (Hfree : Forall (fun s => retries s <> VNaN /\ timeout s <> VNaN)
                      (step :: rest) ->
                    hardened step1 /\ Forall hardened out1).
    { intros Hall. apply Forall_cons in Hall as [[Hsr Hst] Hall].
      split; [|by apply H3]. apply hardened_without_nan; auto. }
    destruct (_ || _); intros [= <-]; (split; [|split; [done|]]).
    + constructor; [exact H1|].
      constructor; [exact (hardened_or_nan_weaken _ wait_step_hardened)|exact H2].
    + intros Hall. destruct (Hfree Hall) as [Hs Ho].
      constructor; [exact Hs|]. constructor; [exact wait_step_hardened|exact Ho].
    + constructor; [exact H1|exact H2].
    + intros Hall. destruct (Hfree Hall) as [Hs Ho]. by constructor.
Qed.

Lemma fallback_steps_hardened (parsed_instruction : ParsedInstruction) :
  Forall hardened (_create_fallback_steps parsed_instruction) /\
  _create_fallback_steps parsed_instruction <> [].
Proof.
  assert (Hh : forall a sel val u t many,
             (a = py "goto" -> 15 <= t) ->
             hardened {| action := Some a; selector := sel; value := val; url := u;
                         timeout := VInt t; multiple := many; retries := VInt 3;
                         metadata := fallback_meta |}).
  { intros a sel val u t many Ht. split; cbn.
    - intros _. lia.
    - intros [= Ha]. auto. }
  unfold _create_fallback_steps. split; [|done].
  apply Forall_app. split.
  - repeat (constructor; [apply Hh|]); try constructor.
    + intros _. lia.
    + by vm_compute.
  - destruct (decide _); [|constructor].
    repeat (constructor; [apply Hh; by vm_compute|]). constructor.
Qed.

Lemma template_steps_nonempty (parsed_instruction : ParsedInstruction) :
  _generate_steps_from_template parsed_instruction <> [].
Proof.
  unfold _generate_steps_from_template, step_templates.
  repeat (destruct (decide _); [done|]). done.
Qed.

(** the steps [plan] starts from hold a NaN only where the intent's actions
    do *)
Lemma initial_steps_nan_free (parsed_instruction : ParsedInstruction) :
  nan_free parsed_instruction ->
  Forall (fun s => retries s <> VNaN /\ timeout s <> VNaN)
    (_enhance_steps
       match actions parsed_instruction with
       | [] => _generate_steps_from_template parsed_instruction
       | a :: acts => _convert_actions_to_steps (a :: acts)
       end parsed_instruction).
Proof.
  intros Hfree. unfold _enhance_steps. apply Forall_forall. intros s Hs.
  apply list_elem_of_lookup in Hs as [i Hs]. rewrite list_lookup_imap in Hs.
  destruct (_ !! i) as [s0|] eqn:E0; [|done]. injection Hs as <-.
  cbn [enhance_step retries timeout].
  apply list_elem_of_lookup_2 in E0.
  destruct (actions parsed_instruction) as [|a acts] eqn:Ea.
  - unfold _generate_steps_from_template in E0.
    apply list_elem_of_fmap in E0 as ([[a t] m] & -> & _). by cbn.
  - unfold _convert_actions_to_steps in E0.
    apply list_elem_of_fmap in E0 as (a0 & -> & Ha0).
    unfold nan_free in Hfree. rewrite Ea, Forall_forall in Hfree.
    destruct (Hfree a0 Ha0) as [Hr Ht]. cbn [step_of_action retries timeout].
    split.
    + destruct (a_retries a0) as [v|]; cbn; [congruence|done].
    + destruct (a_timeout a0) as [v|]; cbn; [congruence|done].
Qed.

(** C3, as far as it holds.  For every intent [plan] returns, without
    raising, a plan that is not empty, in which every click, fill and extract
    step has a retry budget that is a number of at least 3 and every goto
    step a timeout that is a number of at least 15, but for a budget or a
    timeout that is NaN; when no action of the intent holds a NaN there is
    no exception. *)
Theorem plan_hardened (parsed_instruction : ParsedInstruction) :
  exists steps,
    plan parsed_instruction = Ok steps /\
    steps <> [] /\
    Forall hardened_or_nan steps /\
    (nan_free parsed_instruction -> Forall hardened steps).
Proof.
  unfold plan. pose proof (initial_steps_nan_free parsed_instruction) as Hfree.
  destruct (_add_error_handling _) as [out|e] eqn:E.
  - exists out. split; [done|].
    destruct (add_error_handling_hardened _ _ E) as (Hh & Hne & Hall).
    split; [|split; [done|]].
    + apply Hne. unfold _enhance_steps. intros Hnil.
      apply (f_equal length) in Hnil. rewrite length_imap in Hnil.
      destruct (actions parsed_instruction) as [|a acts].
      * apply (template_steps_nonempty parsed_instruction).
        by apply length_zero_iff_nil.
      * done.
    + intros Hnan. apply Hall, Hfree, Hnan.
  - exists (_create_fallback_steps parsed_instruction). split; [done|].
    destruct (fallback_steps_hardened parsed_instruction) as [Hh Hne].
    split; [done|]. split; [|done].
    eapply Forall_impl; [exact Hh|]. apply hardened_or_nan_weaken.
Qed.

Section OnAscii.
#[local] Existing Instance ascii_runtime.

(** C3, as stated, fails for a budget that is NaN: [max(nan, 3)] is NaN
    and raises nothing, so the click step keeps a budget that is not a number
    of at least 3.  The NaN comes through [parse] unchanged. *)
Lemma plan_keeps_nan_budget :
  parse (Ok {| pd_task := Some (py "click"); pd_query := Some (py "press the button");
               pd_filters := None; pd_count := None; pd_fields := None;
               pd_target_url := Some (py "https://www.example.com");
               pd_selectors := None;
               pd_actions := Some (actions click_with_nan_budget) |})
    (py "press the button")
  = Ok (_validate_and_enhance click_with_nan_budget) /\
  exists step rest,
    plan (_validate_and_enhance click_with_nan_budget) = Ok (step :: rest) /\
    action step = Some (py "click") /\
    retries step = VNaN /\
    ~ at_least 3 (retries step) /\
    ~ hardened step.
Proof.
  split; [reflexivity|].
  eexists. eexists. split; [reflexivity|]. split; [reflexivity|].
  split; [reflexivity|].
  assert (Hno : ~ at_least 3 VNaN) by (intros []).
  split; [exact Hno|].
  intros [H _]. apply Hno, H. apply list_elem_of_here.
Qed.
End OnAscii.

End PlannerFacts.

(** ** The stable sort *)

Module SortFacts.
Import Py.

Section Sorted.
Context {A K : Type} (le : K -> K -> bool) (key : A -> K).
Context (le_total : forall a b, le a b = false -> le b a = true).
Context (le_trans : forall a b c, le a b = true -> le b c = true -> le a c = true).

Lemma before_total (reverse : bool) (x y : A) :
  before le key reverse x y = false -> before le key reverse y x = true.
Proof. unfold before. destruct reverse; apply le_total. Qed.

Lemma before_trans (reverse : bool) (x y z : A) :
  before le key reverse x y = true -> before le key reverse y z = true ->
  before le key reverse x z = true.
Proof. unfold before. destruct reverse; eauto. Qed.

Lemma insert_sorted_perm (reverse : bool) (x : A) (l : list A) :
  insert_sorted le key reverse x l ≡ₚ x :: l.
Proof.
  induction l as [|y t IH]; cbn [insert_sorted]; [done|].
  destruct (before le key reverse x y); [done|].
  rewrite IH. apply Permutation_swap.
Qed.

Lemma sorted_perm (reverse : bool) (l : list A) :
  sorted le key reverse l ≡ₚ l.
Proof.
  induction l as [|x t IH]; cbn [sorted]; [done|].
  by rewrite insert_sorted_perm, IH.
Qed.

Lemma insert_sorted_sorted (reverse : bool) (x : A) (l : list A) :
  StronglySorted (fun a b => before le key reverse a b = true) l ->
  StronglySorted (fun a b => before le key reverse a b = true)
    (insert_sorted le key reverse x l).
Proof.
  induction 1 as [|y t Ht IH Hy]; cbn [insert_sorted].
  - repeat constructor.
  - destruct (before le key reverse x y) eqn:E.
    + constructor; [by constructor|].
      constructor; [done|].
      eapply Forall_impl; [exact Hy|]. intros z Hz. by eapply before_trans.
    + constructor; [done|].
      rewrite insert_sorted_perm. constructor; [|done].
      by apply before_total.
Qed.

Lemma sorted_sorted (reverse : bool) (l : list A) :
  StronglySorted (fun a b => before le key reverse a b = true)
    (sorted le key reverse l).
Proof.
  induction l as [|x t IH]; cbn [sorted]; [constructor|].
  by apply insert_sorted_sorted.
Qed.

(** The first [n] of the sorted list come before all the others. *)
Lemma sorted_take_drop (reverse : bool) (n : nat) (l : list A) (a b : A) :
  a ∈ take n (sorted le key reverse l) ->
  b ∈ drop n (sorted le key reverse l) ->
  before le key reverse a b = true.
Proof.
  intros Ha Hb. pose proof (sorted_sorted reverse l) as Hs.
  rewrite <- (take_drop n (sorted le key reverse l)) in Hs.
  by apply (StronglySorted_app_1_elem_of _ _ _ a b Hs).
Qed.
End Sorted.

End SortFacts.

(** ** session_memory.py *)

Module MemoryFacts.
Import Py Memory MemorySpec SortFacts.

Lemma fle_Z_total (a b : Z) : fle_Z a b = false -> fle_Z b a = true.
Proof. unfold fle_Z. lia. Qed.

Lemma fle_Z_trans (a b c : Z) :
  fle_Z a b = true -> fle_Z b c = true -> fle_Z a c = true.
Proof. unfold fle_Z. lia. Qed.

Lemma fresh_young (now : Z) (memories : list MemoryEntry) :
  Forall (fun mem => now - timedelta_days memory_ttl_days < timestamp_micros mem)
    (fresh now memories).
Proof.
  apply Forall_forall. intros m Hm.
  apply list_elem_of_In, filter_In in Hm as [_ Hm]. lia.
Qed.

Lemma fresh_naive (now : Z) (memories : list MemoryEntry) :
  Forall naive memories -> Forall naive (fresh now memories).
Proof.
  rewrite !Forall_forall. intros H m Hm. apply H.
  by apply list_elem_of_In, filter_In in Hm as [Hm%list_elem_of_In _].
Qed.

(** the test of the cleanup passes over naive timestamps *)
Lemma filterM_naive (now : Z) (l : list MemoryEntry) :
  Forall naive l ->
  filterM (fun mem => dt_gt (timestamp mem)
                        (Naive (now - timedelta_days memory_ttl_days))) l
  = Ok (fresh now l).
Proof.
  induction 1 as [|x l Hx _ IH]; [done|].
  cbn [filterM]. rewrite IH. unfold dt_gt, naive in *. rewrite Hx.
  cbn [is_aware Bool.eqb bind micros]. unfold fresh. cbn [List.filter].
  unfold timestamp_micros. by destruct (_ <? _).
Qed.


Lemma filterM_sublist {A} (test : A -> exn bool) (l out : list A) :
  filterM test l = Ok out -> sublist out l.
Proof.
  revert out. induction l as [|x l IH]; intros out; cbn [filterM].
  - intros [= <-]. constructor.
  - destruct (test x) as [keep|e]; cbn [bind]; [|done].
    destruct (filterM test l) as [o|e]; cbn [bind]; [|done].
    intros [= <-]. specialize (IH o eq_refl).
    destruct keep; [by apply sublist_skip|by apply sublist_cons].
Qed.

Lemma sorted_by_timestamp_naive (l : list MemoryEntry) :
  Forall naive l ->
  sorted_by_timestamp l = Ok (sorted fle_Z timestamp_micros true l).
Proof.
  intros H. unfold sorted_by_timestamp.
  assert (E : existsb (fun mem => is_aware (timestamp mem)) l = false).
  { induction H as [|x l Hx _ IH]; [done|].
    cbn [existsb]. unfold naive in Hx. by rewrite Hx, IH. }
  by rewrite E.
Qed.

(** a sort that returns is the sort by the microseconds *)
Lemma sorted_by_timestamp_ok (l out : list MemoryEntry) :
  sorted_by_timestamp l = Ok out -> out = sorted fle_Z timestamp_micros true l.
Proof. unfold sorted_by_timestamp. destruct (_ && _); [done|]. by intros [= <-]. Qed.

(** [_cleanup_old_memories] on a store of naive timestamps *)
Lemma cleanup_naive (now : Z) (self : SessionMemory) :
  Forall naive (memories self) ->
  _cleanup_old_memories now self
  = {| memories :=
         if (max_memories <? length (fresh now (memories self)))%nat
         then take max_memories
                (sorted fle_Z timestamp_micros true (fresh now (memories self)))
         else fresh now (memories self);
       session_context := session_context self |}.
Proof.
  intros H. unfold _cleanup_old_memories. cbv zeta.
  rewrite (filterM_naive now _ H).
  rewrite (sorted_by_timestamp_naive _ (fresh_naive now _ H)).
  by destruct (_ <? _)%nat.
Qed.


(** [_cleanup_old_memories] never adds an entry and leaves the context *)
Lemma cleanup_subset (now : Z) (self : SessionMemory) :
  memories (_cleanup_old_memories now self) ⊆+ memories self /\
  session_context (_cleanup_old_memories now self) = session_context self.
Proof.
  unfold _cleanup_old_memories. cbv zeta.
  destruct (filterM _ _) as [l1|e] eqn:E; [|done].
  apply filterM_sublist, sublist_submseteq in E.
  destruct (_ <? _)%nat; [|done].
  destruct (sorted_by_timestamp l1) as [l2|e] eqn:E2; [|done].
  apply sorted_by_timestamp_ok in E2 as ->. cbn [memories session_context].
  split; [|done]. etrans; [apply submseteq_take|]. by rewrite sorted_perm.
Qed.

(** What [_cleanup_old_memories] leaves of a store of naive timestamps. *)
Lemma cleanup_retention (now : Z) (self : SessionMemory) :
  Forall naive (memories self) ->
  let kept := memories (_cleanup_old_memories now self) in
  Forall (fun mem => now - timedelta_days memory_ttl_days < timestamp_micros mem) kept /\
  (length kept <= max_memories)%nat /\
  exists dropped,
    fresh now (memories self) ≡ₚ kept ++ dropped /\
    (forall k x, k ∈ kept -> x ∈ dropped -> timestamp_micros x <= timestamp_micros k) /\
    ((length (fresh now (memories self)) <= max_memories)%nat -> dropped = []).
Proof.
  intros Hnaive. cbv zeta. rewrite (cleanup_naive now self Hnaive). cbn [memories].
  set (fr := fresh now (memories self)).
  destruct (Nat.ltb_spec max_memories (length fr)) as [Hlt|Hge].
  - split; [|split].
    + apply Forall_forall. intros m Hm.
      apply subseteq_take in Hm. rewrite sorted_perm in Hm.
      revert m Hm. apply Forall_forall, fresh_young.
    + rewrite length_take. lia.
    + exists (drop max_memories (sorted fle_Z timestamp_micros true fr)).
      split; [|split].
      * by rewrite take_drop, sorted_perm.
      * intros k x Hk Hx.
        pose proof (sorted_take_drop fle_Z timestamp_micros fle_Z_total fle_Z_trans
                      true _ _ _ _ Hk Hx) as H.
        unfold before, fle_Z in H. lia.
      * lia.
  - split; [apply fresh_young|]. split; [done|].
    exists []. rewrite app_nil_r. split; [done|]. split; [|done].
    intros k x _ Hx. by apply elem_of_nil in Hx.
Qed.

Lemma incr_number (v : pyval) :
  (is_number v = true -> exists v', incr v = Ok v') /\
  (is_number v = false -> exists e, incr v = Raise e).
Proof. destruct v; split; intros H; try done; by eexists. Qed.

(** The two ways through [add_memory]: with counters that are numbers the
    cleanup runs on the store with the new entry; otherwise the store with
    the new entry is what is left. *)
Lemma add_memory_cases (d : draws) (self : SessionMemory)
    (instruction : pystr) (result : result_t) (success : bool)
    (task_type : pystr) (metadata : gmap pystr Parser.meta) :
  exists context,
    (counts success self /\
     add_memory d self instruction result success task_type metadata
     = (_cleanup_old_memories (now_cleanup d)
          {| memories :=
               memories self
               ++ [entry_of d instruction result success task_type metadata];
             session_context := context |},
        memory_id d)) \/
    (~ counts success self /\
     add_memory d self instruction result success task_type metadata
     = ({| memories :=
             memories self
             ++ [entry_of d instruction result success task_type metadata];
           session_context := context |}, [])).
Proof.
  unfold add_memory, counts.
  destruct (session_context self) as [c|].
  - destruct (incr_number (total_tasks c)) as [T1 T2].
    destruct (incr_number (if success then successful_tasks c else failed_tasks c))
      as [S1 S2].
    destruct (is_number (total_tasks c)) eqn:E1.
    + destruct (T1 eq_refl) as [total1 ->].
      destruct (is_number (if success then _ else _)) eqn:E2.
      * destruct (S1 eq_refl) as [counted ->]. eexists. left.
        split; [|reflexivity]. by intros c0 [= <-].
      * destruct (S2 eq_refl) as [e ->]. eexists. right.
        split; [|reflexivity]. intros H. destruct (H c eq_refl) as [_ H2]. congruence.
    + destruct (T2 eq_refl) as [e ->]. eexists. right.
      split; [|reflexivity]. intros H. destruct (H c eq_refl) as [H1 _]. congruence.
  - eexists. left. split; [|reflexivity]. by intros c [=].
Qed.


(** From the store of 101 stale entries one insert leaves the new entry
    alone. *)
Example add_memory_cleans_stale_store :
  memories (add_memory late_draws stale_store (py "search laptops") (Records [])
              true (py "search") ∅).1
  = [entry_of late_draws (py "search laptops") (Records []) true (py "search") ∅].
Proof. reflexivity. Qed.


End MemoryFacts.

(** ** orchestrator.py *)

Module OrchestratorFacts.
Import Py Extractor Parser Planner Orchestrator OrchSpec.

Section WithBrowser.
Context {R : Runtime} {Browser : Type}.
Context (browser_call : Browser -> Step -> exn ActionResult * Browser).
Context (other_attr : item -> pystr -> option pystr).

(** A step that exhausts its budget ends with a failed result, and its
    retries begin no other step. *)
Lemma retry_loop_exhausted (left : nat) (attempt_no budget : Z) (browser : Browser)
    (step : Step) (last_error : option pystr) :
  exhausts browser_call left browser step = true ->
  ok (retry_loop browser_call left attempt_no budget browser step last_error).1.1 = false /\
  data (retry_loop browser_call left attempt_no budget browser step last_error).1.1 = NoData /\
  started (retry_loop browser_call left attempt_no budget browser step last_error).2 = [].
Proof.
  revert attempt_no browser last_error.
  induction left as [|left IH]; intros attempt_no browser last_error; cbn [exhausts retry_loop].
  - done.
  - destruct (attempt browser_call browser step) as [[r|e] browser']; [done|].
    intros Hx. specialize (IH (attempt_no + 1) browser' (Some e) Hx).
    destruct (retry_loop browser_call left _ budget browser' step (Some e)) as [[r b] l].
    cbn in *. destruct IH as (IH1 & IH2 & IH3). split; [done|]. split; [done|].
    by destruct (attempt_no <? budget - 1).
Qed.

Lemma started_app (l1 l2 : list log_entry) :
  started (l1 ++ l2) = started l1 ++ started l2.
Proof. unfold started. apply omap_app. Qed.

Lemma started_cons (e : log_entry) (l : list log_entry) :
  started (e :: l) =
  match msg e with
  | ExecutingStep i _ => i :: started l
  | _ => started l
  end.
Proof. unfold started. cbn. by destruct (msg e). Qed.

(** The log of a plan that is not empty begins with its first step. *)
Lemma run_steps_begins (browser : Browser) (i n : nat) (step : Step)
    (rest : list Step) (parsed_instruction : ParsedInstruction) :
  (i + 1)%nat ∈
    started (run_steps browser_call browser i n (step :: rest)
               parsed_instruction).1.2.
Proof.
  cbn [run_steps]. cbv zeta.
  destruct (_execute_step_with_retry browser_call browser step) as [[[r b] l]|e].
  - destruct (ok r).
    + destruct (if _ : bool then _ else _) as [x xl].
      destruct (run_steps _ b _ _ rest _) as [[rs l'] b']. cbn [fst snd].
      rewrite started_cons. apply list_elem_of_here.
    + destruct (critical (action step)).
      * cbn [fst snd]. rewrite started_cons. apply list_elem_of_here.
      * destruct (run_steps _ b _ _ rest _) as [[rs l'] b']. cbn [fst snd].
        rewrite started_cons. apply list_elem_of_here.
  - destruct (run_steps _ browser _ _ rest _) as [[rs l'] b']. cbn [fst snd].
    rewrite started_cons. apply list_elem_of_here.
Qed.

Lemma critical_iff (a : option pystr) :
  critical a = true <-> a = Some (py "goto") \/ a = Some (py "click").
Proof.
  unfold critical. rewrite bool_decide_eq_true, !elem_of_cons, elem_of_nil. tauto.
Qed.


(** the retries of a step begin no other step *)
Lemma started_retry_loop (left : nat) (attempt_no budget : Z) (browser : Browser)
    (step : Step) (last_error : option pystr) :
  started (retry_loop browser_call left attempt_no budget browser step last_error).2 = [].
Proof.
  revert attempt_no browser last_error.
  induction left as [|left IH]; intros attempt_no browser last_error;
    cbn [retry_loop]; [done|].
  destruct (attempt browser_call browser step) as [[r|e] browser']; [done|].
  cbv zeta. specialize (IH (attempt_no + 1) browser' (Some e)).
  destruct (retry_loop _ left _ _ browser' step _) as [[r b] l].
  cbn [snd] in *. rewrite started_cons.
  by destruct (attempt_no <? budget - 1).
Qed.

Lemma started_execute_step (browser browser' : Browser) (step : Step)
    (r : ActionResult) (l : list log_entry) :
  _execute_step_with_retry browser_call browser step = Ok (r, browser', l) ->
  started l = [].
Proof.
  unfold _execute_step_with_retry. destruct (range_of (retries step)) as [n|]; [|done].
  cbn [bind]. intros [= H].
  pose proof (started_retry_loop (Z.to_nat n) 0 n browser step None) as Hs.
  by rewrite H in Hs.
Qed.

(** a step whose every attempt raises, a budget long, ends without
    success: the case of the exhausted retries *)
Lemma exhausted_step_fails (browser : Browser) (step : Step) (budget : Z) :
  range_of (retries step) = Ok budget ->
  exhausts browser_call (Z.to_nat budget) browser step = true ->
  exists step_result browser' retry_log,
    _execute_step_with_retry browser_call browser step
      = Ok (step_result, browser', retry_log) /\
    ok step_result = false.
Proof.
  intros Hb Hx. unfold _execute_step_with_retry. rewrite Hb. cbn [bind].
  pose proof (retry_loop_exhausted (Z.to_nat budget) 0 budget browser step None Hx)
    as (Hok & _).
  destruct (retry_loop _ _ 0 budget browser step None) as [[r b] l].
  by exists r, b, l.
Qed.

(** C4. When a step ends without success, because an attempt returned a
    failed result or because every attempt of its budget raised, the rest of
    the plan is given up if and only if the step's action is goto or click.
    For any other action the failure is logged and the loop goes on with
    the next step of the plan, from the browser the failed step left. *)
Theorem failed_step_policy (browser browser' : Browser) (i n : nat) (step : Step)
    (rest : list Step) (parsed_instruction : ParsedInstruction)
    (step_result : ActionResult) (retry_log : list log_entry) :
  _execute_step_with_retry browser_call browser step
    = Ok (step_result, browser', retry_log) ->
  ok step_result = false ->
  let run :=
    run_steps browser_call browser i n (step :: rest) parsed_instruction in
  (critical (action step) = true <->
     action step = Some (py "goto") \/ action step = Some (py "click")) /\
  run =
    (if critical (action step)
     then ([], executing i n :: retry_log ++ [failed i step_result; critical_failed i],
           browser')
     else
       let '(rs, l, b) :=
         run_steps browser_call browser' (i + 1) n rest parsed_instruction in
       (rs, executing i n :: retry_log ++ failed i step_result :: l, b)) /\
  (rest <> [] ->
     (i + 2)%nat ∈ started run.1.2 <-> critical (action step) = false).
Proof.
  intros Hstep Hok. pose proof (started_execute_step _ _ _ _ _ Hstep) as Hlog.
  cbv zeta.
  assert (Hrun :
    run_steps browser_call browser i n (step :: rest) parsed_instruction =
    (if critical (action step)
     then ([], executing i n :: retry_log ++ [failed i step_result; critical_failed i],
           browser')
     else
       let '(rs, l, b) :=
         run_steps browser_call browser' (i + 1) n rest parsed_instruction in
       (rs, executing i n :: retry_log ++ failed i step_result :: l, b))).
  { cbn [run_steps]. rewrite Hstep, Hok. cbv zeta. reflexivity. }
  split; [apply critical_iff|]. split; [done|].
  intros Hrest. rewrite Hrun.
  destruct (critical (action step)).
  - cbn [fst snd]. rewrite started_cons, started_app, Hlog. cbn.
    split; [|done]. rewrite elem_of_cons, elem_of_nil. lia.
  - destruct rest as [|next rest']; [done|].
    pose proof (run_steps_begins browser' (i + 1) n next rest' parsed_instruction) as Hb.
    destruct (run_steps _ browser' _ _ (next :: rest') _) as [[rs l] b].
    cbn [fst snd] in *. split; [done|]. intros _.
    rewrite started_cons, started_app, Hlog, started_cons. cbn.
    replace (i + 2)%nat with (i + 1 + 1)%nat by lia.
    by apply list_elem_of_further.
Qed.

(** A plan without an extract step gathers no record. *)
Lemma run_steps_no_extract (browser : Browser) (i n : nat) (steps : list Step)
    (parsed_instruction : ParsedInstruction) :
  Forall (fun s => action s <> Some (py "extract")) steps ->
  (run_steps browser_call browser i n steps parsed_instruction).1.1 = [].
Proof.
  intros Hs. revert browser i.
  induction Hs as [|step rest Hstep Hrest IH]; intros browser i; [done|].
  cbn [run_steps]. cbv zeta.
  destruct (_execute_step_with_retry browser_call browser step) as [[[r b] l]|e].
  - destruct (ok r).
    + rewrite (bool_decide_eq_false_2 _ Hstep). cbn [andb].
      specialize (IH b (i + 1)%nat).
      destruct (run_steps _ b _ _ rest _) as [[rs l'] b']. exact IH.
    + destruct (critical (action step)); [done|].
      specialize (IH b (i + 1)%nat).
      destruct (run_steps _ b _ _ rest _) as [[rs l'] b']. exact IH.
  - specialize (IH browser (i + 1)%nat).
    destruct (run_steps _ browser _ _ rest _) as [[rs l'] b']. exact IH.
Qed.

Lemma execute_steps_no_extract (start : exn Browser) (steps : list Step)
    (parsed_instruction : ParsedInstruction) raw step_log :
  Forall (fun s => action s <> Some (py "extract")) steps ->
  _execute_steps browser_call start steps parsed_instruction = Ok (raw, step_log) ->
  raw = [].
Proof.
  intros Hs. unfold _execute_steps. destruct start as [browser|e]; [|done].
  cbn [bind].
  pose proof (run_steps_no_extract browser 0 (length steps) steps
                parsed_instruction Hs) as H.
  destruct (run_steps _ browser _ _ steps _) as [[rs l] b].
  cbn [fst] in H. by intros [= <- _].
Qed.

(** C1, as far as it holds.  The status is never [partial].  It is
    [success] exactly when no exception escaped and the steps gathered at
    least one record, which is the case whenever the final record list is
    not empty; an escaped exception gives [error] with no records and with
    its message attached, and without one no message is attached; and a
    plan without an extract step gives [error]. *)
Theorem execute_status (w : world) (memory : Memory.SessionMemory)
    (instruction : pystr) :
  let r := fst (execute browser_call other_attr w memory instruction) in
  error_message r = escaped browser_call w instruction /\
  (forall e, escaped browser_call w instruction = Some e ->
     status r = error /\ results r = [] /\ error_message r = Some e) /\
  status r <> partial /\
  (results r <> [] -> status r = success) /\
  (is_Some (error_message r) -> status r = error /\ results r = []) /\
  (status r = success <->
     exists parsed steps raw step_log,
       w_context w = Ok tt /\
       parse (w_reply w) instruction = Ok parsed /\
       plan parsed = Ok steps /\
       _execute_steps browser_call (w_start w) steps parsed = Ok (raw, step_log) /\
       raw <> [] /\
       w_save w = Ok tt) /\
  (forall parsed steps,
     parse (w_reply w) instruction = Ok parsed ->
     plan parsed = Ok steps ->
     Forall (fun s => action s <> Some (py "extract")) steps ->
     status r = error).
Proof.
  cbv zeta.
  assert (Hesc : forall e, escaped browser_call w instruction = e ->
            error_message (execute browser_call other_attr w memory instruction).1 = e /\
            (is_Some e ->
             status (execute browser_call other_attr w memory instruction).1 = error /\
             results (execute browser_call other_attr w memory instruction).1 = [])).
  { intros e <-. unfold execute, escaped.
    destruct (w_context w) as [[]|e0]; [|by split].
    destruct (parse (w_reply w) instruction) as [parsed|e1]; [|by split].
    destruct (plan parsed) as [steps|e2]; [|by split].
    destruct (_execute_steps browser_call (w_start w) steps parsed)
      as [[raw step_log]|e3]; [|by split].
    destruct (_process_results other_attr raw parsed) as [processed process_log].
    destruct (w_save w) as [[]|e4]; [|by split].
    split; [done|]. by intros [? [=]]. }
  split; [by apply Hesc|]. split.
  { intros e He. destruct (Hesc _ He) as [H1 H2].
    destruct H2 as [H2 H3]; [by eexists|]. done. }
  clear Hesc. unfold execute.
  destruct (w_context w) as [[]|e0] eqn:Ec.
  2:{ cbn. repeat split; try done.
      - intros (?&?&?&?&?&_); done. }
  destruct (parse (w_reply w) instruction) as [parsed|e1] eqn:Ep.
  2:{ cbn. repeat split; try done.
      - intros (?&?&?&?&?&?&_); done. }
  destruct (plan parsed) as [steps|e2] eqn:El.
  2:{ cbn. repeat split; try done.
      - intros (?&?&?&?&?&?&?&_). congruence. }
  destruct (_execute_steps browser_call (w_start w) steps parsed)
    as [[raw step_log]|e3] eqn:Ex.
  2:{ cbn. repeat split; try done.
      - intros (?&?&?&?&?&?&?&?&_). congruence. }
  destruct (_process_results other_attr raw parsed) as [processed process_log] eqn:Er.
  destruct (w_save w) as [[]|e4] eqn:Es.
  2:{ cbn. repeat split; try done.
      - intros (?&?&?&?&?&?&?&?&?&?). congruence. }
  cbn [fst status results error_message].
  split; [by destruct raw|]. split; [|split; [|split]].
  - destruct raw; [|done]. cbn in Er. by injection Er as <- <-.
  - by intros [? [=]].
  - split.
    + intros Hs. exists parsed, steps, raw, step_log.
      repeat split; try done. by destruct raw.
    + intros (p' & s' & raw' & l' & _ & [= <-] & Hp & Hx & Hraw & _).
      assert (steps = s') as <- by congruence.
      assert (raw = raw') as <- by congruence. by destruct raw.
  - intros p' s' [= <-] Hp Hno.
    assert (steps = s') as <- by congruence.
    by rewrite (execute_steps_no_extract _ _ _ _ _ Hno Ex).
Qed.
End WithBrowser.

Section OnAscii.
#[local] Existing Instance ascii_runtime.

(** C1, as stated, fails for a plan without extraction.  The model asks
    for a navigation, the plan is goto and wait, both steps succeed and
    nothing raises, and the status is [error]. *)
Lemma navigation_reports_error :
  exists parsed steps,
    parse (w_reply calm_world) (py "navigate to example.com") = Ok parsed /\
    plan parsed = Ok steps /\
    action <$> steps = [Some (py "goto"); Some (py "wait")] /\
    status (execute always_ok no_attr calm_world empty_memory
              (py "navigate to example.com")).1 = error /\
    error_message (execute always_ok no_attr calm_world empty_memory
                     (py "navigate to example.com")).1 = None.
Proof.
  eexists. eexists. split; [reflexivity|]. split; [reflexivity|].
  repeat split; reflexivity.
Qed.

Lemma failed_step_policy_witness :
  (_execute_step_with_retry always_fails tt (step_of "goto" 2)
   = Ok ({| ok := false; data := NoData;
            err := Some (py "Timeout 30000ms exceeded") |}, tt, []) /\
   started (run_steps always_fails tt 0 2 [step_of "goto" 2; step_of "wait" 3]
              some_intent).1.2 = [1%nat]) /\
  (exhausts always_raises 2 tt (step_of "fill" 2) = true /\
   started (run_steps always_raises tt 0 2 [step_of "fill" 2; step_of "wait" 3]
              some_intent).1.2 = [1%nat; 2%nat]).
Proof.
  split; (split; [reflexivity|]).
  - destruct (failed_step_policy always_fails tt tt 0 2 (step_of "goto" 2)
                [step_of "wait" 3] some_intent _ _ eq_refl eq_refl) as (_ & H & _).
    rewrite H. reflexivity.
  - destruct (failed_step_policy always_raises tt tt 0 2 (step_of "fill" 2)
                [step_of "wait" 3] some_intent _ _ eq_refl eq_refl) as (_ & H & _).
    rewrite H. reflexivity.
Defined.
End OnAscii.

End OrchestratorFacts.

(** * Further properties *)

(** ** More on the stable sort *)

Module SortMore.
Import Py SortFacts.

Lemma fle_total (a b : pyfloat) : fle a b = false -> fle b a = true.
Proof.
  destruct a as [x|], b as [y|]; cbn; try done.
  intros H. apply Qle_bool_iff. apply Qlt_le_weak, Qnot_le_lt.
  intros Hle. apply Qle_bool_iff in Hle. congruence.
Qed.

Lemma fle_trans (a b c : pyfloat) :
  fle a b = true -> fle b c = true -> fle a c = true.
Proof.
  destruct a as [x|], b as [y|], c as [z|]; cbn; try done.
  rewrite !Qle_bool_iff. apply Qle_trans.
Qed.

Section Sorted.
Context {A K : Type} (le : K -> K -> bool) (key : A -> K).
Context (le_trans : forall a b c, le a b = true -> le b c = true -> le a c = true).

(** Sorting the images of a list is sorting the list by the key of the
    images. *)
Lemma insert_sorted_fmap {B} (f : B -> A) (reverse : bool) (x : B) (l : list B) :
  insert_sorted le key reverse (f x) (f <$> l)
  = f <$> insert_sorted le (key ∘ f) reverse x l.
Proof.
  induction l as [|y t IH]; [done|].
  cbn [fmap list_fmap insert_sorted].
  change (before le (key ∘ f) reverse x y) with (before le key reverse (f x) (f y)).
  destruct (before le key reverse (f x) (f y)); [done|].
  cbn [fmap list_fmap]. f_equal. exact IH.
Qed.

Lemma sorted_fmap {B} (f : B -> A) (reverse : bool) (l : list B) :
  sorted le key reverse (f <$> l) = f <$> sorted le (key ∘ f) reverse l.
Proof.
  induction l as [|x t IH]; [done|].
  cbn [fmap list_fmap sorted].
  change (list_fmap B A f t) with (f <$> t).
  by rewrite IH, insert_sorted_fmap.
Qed.

(** Stability: the elements with one key keep the order they had. *)
Lemma insert_sorted_filter (k : K) (reverse : bool) (x : A) (l : list A) :
  let p e := le (key e) k && le k (key e) in
  List.filter p (insert_sorted le key reverse x l)
  = if p x then x :: List.filter p l else List.filter p l.
Proof.
  cbv zeta. induction l as [|y t IH]; cbn [insert_sorted]; [done|].
  destruct (before le key reverse x y) eqn:E; [done|].
  cbn [List.filter]. rewrite IH.
  destruct (le (key x) k && le k (key x)) eqn:Ex; [|done].
  destruct (le (key y) k && le k (key y)) eqn:Ey; [|done].
  apply andb_true_iff in Ex as [Ex1 Ex2]. apply andb_true_iff in Ey as [Ey1 Ey2].
  unfold before in E. destruct reverse.
  - by rewrite (le_trans _ _ _ Ey1 Ex2) in E.
  - by rewrite (le_trans _ _ _ Ex1 Ey2) in E.
Qed.

Lemma sorted_filter (k : K) (reverse : bool) (l : list A) :
  let p e := le (key e) k && le k (key e) in
  List.filter p (sorted le key reverse l) = List.filter p l.
Proof.
  cbv zeta. induction l as [|x t IH]; cbn [sorted]; [done|].
  rewrite insert_sorted_filter. cbn [List.filter]. by rewrite IH.
Qed.
End Sorted.

End SortMore.

(** ** More on extractor.py *)

Module ExtractorMore.
Import Py Re ReSpec ReFacts Extractor ExtractorSpec ExtractorWords SortFacts SortMore.

Section WithRuntime.
Context {R : Runtime}.

Lemma normalize_url_absolute (url : pystr) :
  url <> [] -> absolute (_normalize_url url).
Proof.
  intros Hne. unfold absolute, _normalize_url.
  destruct url as [|c t]; [done|].
  destruct (starts_with (py "http://") (c :: t)) eqn:E1; [by left|].
  destruct (starts_with (py "https://") (c :: t)) eqn:E2; [by right|].
  cbn [orb negb]. right.
  destruct (starts_with (py "//") (c :: t)) eqn:E3; [exact E3|].
  destruct (starts_with (py "/") (c :: t)); reflexivity.
Qed.

(** X1. URL normalization gives an absolute URL for every input that is
    not empty, and normalizing a second time changes nothing. *)
Theorem normalize_url_idempotent (url : pystr) :
  (url <> [] -> absolute (_normalize_url url)) /\
  _normalize_url (_normalize_url url) = _normalize_url url.
Proof.
  split; [apply normalize_url_absolute|].
  destruct url as [|c t]; [done|].
  destruct (normalize_url_absolute (c :: t) ltac:(done)) as [H|H].
  - unfold _normalize_url at 1.
    destruct (_normalize_url (c :: t)); [done|]. by rewrite H.
  - unfold _normalize_url at 1.
    destruct (_normalize_url (c :: t)); [done|]. by rewrite H, orb_true_r.
Qed.

Lemma dedup_loop_spec (other_attr : item -> pystr -> option pystr)
    (key_fields : list pystr) (seen : gset pystr) (data : list item) :
  let key := item_key other_attr key_fields in
  let out := dedup_loop other_attr key_fields seen data in
  sublist out data /\
  NoDup (key <$> out) /\
  (forall it, it ∈ out -> key it ∉ seen) /\
  (forall it, it ∈ data -> key it ∈ seen \/ key it ∈ key <$> out).
Proof.
  cbv zeta. revert seen. induction data as [|x rest IH]; intros seen.
  - cbn. repeat split; [constructor|constructor|..].
    + intros it H. by apply elem_of_nil in H.
    + intros it H. by apply elem_of_nil in H.
  - cbn [dedup_loop]. cbv zeta.
    destruct (decide (item_key other_attr key_fields x ∈ seen)) as [Hin|Hout].
    + destruct (IH seen) as (H1 & H2 & H3 & H4).
      repeat split; [by constructor|done|done|].
      intros it Hit. apply elem_of_cons in Hit as [->|Hit]; [by left|by apply H4].
    + destruct (IH ({[item_key other_attr key_fields x]} ∪ seen)) as (H1 & H2 & H3 & H4).
      repeat split.
      * by constructor.
      * cbn [fmap list_fmap]. constructor; [|done].
        intros Hx. apply list_elem_of_fmap in Hx as (y & Hy & Hyin).
        apply (H3 y Hyin). rewrite <- Hy.
        apply elem_of_union. left. by apply elem_of_singleton.
      * intros it Hit. apply elem_of_cons in Hit as [->|Hit]; [done|].
        specialize (H3 it Hit). intros Hs. apply H3.
        apply elem_of_union. by right.
      * intros it Hit. cbn [fmap list_fmap].
        apply elem_of_cons in Hit as [->|Hit]; [right; by left|].
        destruct (H4 it Hit) as [H|H]; [|right; by right].
        apply elem_of_union in H as [H|H]; [|by left].
        apply elem_of_singleton in H. rewrite H. right. by left.
Qed.

(** X2. What deduplication returns is a sublist of its input in which no
    two items have the same key, and every key of the input is the key of
    an item it keeps. *)
Theorem deduplicate_keeps_one_per_key (other_attr : item -> pystr -> option pystr)
    (data : list item) (key_fields : option (list pystr)) :
  let key := item_key other_attr (key_fields_of key_fields) in
  let out := deduplicate other_attr data key_fields in
  sublist out data /\
  NoDup (key <$> out) /\
  (forall it, it ∈ data -> key it ∈ key <$> out).
Proof.
  cbv zeta.
  assert (Heq : deduplicate other_attr data key_fields
                = dedup_loop other_attr (key_fields_of key_fields) ∅ data).
  { unfold deduplicate, key_fields_of. by destruct key_fields as [[|]|]. }
  rewrite Heq.
  destruct (dedup_loop_spec other_attr (key_fields_of key_fields) ∅ data)
    as (H1 & H2 & _ & H4).
  repeat split; [done|done|].
  intros it Hit. destruct (H4 it Hit) as [H|H]; [|done]. by apply elem_of_empty in H.
Qed.

Lemma dict_key_empty (other_attr : item -> pystr -> option pystr) (d : ExtractedData) :
  item_key other_attr [py "title"; py "url"] (Dict d) = [].
Proof. reflexivity. Qed.

Lemma dedup_loop_dicts_seen (other_attr : item -> pystr -> option pystr)
    (seen : gset pystr) (ds : list ExtractedData) :
  [] ∈ seen ->
  dedup_loop other_attr [py "title"; py "url"] seen (Dict <$> ds) = [].
Proof.
  intros Hs. induction ds as [|d rest IH]; [done|].
  cbn [fmap list_fmap dedup_loop]. cbv zeta. rewrite dict_key_empty.
  by rewrite (decide_True _ _ Hs).
Qed.

(** X3. On the dictionaries [to_dict()] makes, with the default key fields,
    every item has the empty key ([getattr] finds no attribute on a
    dictionary), so deduplication keeps the first item and nothing else. *)
Theorem deduplicate_dicts_keeps_first (other_attr : item -> pystr -> option pystr)
    (ds : list ExtractedData) :
  deduplicate other_attr (to_dict <$> ds) None = to_dict <$> take 1 ds.
Proof.
  unfold deduplicate, to_dict. destruct ds as [|d rest]; [done|].
  cbn [fmap list_fmap dedup_loop take]. cbv zeta. rewrite dict_key_empty.
  rewrite decide_False by apply not_elem_of_empty.
  f_equal. apply dedup_loop_dicts_seen.
  apply elem_of_union. left. by apply elem_of_singleton.
Qed.

Lemma filter_items_dict (hi lo : option Q) (data : list item) (d : ExtractedData) :
  Dict d ∈ data -> filter_items hi lo data = Raise attribute_error.
Proof.
  induction data as [|it rest IH]; intros Hin; [by apply elem_of_nil in Hin|].
  cbn [filter_items]. destruct it as [o|d']; [|done].
  rewrite ExtractorFacts.keep_price_obj. cbn [bind].
  apply elem_of_cons in Hin as [Hin|Hin]; [done|]. by rewrite (IH Hin).
Qed.

Lemma sorted_by_key_dict (key : item -> exn pyfloat) (reverse : bool)
    (data : list item) (d : ExtractedData) :
  (forall o, exists k, key (Obj o) = Ok k) ->
  (forall d', key (Dict d') = Raise attribute_error) ->
  Dict d ∈ data -> sorted_by_key key reverse data = Raise attribute_error.
Proof.
  intros Hobj Hdict Hin. unfold sorted_by_key.
  assert (H : mapM (fun it => bind (key it) (fun k => Ok (k, it))) data
              = Raise attribute_error); [|by rewrite H].
  induction data as [|it rest IH]; [by apply elem_of_nil in Hin|].
  cbn [mapM]. destruct it as [o|d'].
  - destruct (Hobj o) as [k ->]. cbn [bind].
    apply elem_of_cons in Hin as [Hin|Hin]; [done|]. by rewrite (IH Hin).
  - by rewrite Hdict.
Qed.

Lemma sorted_by_key_obj (key : item -> exn pyfloat) (k : ExtractedData -> pyfloat)
    (reverse : bool) (data : list ExtractedData) :
  (forall o, key (Obj o) = Ok (k o)) ->
  sorted_by_key key reverse (Obj <$> data) = Ok (Obj <$> sorted fle k reverse data).
Proof.
  intros Hk. unfold sorted_by_key.
  assert (H : mapM (fun it => bind (key it) (fun k => Ok (k, it))) (Obj <$> data)
              = Ok ((fun o => (k o, Obj o)) <$> data)).
  { induction data as [|o rest IH]; [done|].
    cbn [fmap list_fmap mapM]. rewrite Hk. cbn [bind].
    change (list_fmap _ _ Obj rest) with (Obj <$> rest). by rewrite IH. }
  rewrite H. cbn [bind]. f_equal.
  rewrite (sorted_fmap fle fst (fun o => (k o, Obj o)) reverse data).
  rewrite <- list_fmap_compose. reflexivity.
Qed.

Lemma get_price_value_obj (reverse : bool) (o : ExtractedData) :
  get_price_value reverse (Obj o) = Ok (price_key reverse o).
Proof.
  unfold get_price_value, price_key, parsed_price. cbn [attr_price bind].
  destruct (truthy_str (price o)); cbn [negb]; [|done].
  by destruct (price_value _).
Qed.

Lemma get_rating_value_obj (o : ExtractedData) :
  get_rating_value (Obj o) = Ok (rating_key o).
Proof.
  unfold get_rating_value, rating_key. cbn [attr_rating bind].
  destruct (truthy_str (rating o)); cbn [negb]; [|done].
  by destruct (py_float _).
Qed.

(** X4. The three operations that read attributes fail on a list that holds
    a dictionary: both sorts raise AttributeError, and so does the price
    filter whenever a bound is active. *)
Theorem attribute_readers_raise_on_dict (data : list item) (d : ExtractedData) :
  Dict d ∈ data ->
  (forall hi lo, truthy_num hi || truthy_num lo = true ->
     filter_by_price data hi lo = Raise attribute_error) /\
  (forall reverse, sort_by_price data reverse = Raise attribute_error) /\
  (forall reverse, sort_by_rating data reverse = Raise attribute_error).
Proof.
  intros Hin. split; [|split].
  - intros hi lo Hact. unfold filter_by_price.
    destruct (truthy_num hi), (truthy_num lo); try done;
      by apply (filter_items_dict _ _ _ d).
  - intros reverse. apply (sorted_by_key_dict _ _ _ d); [| |done].
    + intros o. eexists. apply get_price_value_obj.
    + done.
  - intros reverse. apply (sorted_by_key_dict _ _ _ d); [| |done].
    + intros o. eexists. apply get_rating_value_obj.
    + done.
Qed.

Lemma flt_false (a b : pyfloat) : flt a b = false <-> fle b a = true.
Proof. unfold flt. by rewrite negb_false_iff. Qed.

Lemma kept_bounds (hi lo : option Q) (o : ExtractedData) :
  kept hi lo o = true <->
  exists v, parsed_price o = Some v /\
    (truthy_num hi = true -> fle v (Fin (default 0%Q hi)) = true) /\
    (truthy_num lo = true -> fle (Fin (default 0%Q lo)) v = true).
Proof.
  unfold kept, within. destruct (parsed_price o) as [v|].
  - rewrite andb_true_iff, !negb_true_iff, !andb_false_iff, !flt_false. split.
    + intros [H1 H2]. exists v. split; [done|]. split.
      * intros Ht. destruct H1; [congruence|done].
      * intros Ht. destruct H2; [congruence|done].
    + intros (v' & [= <-] & H1 & H2). split.
      * destruct (truthy_num hi); [right; by apply H1|by left].
      * destruct (truthy_num lo); [right; by apply H2|by left].
  - split; [done|]. by intros (v & [=] & _).
Qed.

(** X5. With a bound active, the price filter keeps, in their order, exactly
    the records whose price parses to a number within the active bounds,
    both bounds inclusive. *)
Theorem filter_by_price_within_bounds (data : list ExtractedData) (hi lo : option Q) :
  truthy_num hi || truthy_num lo = true ->
  exists out,
    filter_by_price (Obj <$> data) hi lo = Ok (Obj <$> out) /\
    sublist out data /\
    forall o, o ∈ out <->
      o ∈ data /\
      exists v, parsed_price o = Some v /\
        (truthy_num hi = true -> fle v (Fin (default 0%Q hi)) = true) /\
        (truthy_num lo = true -> fle (Fin (default 0%Q lo)) v = true).
Proof.
  intros Hact. exists (List.filter (kept hi lo) data). split; [|split].
  - unfold filter_by_price.
    destruct (truthy_num hi), (truthy_num lo); try done;
      apply ExtractorFacts.filter_items_obj.
  - apply ExtractorFacts.filter_sublist_self.
  - intros o. rewrite list_elem_of_In, filter_In, <- list_elem_of_In.
    by rewrite kept_bounds.
Qed.

Lemma sorted_in_order {A} (key : A -> pyfloat) (reverse : bool) (l : list A) :
  StronglySorted (in_order key reverse) (sorted fle key reverse l).
Proof.
  pose proof (sorted_sorted fle key fle_total fle_trans reverse l) as H.
  unfold in_order. unfold before in H. by destruct reverse.
Qed.

(** X6. Sorting objects by price returns a permutation of the list, in
    ascending order of the keys (descending with [reverse]), in which the
    records of one key keep the order they had: the sort is stable. *)
Theorem sort_by_price_stable (data : list ExtractedData) (reverse : bool) :
  exists out,
    sort_by_price (Obj <$> data) reverse = Ok (Obj <$> out) /\
    out ≡ₚ data /\
    StronglySorted (in_order (price_key reverse) reverse) out /\
    forall k,
      List.filter (key_is (price_key reverse) k) out
      = List.filter (key_is (price_key reverse) k) data.
Proof.
  exists (sorted fle (price_key reverse) reverse data). split; [|split; [|split]].
  - apply sorted_by_key_obj, get_price_value_obj.
  - apply sorted_perm.
  - apply sorted_in_order.
  - intros k. apply (sorted_filter fle (price_key reverse) fle_trans).
Qed.

(** X7. Sorting objects whose ratings are texts of digits and points by
    rating returns a stable, ordered permutation too; a record without a
    rating, or with one that is no number, has the key 0. *)
Theorem sort_by_rating_stable (data : list ExtractedData) (reverse : bool) :
  plain_ratings data ->
  exists out,
    sort_by_rating (Obj <$> data) reverse = Ok (Obj <$> out) /\
    out ≡ₚ data /\
    StronglySorted (in_order rating_key reverse) out /\
    (forall k,
       List.filter (key_is rating_key k) out = List.filter (key_is rating_key k) data) /\
    (forall o, o ∈ data -> rating o = None \/ py_float (default [] (rating o)) = None ->
       rating_key o = Fin 0).
Proof.
  intros _.
  exists (sorted fle rating_key reverse data). split; [|split; [|split; [|split]]].
  - apply sorted_by_key_obj, get_rating_value_obj.
  - apply sorted_perm.
  - apply sorted_in_order.
  - intros k. apply (sorted_filter fle rating_key fle_trans).
  - intros o _ [H|H]; unfold rating_key.
    + by rewrite H.
    + rewrite H. by destruct (truthy_str _).
Qed.

Lemma rating_patterns_groups :
  Forall (fun q => groups_only rating_char q /\ binds_group q = true)
    rating_patterns.
Proof.
  assert (H : consumes_only rating_char rating_number).
  { unfold rating_char. simpl. repeat split; auto. }
  unfold rating_patterns.
  repeat (apply Forall_cons; split; [split; [cbn -[consumes_only]; tauto|done]|]).
  constructor.
Qed.

(** X8. Whenever rating extraction returns a value, it is the token the
    first matching pattern captured, made of digits and points only: the
    words around the number ("out of 5", "stars", "rating:") stay out. *)
Theorem extract_rating_is_number_token (text r : pystr) :
  _extract_rating text = Some r ->
  Forall rating_char r /\
  exists skipped pattern rest,
    rating_patterns = skipped ++ pattern :: rest /\
    Forall (fun q => search q text = None) skipped /\
    search pattern text = Some (Some r).
Proof.
  unfold _extract_rating. destruct text as [|c text]; [done|].
  generalize (c :: text) as s. intros s.
  pose proof rating_patterns_groups as Hg. revert Hg.
  generalize rating_patterns as pats.
  induction 1 as [|q rest [Hq Hb] Hrest IH]; cbn [first_rating]; [done|].
  destruct (search q s) as [m|] eqn:E.
  - destruct (search_group rating_char q s m Hq Hb E) as (tok & -> & Htok).
    intros [= <-]. split; [done|]. by exists [], q, rest.
  - intros Hr. destruct (IH Hr) as (Hch & sk & pat & rs & -> & Hsk & Hs).
    split; [done|]. exists (q :: sk), pat, rs. repeat split; auto.
Qed.

Lemma lstrip_suffix (s : pystr) :
  exists pre, s = pre ++ lstrip s /\ Forall (fun c => is_space c = true) pre.
Proof.
  induction s as [|c t (pre & Heq & Hpre)]; [by exists []|].
  cbn [lstrip]. destruct (is_space c) eqn:E.
  - exists (c :: pre). split; [by rewrite Heq at 1|by constructor].
  - by exists [].
Qed.

Lemma lstrip_head (s : pystr) (c : char) (t : pystr) :
  lstrip s = c :: t -> is_space c = false.
Proof.
  induction s as [|x s IH]; cbn [lstrip]; [done|].
  destruct (is_space x) eqn:E; [done|]. by intros [= <- _].
Qed.

Lemma strip_Forall (P : char -> Prop) (s : pystr) :
  Forall P s -> Forall P (strip s).
Proof.
  intros H. unfold strip. apply Forall_rev.
  destruct (lstrip_suffix (rev (lstrip s))) as (pre & Heq & _).
  destruct (lstrip_suffix s) as (pre' & Heq' & _).
  rewrite Heq' in H. apply Forall_app in H as [_ H].
  apply Forall_rev in H. rewrite Heq in H. by apply Forall_app in H as [_ H].
Qed.

Lemma strip_first (s : pystr) (c : char) (t : pystr) :
  strip s = c :: t -> is_space c = false.
Proof.
  unfold strip. intros H.
  destruct (lstrip_suffix (rev (lstrip s))) as (pre & Heq & _).
  apply (f_equal (@rev N)) in H. rewrite rev_involutive in H. rewrite H in Heq.
  apply (f_equal (@rev N)) in Heq. rewrite rev_involutive, rev_app_distr in Heq.
  cbn [rev] in Heq. rewrite rev_app_distr, rev_involutive in Heq. cbn in Heq.
  by apply lstrip_head in Heq.
Qed.

Lemma strip_last (s : pystr) (c : char) (t : pystr) :
  strip s = t ++ [c] -> is_space c = false.
Proof.
  unfold strip. intros H.
  apply (f_equal (@rev N)) in H. rewrite rev_involutive, rev_app_distr in H.
  cbn in H. by apply lstrip_head in H.
Qed.

(** X9. Cleaned text holds nothing but word characters, white space, the
    four punctuation marks and the five currency signs, and it neither
    begins nor ends with white space. *)
Theorem clean_text_shape (text : pystr) :
  Forall (fun c => kept_char c = true) (_clean_text text) /\
  (forall c t, _clean_text text = c :: t -> is_space c = false) /\
  (forall c t, _clean_text text = t ++ [c] -> is_space c = false).
Proof.
  unfold _clean_text. destruct text as [|x text].
  - split; [constructor|]. split; [done|]. intros c t H. by destruct t.
  - split; [|split].
    + apply strip_Forall. apply Forall_forall. intros c Hc.
      by apply list_elem_of_In, filter_In in Hc as [_ Hc].
    + apply strip_first.
    + apply strip_last.
Qed.

Lemma extract_price_rupee (text p : pystr) :
  _extract_price text = Some p ->
  exists tok, p = rupee :: tok /\ Forall price_char tok.
Proof.
  unfold _extract_price. destruct text as [|c text]; [done|].
  intros Hp.
  destruct (ExtractorFacts.first_price_spec _ _ _
              ExtractorFacts.price_patterns_groups Hp)
    as (sk & pat & rs & tok & _ & _ & _ & Htok & ->).
  by exists tok.
Qed.

Lemma extract_fragment_shape (f : fragment) (rec : ExtractedData) :
  extract_fragment f = Some rec ->
  raw_data rec = f /\
  title rec = description rec /\
  truthy_str (title rec) || truthy_str (price rec) || truthy_str (url rec) = true /\
  (forall p, price rec = Some p ->
     exists tok, p = rupee :: tok /\ Forall price_char tok) /\
  (forall u, url rec = Some u -> u = [] \/ absolute u).
Proof.
  unfold extract_fragment. cbv zeta.
  cbn [title price url description].
  destruct (_ || _ || _ || truthy_str (_clean_text <$> f_text f)) eqn:E; [|done].
  intros [= <-]. cbn [raw_data title description price url].
  split; [done|]. split; [done|]. split; [|split].
  - revert E.
    generalize (truthy_str (_clean_text <$> f_text f)),
      (truthy_str (if_truthy (f_text f ≫= _extract_price))),
      (truthy_str (_normalize_url <$> f_attributes f ≫= (.!! py "href"))).
    by intros [] [] [].
  - intros p Hp. unfold if_truthy in Hp. clear E.
    destruct (truthy_str (f_text f ≫= _extract_price)); [|done].
    destruct (f_text f) as [t|]; [|done]. cbn in Hp.
    by apply (extract_price_rupee t).
  - intros u Hu. destruct (f_attributes f ≫= _) as [href|]; [|done].
    cbn in Hu. injection Hu as <-.
    destruct href as [|c t]; [by left|]. right. by apply normalize_url_absolute.
Qed.

(** X10. Extraction from fragments gives at most one record per fragment,
    in the order of the fragments.  In every record the title and the
    description are the same cleaned text, one of title, price and URL is
    set, a price begins with the rupee sign and goes on with digits, commas
    and points, and a URL is absolute unless the link was empty. *)
Theorem extracted_records_shape (fragments : list fragment)
    (selectors : gmap pystr (option pystr)) :
  sublist (raw_data <$> extract_from_playwright_data fragments selectors) fragments /\
  Forall (fun rec =>
            title rec = description rec /\
            truthy_str (title rec) || truthy_str (price rec) || truthy_str (url rec)
              = true /\
            (forall p, price rec = Some p ->
               exists tok, p = rupee :: tok /\ Forall price_char tok) /\
            (forall u, url rec = Some u -> u = [] \/ absolute u))
    (extract_from_playwright_data fragments selectors).
Proof.
  unfold extract_from_playwright_data.
  induction fragments as [|f rest [IH1 IH2]]; [split; constructor|].
  cbn [omap list_omap].
  destruct (extract_fragment f) as [rec|] eqn:E.
  - destruct (extract_fragment_shape f rec E) as (Hraw & Hrest).
    split.
    + cbn [fmap list_fmap]. rewrite Hraw. by constructor.
    + by constructor.
  - split; [by constructor|done].
Qed.
End WithRuntime.

Section OnAscii.
#[local] Existing Instance ascii_runtime.

Lemma attribute_readers_raise_on_dict_witness :
  sort_by_price [Obj laptop_200; to_dict laptop_100] false = Raise attribute_error /\
  filter_by_price [Obj laptop_200; to_dict laptop_100] (Some 150%Q) None
    = Raise attribute_error.
Proof.
  assert (Hin : Dict laptop_100 ∈ [Obj laptop_200; to_dict laptop_100]).
  { apply list_elem_of_further, list_elem_of_here. }
  destruct (attribute_readers_raise_on_dict _ _ Hin) as (Hf & Hp & _).
  split; [apply Hp|]. apply Hf. reflexivity.
Defined.

Lemma filter_by_price_within_bounds_witness :
  exists out,
    filter_by_price (Obj <$> [laptop_200; unpriced; laptop_100]) (Some 150%Q) (Some 50%Q)
      = Ok (Obj <$> out) /\
    sublist out [laptop_200; unpriced; laptop_100].
Proof.
  destruct (filter_by_price_within_bounds [laptop_200; unpriced; laptop_100]
              (Some 150%Q) (Some 50%Q) eq_refl) as (out & H1 & H2 & _).
  by exists out.
Defined.

Lemma sort_by_rating_stable_witness :
  plain_ratings [rated "Laptop A" (Some (py "3.9")); rated "Laptop B" None;
                 rated "Laptop C" (Some (py "4.5")); rated "Laptop D" (Some (py "4.5.1"))] /\
  exists out,
    sort_by_rating (Obj <$> [rated "Laptop A" (Some (py "3.9")); rated "Laptop B" None;
                             rated "Laptop C" (Some (py "4.5"));
                             rated "Laptop D" (Some (py "4.5.1"))]) true
      = Ok (Obj <$> out) /\
    out ≡ₚ [rated "Laptop A" (Some (py "3.9")); rated "Laptop B" None;
            rated "Laptop C" (Some (py "4.5")); rated "Laptop D" (Some (py "4.5.1"))].
Proof.
  assert (H : plain_ratings
                [rated "Laptop A" (Some (py "3.9")); rated "Laptop B" None;
                 rated "Laptop C" (Some (py "4.5"));
                 rated "Laptop D" (Some (py "4.5.1"))]).
  { repeat constructor; intros r [= <-]; repeat constructor;
      solve [by left | by right]. }
  split; [exact H|].
  destruct (sort_by_rating_stable _ true H) as (out & H1 & H2 & _).
  by exists out.
Defined.

Lemma extract_rating_is_number_token_witness :
  _extract_rating (py "Rated 4.5 out of 5 stars") = Some (py "4.5") /\
  Forall rating_char (py "4.5").
Proof.
  split; [reflexivity|].
  apply (extract_rating_is_number_token (py "Rated 4.5 out of 5 stars")).
  reflexivity.
Defined.
End OnAscii.

End ExtractorMore.

(** ** More on parser.py *)

Module ParserMore.
Import Py Parser PlanSpec PlanWords.

Lemma default_url_nonempty (task : pystr) : _get_default_url task <> [].
Proof. unfold _get_default_url. repeat destruct (decide _); done. Qed.

Lemma default_actions_by_task (p q : ParsedInstruction) :
  task p = task q -> query p = query q -> target_url p = target_url q ->
  _get_default_actions p = _get_default_actions q.
Proof. unfold _get_default_actions. by intros -> -> ->. Qed.

Lemma default_actions_nil_by_task (p q : ParsedInstruction) :
  task p = task q -> _get_default_actions p = [] -> _get_default_actions q = [].
Proof.
  unfold _get_default_actions. intros ->.
  repeat destruct (decide _); done.
Qed.

Lemma truthy_str_Some (s : pystr) : s <> [] -> truthy_str (Some s) = true.
Proof. by destruct s. Qed.

(** X11. Validation is idempotent, and what it returns has a task kind, a
    target URL and selectors. *)
Theorem validate_and_enhance_idempotent (parsed : ParsedInstruction) :
  _validate_and_enhance (_validate_and_enhance parsed) = _validate_and_enhance parsed /\
  task (_validate_and_enhance parsed) <> [] /\
  truthy_str (target_url (_validate_and_enhance parsed)) = true /\
  selectors (_validate_and_enhance parsed) <> ∅.
Proof.
  assert (Htask : task (_validate_and_enhance parsed) <> []).
  { unfold _validate_and_enhance. cbn [task]. by destruct (task parsed). }
  assert (Hurl : truthy_str (target_url (_validate_and_enhance parsed)) = true).
  { unfold _validate_and_enhance. cbn [target_url].
    destruct (truthy_str (target_url parsed)) eqn:E; [done|].
    apply truthy_str_Some, default_url_nonempty. }
  assert (Hsel : selectors (_validate_and_enhance parsed) <> ∅).
  { apply ParserFacts.validate_and_enhance_shape. }
  split; [|done].
  set (p1 := _validate_and_enhance parsed) in *.
  unfold _validate_and_enhance at 1.
  assert (Ht : match task p1 with [] => py "search" | t => t end = task p1)
    by (by destruct (task p1)).
  assert (Hq : match query p1 with [] => raw_instruction p1 | q => q end = query p1).
  { subst p1. unfold _validate_and_enhance. cbn [query raw_instruction].
    destruct (query parsed) as [|c q] eqn:E; [|done].
    by destruct (raw_instruction parsed). }
  rewrite Ht, Hq, Hurl. rewrite (decide_False _ _ Hsel).
  assert (Ha : match actions p1 with
               | [] => _get_default_actions
                   {| task := task p1; query := query p1; filters := filters p1;
                      count := count p1; fields := fields p1;
                      target_url := target_url p1; selectors := selectors p1;
                      actions := actions p1; raw_instruction := raw_instruction p1 |}
               | acts => acts
               end = actions p1).
  { destruct (actions p1) as [|a acts] eqn:E; [|done].
    subst p1. unfold _validate_and_enhance in E. cbn [actions] in E.
    destruct (actions parsed); [|done].
    eapply default_actions_nil_by_task; [|exact E]. reflexivity. }
  rewrite Ha. by destruct p1.
Qed.

Section WithRuntime.
Context {R : Runtime}.

Lemma fallback_task_nonempty (instruction : pystr) : fallback_task instruction <> [].
Proof.
  unfold fallback_task.
  destruct (contains (py "search") _); [done|].
  destruct (contains (py "navigate") _ || _); [done|].
  destruct (contains (py "extract") _ || _); [done|].
  by destruct (contains (py "fill") _ || _).
Qed.

(** X12. The two paths of [parse] converge: the fallback intent is the
    intent the model path builds from a reply that names the fallback task
    kind and nothing else. *)
Theorem fallback_is_minimal_reply (e instruction : pystr) :
  parse (Raise e) instruction
  = parse (Ok (reply_with_task (fallback_task instruction))) instruction.
Proof.
  cbn [parse bind]. unfold _create_fallback_instruction, reply_with_task.
  cbn [pd_task pd_query pd_filters pd_count pd_fields pd_target_url pd_selectors
       pd_actions default from_option id].
  f_equal. unfold _validate_and_enhance.
  cbn [task query filters count fields target_url selectors actions raw_instruction].
  pose proof (fallback_task_nonempty instruction) as Hne.
  assert (Ht : match fallback_task instruction with [] => py "search" | t => t end
               = fallback_task instruction)
    by (by destruct (fallback_task instruction)).
  assert (Hq : match instruction with [] => instruction | c :: q => c :: q end
               = instruction)
    by (by destruct instruction).
  rewrite Ht, Hq. cbn [truthy_str]. rewrite decide_True by done.
  reflexivity.
Qed.

Lemma parse_target_url (reply : exn plan_data) (instruction : pystr)
    (parsed : ParsedInstruction) :
  parse reply instruction = Ok parsed -> truthy_str (target_url parsed) = true.
Proof.
  destruct reply as [plan_data|e]; cbn [parse bind].
  - intros [= <-]. unfold _validate_and_enhance. cbn [target_url].
    destruct (truthy_str (pd_target_url plan_data)) eqn:E; [done|].
    apply truthy_str_Some, default_url_nonempty.
  - unfold _create_fallback_instruction. intros [= <-]. cbn [target_url].
    apply truthy_str_Some, default_url_nonempty.
Qed.
End WithRuntime.

End ParserMore.

(** ** More on planner.py *)

Module PlannerMore.
Import Py Parser Planner PlanSpec PlanWords.

Lemma harden_step_fields (step step1 : Step) :
  harden_step step = Ok step1 ->
  action step1 = action step /\ selector step1 = selector step /\
  value step1 = value step /\ url step1 = url step /\
  multiple step1 = multiple step.
Proof.
  unfold harden_step.
  destruct (if _ : bool then py_max (retries step) 3 else _) as [r1|]; [|done].
  destruct (if _ : bool then py_max (timeout step) 15 else _) as [t1|]; [|done].
  cbn [bind]. by intros [= <-].
Qed.

(** every step of the hardened plan is an inserted wait or a hardened step
    of the input *)
Lemma add_error_handling_elements (steps out : list Step) :
  _add_error_handling steps = Ok out ->
  forall s', s' ∈ out ->
    s' = wait_step \/ exists s, s ∈ steps /\ harden_step s = Ok s'.
Proof.
  revert out. induction steps as [|step rest IH]; intros out; cbn [_add_error_handling].
  - intros [= <-] s' H. by apply elem_of_nil in H.
  - destruct (harden_step step) as [step1|] eqn:E1; [|done]. cbn [bind].
    destruct (_add_error_handling rest) as [out1|] eqn:E2; [|done]. cbn [bind].
    assert (Hrest : forall s', s' ∈ out1 ->
              s' = wait_step \/ exists s, s ∈ step :: rest /\ harden_step s = Ok s').
    { intros s' Hs'. destruct (IH _ eq_refl s' Hs') as [H|(s & Hs & H)]; [by left|].
      right. exists s. split; [by apply list_elem_of_further|done]. }
    assert (Hhead : exists s, s ∈ step :: rest /\ harden_step s = Ok step1).
    { exists step. split; [apply list_elem_of_here|done]. }
    destruct (_ || _); intros [= <-] s' Hs'.
    + apply elem_of_cons in Hs' as [->|Hs']; [by right|].
      apply elem_of_cons in Hs' as [->|Hs']; [by left|auto].
    + apply elem_of_cons in Hs' as [->|Hs']; [by right|auto].
Qed.

(** X13. After the hardening pass the plan has the actions of its input in
    their order, with one wait after every click and every fill and no
    other step added. *)
Theorem add_error_handling_inserts_waits (steps out : list Step) :
  _add_error_handling steps = Ok out ->
  action <$> out = with_waits steps /\
  length out
  = (length steps
     + length (List.filter (fun s => bool_decide (action s = Some (py "click"))
                                     || bool_decide (action s = Some (py "fill"))) steps))%nat.
Proof.
  revert out. induction steps as [|step rest IH]; intros out; cbn [_add_error_handling].
  - by intros [= <-].
  - destruct (harden_step step) as [step1|] eqn:E1; [|done]. cbn [bind].
    destruct (_add_error_handling rest) as [out1|] eqn:E2; [|done]. cbn [bind].
    destruct (harden_step_fields _ _ E1) as (Ha & _).
    destruct (IH _ eq_refl) as [IH1 IH2].
    unfold with_waits in *. cbn [mbind list_bind List.filter].
    destruct (_ || _); intros [= <-]; cbn [fmap list_fmap length app].
    + split; [by rewrite Ha, IH1|]. rewrite IH2. lia.
    + split; [by rewrite Ha, IH1|]. rewrite IH2. lia.
Qed.

Lemma enhance_steps_elements (parsed_instruction : ParsedInstruction)
    (steps : list Step) (s' : Step) :
  s' ∈ _enhance_steps steps parsed_instruction ->
  exists i s, s' = enhance_step parsed_instruction i s.
Proof.
  unfold _enhance_steps. intros H.
  apply list_elem_of_lookup in H as [i H].
  rewrite list_lookup_imap in H.
  destruct (steps !! i) as [s|]; [|done]. injection H as <-. by exists i, s.
Qed.

(** a step whose action is a literal: each case of the statement holds by
    its fields or has an action that is another literal *)
Ltac literal_step :=
  split; [|split]; cbn [action value multiple selector]; intros H;
  first [ done
        | by eexists
        | intros _; by eexists
        | exfalso; revert H; by vm_compute
        | exfalso; apply (bool_decide_eq_true_2 _) in H; by vm_compute in H ].

Lemma get_selector_some (parsed_instruction : ParsedInstruction) (k : pystr) :
  (forall k, selectors parsed_instruction !! k <> Some None) ->
  is_Some (_get_selector parsed_instruction k).
Proof.
  intros Hnull. unfold _get_selector. specialize (Hnull k).
  by destruct (selectors parsed_instruction !! k) as [[v|]|].
Qed.

(** X14. In every plan, on the normal path and on the fallback, a fill step
    carries the intent's query as its value and an extract step is in
    multiple mode; and fill, click and extract steps have a selector,
    provided the intent's selectors hold no null: the planner passes on
    what is stored under the key, a null included. *)
Theorem plan_fills_query (parsed_instruction : ParsedInstruction) :
  exists steps,
    plan parsed_instruction = Ok steps /\
    Forall (fun s =>
              (action s = Some (py "fill") ->
                 value s = Some (query parsed_instruction)) /\
              (action s = Some (py "extract") -> multiple s = true) /\
              (action s ∈ [Some (py "fill"); Some (py "click"); Some (py "extract")] ->
                 (forall k, selectors parsed_instruction !! k <> Some None) ->
                 is_Some (selector s))) steps.
Proof.
  unfold plan.
  destruct (_add_error_handling _) as [out|e] eqn:E.
  - exists out. split; [done|]. apply Forall_forall. intros s' Hs'.
    destruct (add_error_handling_elements _ _ E s' Hs') as [->|(s & Hs & Hh)].
    + repeat split; intros H; exfalso; revert H; cbn.
      * by vm_compute.
      * by vm_compute.
      * intros H. apply (bool_decide_eq_true_2 _) in H. by vm_compute in H.
    + destruct (harden_step_fields _ _ Hh) as (Ha & Hsel & Hv & _ & Hm).
      rewrite Ha, Hsel, Hv, Hm.
      destruct (enhance_steps_elements _ _ _ Hs) as (i & s0 & ->).
      cbn [enhance_step action value multiple selector]. repeat split.
      * intros H. by rewrite (bool_decide_eq_true_2 _ H).
      * intros H. by rewrite (bool_decide_eq_true_2 _ H).
      * rewrite !elem_of_cons, elem_of_nil. intros [H|[H|[H|[]]]] Hnull.
        -- rewrite (bool_decide_eq_true_2 _ H). by apply get_selector_some.
        -- rewrite (bool_decide_eq_true_2 _ H).
           destruct (bool_decide _); by apply get_selector_some.
        -- rewrite (bool_decide_eq_true_2 _ H).
           repeat destruct (bool_decide _); by apply get_selector_some.
  - exists (_create_fallback_steps parsed_instruction). split; [done|].
    unfold _create_fallback_steps. apply Forall_app. split.
    + repeat (constructor; [literal_step|]). constructor.
    + destruct (decide _); [|constructor].
      repeat (constructor; [literal_step|]). constructor.
Qed.

Lemma py_max_rejected (v : pyval) (n : Z) :
  not_a_number v = true -> exists e, py_max v n = Raise e.
Proof. destruct v; try done; intros _; by eexists. Qed.

Lemma harden_step_rejected (s : Step) :
  rejected_budget s = true -> exists e, harden_step s = Raise e.
Proof.
  unfold rejected_budget, harden_step. intros H.
  apply orb_true_iff in H as [H|H]; apply andb_true_iff in H as [Ha Hn].
  - apply bool_decide_eq_true_1 in Ha.
    assert (Hc : bool_decide (action s = Some (py "click"))
                 || bool_decide (action s = Some (py "fill"))
                 || bool_decide (action s = Some (py "extract")) = true).
    { rewrite !orb_true_iff, !bool_decide_eq_true.
      rewrite !elem_of_cons, elem_of_nil in Ha. tauto. }
    rewrite Hc. destruct (py_max_rejected _ 3 Hn) as [e ->]. by eexists.
  - apply bool_decide_eq_true_1 in Ha.
    assert (Hc : bool_decide (action s = Some (py "click"))
                 || bool_decide (action s = Some (py "fill"))
                 || bool_decide (action s = Some (py "extract")) = false).
    { rewrite Ha. by vm_compute. }
    rewrite Hc, (bool_decide_eq_true_2 _ Ha). cbn [bind].
    destruct (py_max_rejected _ 15 Hn) as [e ->]. by eexists.
Qed.

Lemma add_error_handling_rejected (steps : list Step) :
  existsb rejected_budget steps = true -> exists e, _add_error_handling steps = Raise e.
Proof.
  induction steps as [|s rest IH]; cbn [existsb _add_error_handling]; [done|].
  intros H. destruct (harden_step s) as [s1|e] eqn:E; [|by eexists]. cbn [bind].
  apply orb_true_iff in H as [H|H].
  - destruct (harden_step_rejected s H) as [e He]. congruence.
  - destruct (IH H) as [e ->]. by eexists.
Qed.

Lemma existsb_rejected_imap (g : nat -> Step -> Step) (steps : list Step) :
  (forall i s, rejected_budget (g i s) = rejected_budget s) ->
  existsb rejected_budget (imap g steps) = existsb rejected_budget steps.
Proof.
  revert g. induction steps as [|s rest IH]; intros g Hg; [done|].
  cbn [imap existsb]. rewrite Hg. f_equal. apply IH. intros i s'. apply Hg.
Qed.

(** X15. When a step that [plan] starts from has a budget on which [max]
    raises (a click, fill or extract step whose retries is null, a string,
    a list or a dictionary, or a goto step with such a timeout), [plan]
    returns the fallback plan of the intent. *)
Theorem plan_falls_back_on_rejected_budget (parsed_instruction : ParsedInstruction) :
  existsb rejected_budget (initial_steps parsed_instruction) = true ->
  plan parsed_instruction = Ok (_create_fallback_steps parsed_instruction).
Proof.
  intros H.
  assert (He : existsb rejected_budget
                 (_enhance_steps (initial_steps parsed_instruction) parsed_instruction)
               = true).
  { unfold _enhance_steps. by rewrite existsb_rejected_imap. }
  apply add_error_handling_rejected in He as [e He].
  unfold plan. fold (initial_steps parsed_instruction). by rewrite He.
Qed.

Section WithRuntime.
Context {R : Runtime}.

(** X16. Whatever the model replies, the intent [parse] returns is planned
    into steps in which every goto has a URL: the action's own, or else the
    target URL that validation always sets. *)
Theorem planned_goto_has_url (reply : exn plan_data) (instruction : pystr) :
  exists parsed steps,
    parse reply instruction = Ok parsed /\
    plan parsed = Ok steps /\
    Forall (fun s => action s = Some (py "goto") -> truthy_str (url s) = true) steps.
Proof.
  destruct (parse reply instruction) as [parsed|e] eqn:Ep.
  2:{ exfalso. destruct reply; cbn in Ep; discriminate. }
  pose proof (ParserMore.parse_target_url _ _ _ Ep) as Hurl.
  exists parsed. unfold plan.
  destruct (_add_error_handling _) as [out|e] eqn:E.
  - exists out. split; [done|]. split; [done|].
    apply Forall_forall. intros s' Hs'.
    destruct (add_error_handling_elements _ _ E s' Hs') as [->|(s & Hs & Hh)].
    + intros H. exfalso. revert H. by vm_compute.
    + destruct (harden_step_fields _ _ Hh) as (Ha & _ & _ & Hu & _).
      rewrite Ha, Hu.
      destruct (enhance_steps_elements _ _ _ Hs) as (i & s0 & ->).
      cbn [enhance_step action url]. intros H.
      rewrite (bool_decide_eq_true_2 _ H). cbn [andb].
      by destruct (truthy_str (url s0)) eqn:E0.
  - exists (_create_fallback_steps parsed). split; [done|]. split; [done|].
    unfold _create_fallback_steps. apply Forall_app. split.
    + constructor.
      * intros _. cbn [url]. destruct (truthy_str (target_url parsed)) eqn:E0; done.
      * constructor; [|constructor]. intros H. exfalso. revert H. by vm_compute.
    + destruct (decide _); [|constructor].
      repeat (constructor; [intros H; exfalso; revert H; by vm_compute|]).
      constructor.
Qed.
End WithRuntime.

Lemma add_error_handling_inserts_waits_witness :
  exists out,
    _add_error_handling
      [OrchSpec.step_of "goto" 3; OrchSpec.step_of "fill" 1;
       OrchSpec.step_of "click" 3; OrchSpec.step_of "extract" 5] = Ok out /\
    action <$> out
    = Some <$> [py "goto"; py "fill"; py "wait"; py "click"; py "wait"; py "extract"].
Proof.
  eexists. split; [reflexivity|].
  apply (add_error_handling_inserts_waits
           [OrchSpec.step_of "goto" 3; OrchSpec.step_of "fill" 1;
            OrchSpec.step_of "click" 3; OrchSpec.step_of "extract" 5]).
  reflexivity.
Defined.

(** The intent with a click whose retry budget is null gets the fallback
    plan of its task kind: goto and wait. *)
Lemma plan_falls_back_on_rejected_budget_witness :
  existsb rejected_budget (initial_steps click_without_budget) = true /\
  plan click_without_budget = Ok (_create_fallback_steps click_without_budget) /\
  action <$> _create_fallback_steps click_without_budget
  = [Some (py "goto"); Some (py "wait")].
Proof.
  split; [reflexivity|]. split; [|reflexivity].
  apply plan_falls_back_on_rejected_budget. reflexivity.
Defined.

End PlannerMore.

(** ** More on session_memory.py *)

Module MemoryMore.
Import Py Memory MemorySpec MemoryOps SortFacts MemoryFacts.

Lemma cleanup_shrinks (now : Z) (self : SessionMemory) :
  (length (memories (_cleanup_old_memories now self)) <= length (memories self))%nat /\
  (Forall naive (memories self) ->
   Forall naive (memories (_cleanup_old_memories now self)) /\
   (length (memories (_cleanup_old_memories now self)) <= max_memories)%nat) /\
  session_context (_cleanup_old_memories now self) = session_context self.
Proof.
  destruct (cleanup_subset now self) as [Hsub Hctx].
  split; [by apply submseteq_length|]. split; [|done].
  intros Hnaive. split.
  - rewrite Forall_forall in *. intros m Hm. apply Hnaive.
    by apply (elem_of_submseteq _ _ _ Hm Hsub).
  - by destruct (cleanup_retention now self Hnaive) as (_ & Hcap & _).
Qed.

(** X17. From a new memory, after any run of [add_memory] and
    [clear_memories] calls, the counters are ints that agree (total =
    successful + failed, none negative), the store holds at most 100
    entries, and it never holds more entries than the tasks counted. *)
Theorem counters_stay_consistent (id : pystr) (now_start now_activity : Z)
    (calls : list call) :
  exists c total successful failed,
    session_context (do_calls (new_memory id now_start now_activity) calls) = Some c /\
    total_tasks c = VInt total /\
    successful_tasks c = VInt successful /\
    failed_tasks c = VInt failed /\
    total = successful + failed /\
    0 <= successful /\ 0 <= failed /\
    (length (memories (do_calls (new_memory id now_start now_activity) calls)) <= 100)%nat /\
    Z.of_nat (length (memories (do_calls (new_memory id now_start now_activity) calls)))
      <= total.
Proof.
  unfold do_calls.
  pose (inv := fun self : SessionMemory =>
          Forall naive (memories self) /\
          exists c total successful failed,
            session_context self = Some c /\
            total_tasks c = VInt total /\
            successful_tasks c = VInt successful /\
            failed_tasks c = VInt failed /\
            total = successful + failed /\
            0 <= successful /\ 0 <= failed /\
            (length (memories self) <= 100)%nat /\
            Z.of_nat (length (memories self)) <= total).
  assert (Hinv : forall self, inv self -> inv (foldl do_call self calls)).
  { induction calls as [|k rest IH]; intros self Hself; [done|].
    cbn [foldl]. apply IH.
    destruct Hself
      as (Hnaive & c & t & s & f & Hc & Ht & Hs & Hf & H1 & H2 & H3 & H4 & H5).
    destruct k as [d i r ok ty m|]; cbn [do_call].
    - unfold add_memory. rewrite Hc, Ht. cbn [incr].
      assert (Hn : incr (if ok then successful_tasks c else failed_tasks c)
                   = Ok (VInt ((if ok then s else f) + 1))).
      { destruct ok; by rewrite ?Hs, ?Hf. }
      rewrite Hn. cbn [fst].
      match goal with |- context [_cleanup_old_memories ?n ?x] =>
        destruct (cleanup_shrinks n x) as (Hl & Hcap & Hctx);
        revert Hl Hcap Hctx; generalize (_cleanup_old_memories n x) end.
      intros out Hl Hcap Hctx. cbn [session_context memories] in Hl, Hcap, Hctx.
      destruct Hcap as [Hout Hcap].
      { apply Forall_app. split; [done|]. by repeat constructor. }
      rewrite length_app in Hl. cbn [length] in Hl. unfold max_memories in Hcap.
      split; [done|]. rewrite Hctx.
      destruct ok.
      + eexists _, (t + 1), (s + 1), f. split; [done|].
        cbn [total_tasks successful_tasks failed_tasks].
        rewrite ?Hs, ?Hf. repeat split; try done; lia.
      + eexists _, (t + 1), s, (f + 1). split; [done|].
        cbn [total_tasks successful_tasks failed_tasks].
        rewrite ?Hs, ?Hf. repeat split; try done; lia.
    - split; [by constructor|].
      unfold clear_memories. cbn [session_context memories]. rewrite Hc.
      eexists _, 0, 0, 0. cbn. repeat split; lia. }
  destruct (Hinv (new_memory id now_start now_activity)) as [_ H].
  { split; [by constructor|]. eexists _, 0, 0, 0. cbn. repeat split; lia. }
  exact H.
Qed.

Lemma sorted_newest_first (x : MemoryEntry) (l : list MemoryEntry) :
  x ∈ l ->
  (forall y, y ∈ l -> y = x \/ timestamp_micros y < timestamp_micros x) ->
  exists rest, sorted fle_Z timestamp_micros true l = x :: rest.
Proof.
  intros Hx Hmax.
  pose proof (sorted_perm fle_Z timestamp_micros true l) as Hperm.
  pose proof (sorted_sorted fle_Z timestamp_micros fle_Z_total fle_Z_trans true l) as Hs.
  destruct (sorted fle_Z timestamp_micros true l) as [|h r].
  - apply Permutation_nil_l in Hperm. subst l. by apply elem_of_nil in Hx.
  - assert (Hh : h ∈ l) by (rewrite <- Hperm; apply list_elem_of_here).
    destruct (Hmax h Hh) as [->|Hlt]; [by exists r|].
    exfalso. rewrite <- Hperm in Hx. apply elem_of_cons in Hx as [->|Hx]; [lia|].
    apply StronglySorted_inv in Hs as [_ Hall].
    rewrite Forall_forall in Hall. specialize (Hall x Hx).
    unfold before, fle_Z in Hall. lia.
Qed.

(** X18. An entry that is newer than every entry of the store (whose
    timestamps are naive, as [datetime.now()] makes them), and not older
    than the time-to-live when the cleanup runs, is the one
    [get_recent_memories(1)] returns right after it was added. *)
Theorem added_entry_is_most_recent (d : draws) (self : SessionMemory)
    (instruction : pystr) (result : result_t) (success : bool)
    (task_type : pystr) (metadata : gmap pystr Parser.meta) :
  (forall mem, mem ∈ memories self ->
     naive mem /\ timestamp_micros mem < now_entry d) ->
  now_cleanup d - timedelta_days memory_ttl_days < now_entry d ->
  get_recent_memories
    (fst (add_memory d self instruction result success task_type metadata)) 1
  = Ok [entry_of d instruction result success task_type metadata].
Proof.
  intros Hnew Hfresh.
  destruct (add_memory_cases d self instruction result success task_type metadata)
    as (context & [[_ ->]|[_ ->]]); cbn [fst];
    set (entry := entry_of d instruction result success task_type metadata).
  all: assert (Hnaive : Forall naive (memories self ++ [entry]));
    [apply Forall_app; split; [|by repeat constructor];
     apply Forall_forall; intros m Hm; by apply Hnew|].
  all: assert (Hmax : forall y, y ∈ memories self ++ [entry] ->
                 y = entry \/ timestamp_micros y < timestamp_micros entry);
    [intros y Hy; apply elem_of_app in Hy as [Hy|Hy];
     [right; subst entry; cbn; by apply Hnew
     |left; by apply list_elem_of_singleton in Hy]|].
  all: assert (Hgoal : forall l, entry ∈ l ->
                 (forall y, y ∈ l -> y ∈ memories self ++ [entry]) ->
                 Extractor.limit_results (sorted fle_Z timestamp_micros true l) 1
                 = [entry]);
    [intros l Hl Hsub;
     destruct (sorted_newest_first entry l Hl) as [rest ->]; [|done];
     intros y Hy; by apply Hmax, Hsub|].
  - set (st := {| memories := memories self ++ [entry];
                  session_context := context |}).
    destruct (cleanup_shrinks (now_cleanup d) st) as (_ & Hkept & _).
    destruct (Hkept Hnaive) as [Hout _]. clear Hkept.
    unfold get_recent_memories. rewrite (sorted_by_timestamp_naive _ Hout).
    cbn [bind]. f_equal. apply Hgoal.
    + rewrite (cleanup_naive (now_cleanup d) st Hnaive).
      change (memories st) with (memories self ++ [entry]). cbn [memories].
      set (fr := fresh (now_cleanup d) (memories self ++ [entry])).
      assert (Hin : entry ∈ fr).
      { unfold fr, fresh. apply list_elem_of_In, filter_In. split.
        - apply in_or_app. right. by left.
        - subst entry. cbn. lia. }
      destruct (max_memories <? length fr)%nat; [|done].
      destruct (sorted_newest_first entry fr Hin) as [rest ->].
      * intros y Hy. apply Hmax. unfold fr, fresh in Hy.
        by apply list_elem_of_In, filter_In in Hy as [Hy%list_elem_of_In _].
      * apply list_elem_of_here.
    + intros y Hy. destruct (cleanup_subset (now_cleanup d) st) as [Hsub _].
      by apply (elem_of_submseteq _ _ _ Hy Hsub).
  - unfold get_recent_memories. cbn [memories].
    rewrite (sorted_by_timestamp_naive _ Hnaive). cbn [bind]. f_equal.
    apply Hgoal; [|done]. apply elem_of_app. right. apply list_elem_of_here.
Qed.

Section WithRuntime.
Context {R : Runtime}.

Lemma split_from_nil (cur s : pystr) :
  split_from cur s = [] <-> cur = [] /\ Forall (fun c => is_space c = true) s.
Proof.
  revert cur. induction s as [|c t IH]; intros cur; cbn [split_from].
  - destruct cur; split; try done. by intros [? _].
  - destruct (is_space c) eqn:E.
    + destruct cur.
      * rewrite IH. split; intros [H1 H2]; split; try done.
        -- by constructor.
        -- by apply Forall_cons in H2 as [_ H2].
      * split; [done|]. by intros [? _].
    + rewrite IH. split; [by intros [? _]|].
      intros [_ H]. apply Forall_cons in H as [H _]. congruence.
Qed.

Lemma words_empty (s : pystr) : words s = ∅ <-> blank s.
Proof.
  unfold words, blank, split.
  pose proof (split_from_nil [] (lower s)) as Hnil. split.
  - intros H. apply Hnil. destruct (split_from [] (lower s)) as [|w ws]; [done|].
    exfalso. assert (Hw : w ∈ (∅ : gset pystr)); [|by apply elem_of_empty in Hw].
    rewrite <- H. apply elem_of_list_to_set, list_elem_of_here.
  - intros H. by rewrite (proj2 Hnil (conj eq_refl H)).
Qed.

Lemma similarity_raises (a b : gset pystr) :
  (a = ∅ /\ b = ∅ -> similarity a b = Raise zero_division) /\
  (~ (a = ∅ /\ b = ∅) -> exists v, similarity a b = Ok v).
Proof.
  unfold similarity. split.
  - intros [-> ->]. rewrite bool_decide_eq_true_2; [done|].
    by rewrite union_empty_l_L, size_empty.
  - intros H. rewrite bool_decide_eq_false_2; [by eexists|].
    intros Hs. apply size_empty_iff in Hs. apply H.
    split; apply leibniz_equiv; apply elem_of_equiv_empty; intros x Hx;
      apply (proj1 (elem_of_equiv_empty _) Hs x); apply elem_of_union; auto.
Qed.

(** the lookup fails on an instruction without a word when the store holds
    one *)
Lemma find_similar_blank (self : SessionMemory) (instruction : pystr) (limit : Z) :
  blank instruction ->
  (exists mem, mem ∈ memories self /\ blank (Memory.instruction mem)) ->
  find_similar_memories self instruction limit = Raise zero_division.
Proof.
  intros Hb (mem & Hin & Hm). unfold find_similar_memories. cbv zeta.
  set (score := fun mem : MemoryEntry =>
         bind (similarity (words instruction) (words (Memory.instruction mem)))
           (fun s => Ok (mem, s))).
  assert (H : mapM score (memories self) = Raise zero_division); [|by rewrite H].
  induction (memories self) as [|x rest IH]; [by apply elem_of_nil in Hin|].
  cbn [mapM]. unfold score at 1.
  destruct (similarity_raises (words instruction) (words (Memory.instruction x)))
    as [H1 H2].
  apply elem_of_cons in Hin as [<-|Hin].
  + rewrite H1; [done|]. split; by apply words_empty.
  + destruct (decide (words instruction = ∅ /\ words (Memory.instruction x) = ∅))
      as [He|He].
    * by rewrite (H1 He).
    * destruct (H2 He) as [v ->]. cbn [bind]. by rewrite (IH Hin).
Qed.

(** X19. [find_similar_memories] raises ZeroDivisionError exactly when the
    instruction has no word and some stored instruction has none either;
    otherwise it returns at most [limit] entries (for a limit that is not
    negative), all of them from the store. *)
Theorem find_similar_zero_division (self : SessionMemory) (instruction : pystr)
    (limit : Z) :
  (blank instruction /\ (exists mem, mem ∈ memories self /\ blank (Memory.instruction mem))
   -> find_similar_memories self instruction limit = Raise zero_division) /\
  (~ (blank instruction /\
      exists mem, mem ∈ memories self /\ blank (Memory.instruction mem))
   -> exists out,
        find_similar_memories self instruction limit = Ok out /\
        (forall mem, mem ∈ out -> mem ∈ memories self) /\
        (0 <= limit -> Z.of_nat (length out) <= limit)).
Proof.
  split.
  - intros [Hb Hm]. by apply find_similar_blank.
  - intros Hno. unfold find_similar_memories. cbv zeta.
    set (score := fun mem : MemoryEntry =>
           bind (similarity (words instruction) (words (Memory.instruction mem)))
             (fun s => Ok (mem, s))).
    assert (H : exists scored, mapM score (memories self) = Ok scored /\
                               fst <$> scored = memories self).
    { assert (Hall : forall mem, mem ∈ memories self ->
                ~ (words instruction = ∅ /\ words (Memory.instruction mem) = ∅)).
      { intros mem Hin [H1 H2]. apply Hno. split; [by apply words_empty|].
        exists mem. split; [done|by apply words_empty]. }
      clear Hno. induction (memories self) as [|x rest IH]; [by exists []|].
      cbn [mapM]. unfold score at 1.
      destruct (similarity_raises (words instruction) (words (Memory.instruction x)))
        as [_ H2].
      destruct (H2 (Hall x (list_elem_of_here _ _))) as [v ->]. cbn [bind].
      destruct IH as (scored & -> & Hfst).
      { intros mem Hin. apply Hall. by apply list_elem_of_further. }
      cbn [bind]. eexists. split; [done|]. cbn. by rewrite Hfst. }
    destruct H as (scored & -> & Hfst). cbn [bind]. eexists. split; [done|].
    assert (Hsub : forall ms, ms ∈ List.filter (fun ms => flt (Fin 0) (snd ms))
                     (Extractor.limit_results (sorted fle snd true scored) limit) ->
                   ms ∈ Extractor.limit_results (sorted fle snd true scored) limit).
    { intros ms Hms. by apply list_elem_of_In, filter_In in Hms as [Hms _];
        apply list_elem_of_In. }
    split.
    + intros mem Hin. apply list_elem_of_fmap in Hin as (ms & -> & Hms).
      apply Hsub in Hms. unfold Extractor.limit_results in Hms.
      assert (Hs : ms ∈ sorted fle snd true scored).
      { destruct (0 <=? limit); by apply subseteq_take in Hms. }
      rewrite sorted_perm in Hs. rewrite <- Hfst. by apply list_elem_of_fmap_2.
    + intros Hlim. rewrite length_fmap.
      etransitivity.
      * apply inj_le, sublist_length, ExtractorFacts.filter_sublist_self.
      * unfold Extractor.limit_results. rewrite (proj2 (Z.leb_le 0 limit) Hlim).
        rewrite length_take. lia.
Qed.
End WithRuntime.

Section OnAscii.
#[local] Existing Instance ascii_runtime.

Lemma added_entry_is_most_recent_witness :
  get_recent_memories
    (fst (add_memory late_draws stale_store (py "search laptops") (Records []) true
            (py "search") ∅)) 1
  = Ok [entry_of late_draws (py "search laptops") (Records []) true (py "search") ∅].
Proof.
  apply added_entry_is_most_recent.
  - intros mem Hmem. apply elem_of_replicate in Hmem as [-> _].
    split; reflexivity.
  - reflexivity.
Defined.
End OnAscii.

End MemoryMore.

(** ** More about orchestrator.py *)

Module OrchestratorMore.
Import Py Extractor Parser Planner Orchestrator OrchSpec OrchWords.
Import ExtractorSpec ExtractorWords.

Lemma fmap_dicts (ds : list ExtractedData) :
  Forall (fun it => is_dict it = true) (to_dict <$> ds).
Proof. induction ds; by constructor. Qed.

Lemma limit_results_sublist {A} (l : list A) (limit : Z) :
  sublist (limit_results l limit) l.
Proof. unfold limit_results. destruct (0 <=? limit); apply sublist_take. Qed.

Lemma limit_results_fmap {A B} (f : A -> B) (l : list A) (limit : Z) :
  limit_results (f <$> l) limit = f <$> limit_results l limit.
Proof.
  unfold limit_results. rewrite length_fmap.
  destruct (0 <=? limit); by rewrite fmap_take.
Qed.

Section WithBrowser.
Context {R : Runtime}.
Context {Browser : Type}.
Context (browser_call : Browser -> Step -> exn ActionResult * Browser).
Context (other_attr : item -> pystr -> option pystr).

Lemma under_price_max_ok (m : option Q) (d : ExtractedData) :
  under_price_max m d = Ok true ->
  truthy_num m = true ->
  forall v, parsed_price d = Some v -> flt (Fin (default 0%Q m)) v = false.
Proof.
  unfold under_price_max, parsed_price, price_value. intros H Hm v.
  rewrite Hm in H. cbn [andb] in H.
  destruct (truthy_str (price d)); [|done].
  destruct (Re.search price_number _) as [mt|]; [|done].
  destruct (py_float _) as [v'|]; [|done].
  intros [= ->]. injection H as H. by apply negb_true_iff in H.
Qed.

Lemma dicts_under_spec (m : option Q) (extracted : list ExtractedData)
    (out : list item) :
  dicts_under m extracted = Ok out ->
  exists ds, out = to_dict <$> ds /\ sublist ds extracted /\
             Forall (fun d => under_price_max m d = Ok true) ds.
Proof.
  revert out. induction extracted as [|d rest IH]; intros out; cbn [dicts_under].
  - intros [= <-]. exists []. split; [done|]. split; constructor.
  - destruct (under_price_max m d) as [keep|e] eqn:E; [|done]. cbn [bind].
    destruct (dicts_under m rest) as [l|e]; [|done]. cbn [bind].
    intros [= <-]. destruct (IH l eq_refl) as (ds & -> & Hsub & Hall).
    destruct keep.
    + exists (d :: ds). split; [done|]. split; [by apply sublist_skip|by constructor].
    + exists ds. split; [done|]. split; [by apply sublist_cons|done].
Qed.

Lemma gathered_nil (filters : option filters_t) : gathered filters [].
Proof. split; [by constructor|done]. Qed.

Lemma gathered_app (filters : option filters_t) (ds1 ds2 : list ExtractedData) :
  gathered filters ds1 -> gathered filters ds2 -> gathered filters (ds1 ++ ds2).
Proof.
  intros (H1 & H2 & H3) (K1 & K2 & K3). split; [|split].
  - intros f Hf. apply Forall_app. auto.
  - intros Hs. by rewrite (H2 Hs), (K2 Hs).
  - intros Hn. by rewrite (H3 Hn), (K3 Hn).
Qed.

Lemma sort_results_dicts (f : filters_t) (ds : list ExtractedData) (out : list item) :
  sort_results f (to_dict <$> ds) = Ok out ->
  out = to_dict <$> ds /\
  (sort f = Some (py "rating") \/ sort f = Some (py "price") -> ds = []).
Proof.
  unfold sort_results, sort_by_rating, sort_by_price.
  destruct ds as [|d rest].
  - intros H. split; [|done].
    destruct (bool_decide _); [by injection H|].
    destruct (bool_decide _); by injection H.
  - assert (Hin : Dict d ∈ to_dict <$> d :: rest) by apply list_elem_of_here.
    destruct (bool_decide (sort f = Some (py "rating"))) eqn:E1.
    { rewrite (ExtractorMore.sorted_by_key_dict _ _ _ d); [done| |done|done].
      intros o. eexists. apply ExtractorMore.get_rating_value_obj. }
    destruct (bool_decide (sort f = Some (py "price"))) eqn:E2.
    { rewrite (ExtractorMore.sorted_by_key_dict _ _ _ d); [done| |done|done].
      intros o. eexists. apply ExtractorMore.get_price_value_obj. }
    intros [= <-]. split; [done|].
    apply bool_decide_eq_false_1 in E1, E2. by intros [H|H].
Qed.

(** what one extraction step hands back *)
Lemma extract_step_spec (step_result : ActionResult) (p : ParsedInstruction) :
  exists ds,
    (_extract_data_from_step_result step_result p).1 = to_dict <$> ds /\
    gathered (filters p) ds.
Proof.
  assert (Hnil : exists ds : list ExtractedData,
            @nil item = to_dict <$> ds /\ gathered (filters p) ds).
  { exists []. split; [done|apply gathered_nil]. }
  unfold _extract_data_from_step_result, filters_get.
  destruct (negb (payload_truthy _)); [exact Hnil|].
  destruct (filters p) as [f|] eqn:Ef; cbn [bind]; [|exact Hnil].
  destruct (dicts_under _ _) as [rs|e] eqn:E; cbn [bind]; [|exact Hnil].
  destruct (dicts_under_spec _ _ _ E) as (ds & -> & Hsub & Hall).
  destruct (sort_results _ _) as [rs'|e] eqn:E2; cbn [bind]; [|exact Hnil].
  destruct (sort_results_dicts _ _ _ E2) as [-> Hs]. cbn [fst].
  exists (limit_results ds (limit_of p)).
  split; [apply limit_results_fmap|]. split; [|split; [|done]].
  - intros f' [= <-]. apply Forall_forall. intros d Hd.
    rewrite Forall_forall in Hall. apply Hall.
    by apply (elem_of_sublist _ _ _ Hd (limit_results_sublist ds (limit_of p))).
  - intros (f' & [= <-] & Hsort). rewrite (Hs Hsort). unfold limit_results.
    by destruct (0 <=? _); rewrite take_nil.
Qed.

Lemma started_extract (step_result : ActionResult) (p : ParsedInstruction) :
  started (_extract_data_from_step_result step_result p).2 = [].
Proof.
  unfold _extract_data_from_step_result.
  destruct (negb _); [done|]. by destruct (bind _ _).
Qed.

(** the records a run of steps gathers *)
Lemma run_steps_records (browser : Browser) (i n : nat) (steps : list Step)
    (p : ParsedInstruction) :
  exists ds,
    (run_steps browser_call browser i n steps p).1.1 = to_dict <$> ds /\
    gathered (filters p) ds.
Proof.
  assert (Hnil : exists ds : list ExtractedData,
            @nil item = to_dict <$> ds /\ gathered (filters p) ds).
  { exists []. split; [done|apply gathered_nil]. }
  revert browser i. induction steps as [|step rest IH]; intros browser i;
    cbn [run_steps]; [exact Hnil|].
  cbv zeta.
  destruct (_execute_step_with_retry browser_call browser step) as [[[r b] l]|e].
  - destruct (ok r).
    + specialize (IH b (i + 1)%nat).
      destruct (extract_step_spec r p) as (ds1 & H1 & Hg1).
      destruct (bool_decide (action step = Some (py "extract"))
                && payload_truthy (data r)).
      * destruct (_extract_data_from_step_result r p) as [x xl].
        destruct (run_steps _ b _ _ rest _) as [[rs l'] b'].
        cbn [fst] in *. destruct IH as (ds2 & -> & Hg2). subst x.
        exists (ds1 ++ ds2). split; [by rewrite fmap_app|by apply gathered_app].
      * destruct (run_steps _ b _ _ rest _) as [[rs l'] b']. exact IH.
    + destruct (critical (action step)); [exact Hnil|].
      specialize (IH b (i + 1)%nat).
      destruct (run_steps _ b _ _ rest _) as [[rs l'] b']. exact IH.
  - specialize (IH browser (i + 1)%nat).
    destruct (run_steps _ browser _ _ rest _) as [[rs l'] b']. exact IH.
Qed.

Lemma execute_steps_records (start : exn Browser) (steps : list Step)
    (p : ParsedInstruction) (raw : list item) (step_log : list log_entry) :
  _execute_steps browser_call start steps p = Ok (raw, step_log) ->
  exists ds, raw = to_dict <$> ds /\ gathered (filters p) ds.
Proof.
  unfold _execute_steps. destruct start as [browser|e]; [|done]. cbn [bind].
  pose proof (run_steps_records browser 0 (length steps) steps p) as H.
  destruct (run_steps _ browser _ _ steps _) as [[rs l] b].
  cbn [fst] in H. by intros [= <- _].
Qed.

(** on dictionaries the processing keeps the first record or nothing *)
Lemma process_results_dicts (ds : list ExtractedData) (p : ParsedInstruction) :
  exists ds',
    (_process_results other_attr (to_dict <$> ds) p).1 = to_dict <$> ds' /\
    sublist ds' (take 1 ds).
Proof.
  destruct ds as [|d rest]; [by exists []|].
  assert (Hded : deduplicate other_attr (to_dict <$> d :: rest) None = [Dict d]).
  { unfold deduplicate, to_dict. cbn [fmap list_fmap dedup_loop]. cbv zeta.
    rewrite ExtractorMore.dict_key_empty.
    rewrite decide_False by apply not_elem_of_empty.
    f_equal. apply ExtractorMore.dedup_loop_dicts_seen.
    apply elem_of_union. left. by apply elem_of_singleton. }
  assert (Hone : exists ds', [Dict d] = to_dict <$> ds' /\ sublist ds' (take 1 (d :: rest))).
  { by exists [d]. }
  assert (Hlim : exists ds', limit_results [Dict d] (limit_of p) = to_dict <$> ds' /\
                             sublist ds' (take 1 (d :: rest))).
  { exists (limit_results [d] (limit_of p)).
    split; [apply (limit_results_fmap to_dict [d])|apply limit_results_sublist]. }
  unfold _process_results, filters_get. rewrite !Hded. cbn [fmap list_fmap].
  destruct (filters p) as [f|]; [|exact Hone].
  assert (Hf : forall hi lo out, filter_by_price [Dict d] hi lo = Ok out -> out = [Dict d]).
  { intros hi lo out. unfold filter_by_price.
    destruct (negb _ && negb _); [by intros [= <-]|done]. }
  destruct (price_max f) as [hi|].
  - destruct (filter_by_price [Dict d] (Some hi) None) as [r2|e] eqn:E2; [|exact Hone].
    apply Hf in E2 as ->.
    destruct (price_min f) as [lo|].
    + destruct (filter_by_price [Dict d] None (Some lo)) as [r3|e] eqn:E3; [|exact Hone].
      apply Hf in E3 as ->.
      destruct (sort_results f [Dict d]) as [r4|e] eqn:E4; [|exact Hone].
      destruct (sort_results_dicts f [d] _ E4) as [-> _]. exact Hlim.
    + destruct (sort_results f [Dict d]) as [r4|e] eqn:E4; [|exact Hone].
      destruct (sort_results_dicts f [d] _ E4) as [-> _]. exact Hlim.
  - destruct (price_min f) as [lo|].
    + destruct (filter_by_price [Dict d] None (Some lo)) as [r3|e] eqn:E3; [|exact Hone].
      apply Hf in E3 as ->.
      destruct (sort_results f [Dict d]) as [r4|e] eqn:E4; [|exact Hone].
      destruct (sort_results_dicts f [d] _ E4) as [-> _]. exact Hlim.
    + destruct (sort_results f [Dict d]) as [r4|e] eqn:E4; [|exact Hone].
      destruct (sort_results_dicts f [d] _ E4) as [-> _]. exact Hlim.
Qed.

(** the two ways [execute] ends *)
Lemma execute_cases (w : world) (memory : Memory.SessionMemory)
    (instruction : pystr) :
  let r := (execute browser_call other_attr w memory instruction).1 in
  (status r = error /\ results r = []) \/
  (exists parsed steps raw step_log,
     parse (w_reply w) instruction = Ok parsed /\
     plan parsed = Ok steps /\
     _execute_steps browser_call (w_start w) steps parsed = Ok (raw, step_log) /\
     results r = (_process_results other_attr raw parsed).1 /\
     status r = match raw with [] => error | _ => success end).
Proof.
  unfold execute. cbv zeta.
  destruct (w_context w) as [[]|e]; [|by left].
  destruct (parse (w_reply w) instruction) as [parsed|e] eqn:Ep; [|by left].
  destruct (plan parsed) as [steps|e] eqn:Epl; [|by left].
  destruct (_execute_steps browser_call (w_start w) steps parsed)
    as [[raw step_log]|e] eqn:Ex; [|by left].
  destruct (_process_results other_attr raw parsed) as [processed plog] eqn:Epr.
  destruct (w_save w) as [[]|e]; [|by left].
  right. exists parsed, steps, raw, step_log. by rewrite Epr.
Qed.

(** X20. Whatever the collaborators do, [execute] returns at most one
    record, and it is a dictionary: the records the steps gather are the
    dictionaries of [to_dict()], on which the deduplication of
    [_process_results] finds the same empty key. *)
Theorem execute_returns_at_most_one_record (w : world)
    (memory : Memory.SessionMemory) (instruction : pystr) :
  let r := (execute browser_call other_attr w memory instruction).1 in
  (length (results r) <= 1)%nat /\
  Forall (fun it => is_dict it = true) (results r).
Proof.
  intros r. subst r.
  destruct (execute_cases w memory instruction)
    as [[_ ->]|(parsed & steps & raw & step_log & _ & _ & Hx & -> & _)].
  { split; [cbn; lia|constructor]. }
  destruct (execute_steps_records _ _ _ _ _ Hx) as (ds & -> & _).
  destruct (process_results_dicts ds parsed) as (ds' & -> & Hsub).
  split; [|apply fmap_dicts].
  rewrite length_fmap. apply sublist_length in Hsub.
  rewrite length_take in Hsub. lia.
Qed.

(** X21. When the intent asks for a sort by rating or by price, no
    extraction step contributes a record (the sort it runs reads an
    attribute of a dictionary), so [execute] reports an error and returns no
    record. *)
Theorem sorting_intent_yields_nothing (w : world) (memory : Memory.SessionMemory)
    (instruction : pystr) (parsed : ParsedInstruction) :
  parse (w_reply w) instruction = Ok parsed ->
  sorting (filters parsed) ->
  let r := (execute browser_call other_attr w memory instruction).1 in
  status r = error /\ results r = [].
Proof.
  intros Hp Hsort r. subst r.
  destruct (execute_cases w memory instruction)
    as [H|(parsed' & steps & raw & step_log & Hp' & _ & Hx & -> & ->)]; [done|].
  rewrite Hp in Hp'. injection Hp' as <-.
  destruct (execute_steps_records _ _ _ _ _ Hx) as (ds & -> & _ & Hs & _).
  by rewrite (Hs Hsort).
Qed.

(** X22. The steps of a plan are begun in the order of the plan, each at
    most once and without a gap: the log of a run from index [i] names the
    steps [i+1 .. i+k] for some [k], and the run stops short of the plan's
    end only with the entry of a critical failure at step [i+k]. *)
Theorem steps_begun_in_plan_order (browser : Browser) (i n : nat)
    (steps : list Step) (p : ParsedInstruction) :
  exists k,
    (k <= length steps)%nat /\
    started (run_steps browser_call browser i n steps p).1.2 = seq (i + 1) k /\
    ((k < length steps)%nat ->
     _log error_level (CriticalStepFailed (i + k)) None
       ∈ (run_steps browser_call browser i n steps p).1.2).
Proof.
  revert browser i. induction steps as [|step rest IH]; intros browser i;
    cbn [run_steps].
  { exists 0%nat. split; [done|]. split; [done|]. cbn. lia. }
  cbv zeta.
  assert (Hgo : forall b (pre : list log_entry) rs l b',
            run_steps browser_call b (i + 1) n rest p = (rs, l, b') ->
            started pre = [] ->
            exists k, (k <= length (step :: rest))%nat /\
              started (_log info (ExecutingStep (i + 1) n) None :: pre ++ l)
              = seq (i + 1) k /\
              ((k < length (step :: rest))%nat ->
               _log error_level (CriticalStepFailed (i + k)) None
                 ∈ _log info (ExecutingStep (i + 1) n) None :: pre ++ l)).
  { intros b pre rs l b' Hrun Hpre.
    destruct (IH b (i + 1)%nat) as (k & Hk & Hst & Hcrit).
    rewrite Hrun in Hst, Hcrit. cbn [fst snd] in Hst, Hcrit.
    exists (S k). split; [cbn; lia|]. split.
    - rewrite OrchestratorFacts.started_cons. cbn [msg _log].
      rewrite OrchestratorFacts.started_app, Hpre, Hst.
      cbn [app seq]. by replace (S (i + 1)) with (i + 1 + 1)%nat by lia.
    - intros Hlt. apply list_elem_of_further, elem_of_app. right.
      replace (i + S k)%nat with (i + 1 + k)%nat by lia.
      apply Hcrit. cbn in Hlt. lia. }
  destruct (_execute_step_with_retry browser_call browser step)
    as [[[r b] l]|e] eqn:Er.
  - pose proof (OrchestratorFacts.started_execute_step _ _ _ _ _ _ Er) as Hl.
    destruct (ok r).
    + pose proof (started_extract r p) as Hx.
      destruct (if _ : bool then _extract_data_from_step_result r p else _)
        as [x xl] eqn:Ex.
      assert (Hxl : started xl = []).
      { destruct (_ && _) in Ex; [by rewrite Ex in Hx|by injection Ex as <- <-]. }
      destruct (run_steps _ b _ _ rest _) as [[rs l'] b'] eqn:Erun. cbn [fst snd].
      destruct (Hgo b (l ++ _log info (StepCompleted (i + 1)) None :: xl) rs l' b' Erun)
        as (k & Hk & Hst & Hcrit).
      { rewrite OrchestratorFacts.started_app, Hl, OrchestratorFacts.started_cons.
        cbn [msg _log]. exact Hxl. }
      exists k. split; [done|].
      rewrite <- !app_assoc in Hst, Hcrit. cbn [app] in Hst, Hcrit. by split.
    + destruct (critical (action step)).
      * cbn [fst snd]. exists 1%nat. split; [cbn; lia|]. split.
        -- rewrite OrchestratorFacts.started_cons. cbn [msg _log].
           rewrite OrchestratorFacts.started_app, Hl. reflexivity.
        -- intros _. apply list_elem_of_further, elem_of_app. right.
           apply list_elem_of_further, list_elem_of_here.
      * destruct (run_steps _ b _ _ rest _) as [[rs l'] b'] eqn:Erun. cbn [fst snd].
        destruct (Hgo b (l ++ [_log warning (StepFailed (i + 1)) (err r)]) rs l' b' Erun)
          as (k & Hk & Hst & Hcrit).
        { rewrite OrchestratorFacts.started_app, Hl. reflexivity. }
        exists k. split; [done|].
        rewrite <- !app_assoc in Hst, Hcrit. by split.
  - destruct (run_steps _ browser _ _ rest _) as [[rs l'] b'] eqn:Erun. cbn [fst snd].
    destruct (Hgo browser [_log error_level (StepExecutionError (i + 1)) (Some e)]
                rs l' b' Erun) as (k & Hk & Hst & Hcrit); [reflexivity|].
    exists k. by split.
Qed.

(** X23. A memory lookup that divides by zero ends the task: for an
    instruction without a word and a store that holds such an instruction,
    [execute] reports an error with the message of the ZeroDivisionError and
    returns no record. *)
Theorem blank_instruction_fails (w : world) (memory : Memory.SessionMemory)
    (instruction : pystr) :
  w_context w = MemoryOps.get_context_for_instruction memory instruction ->
  MemoryOps.blank instruction ->
  (exists mem, mem ∈ Memory.memories memory /\
               MemoryOps.blank (Memory.instruction mem)) ->
  let r := (execute browser_call other_attr w memory instruction).1 in
  status r = error /\ results r = [] /\
  error_message r = Some MemoryOps.zero_division.
Proof.
  intros Hc Hb Hm r. subst r.
  unfold MemoryOps.get_context_for_instruction in Hc.
  rewrite (MemoryMore.find_similar_blank memory instruction 3 Hb Hm) in Hc.
  cbn [bind] in Hc. unfold execute. cbv zeta. by rewrite Hc.
Qed.

(** X24. An active price bound of the intent holds for what [execute]
    returns: every record is the dictionary of a record whose price, when it
    parses to a number, is not above [price_max]. *)
Theorem returned_records_respect_price_max (w : world)
    (memory : Memory.SessionMemory) (instruction : pystr)
    (parsed : ParsedInstruction) (f : filters_t) :
  parse (w_reply w) instruction = Ok parsed ->
  filters parsed = Some f ->
  truthy_num (price_max f) = true ->
  Forall (fun it =>
            exists d, it = Dict d /\
              forall v, parsed_price d = Some v ->
                fle v (Fin (default 0%Q (price_max f))) = true)
    (results (execute browser_call other_attr w memory instruction).1).
Proof.
  intros Hp Hf Hmax.
  destruct (execute_cases w memory instruction)
    as [[_ ->]|(parsed' & steps & raw & step_log & Hp' & _ & Hx & -> & _)];
    [constructor|].
  rewrite Hp in Hp'. injection Hp' as <-.
  destruct (execute_steps_records _ _ _ _ _ Hx) as (ds & -> & Hall & _).
  specialize (Hall f Hf).
  destruct (process_results_dicts ds parsed) as (ds' & -> & Hsub).
  apply Forall_forall. intros it Hit.
  apply list_elem_of_fmap in Hit as (d & -> & Hd). exists d. split; [done|].
  intros v Hv. apply ExtractorMore.flt_false.
  rewrite Forall_forall in Hall.
  apply (under_price_max_ok _ d); [|done|done].
  apply Hall. eapply elem_of_sublist; [|apply (sublist_take ds 1)].
  by eapply elem_of_sublist.
Qed.
End WithBrowser.


Section OnAscii.
#[local] Existing Instance ascii_runtime.

Lemma sorting_intent_yields_nothing_witness :
  status (execute shop_call no_attr (world_of (Ok tt) sorting_reply) empty_memory
            (py "laptops by rating")).1 = error /\
  results (execute shop_call no_attr (world_of (Ok tt) sorting_reply) empty_memory
             (py "laptops by rating")).1 = [].
Proof.
  eapply (sorting_intent_yields_nothing shop_call no_attr
            (world_of (Ok tt) sorting_reply) empty_memory (py "laptops by rating")).
  - reflexivity.
  - eexists. split; [reflexivity|]. left. reflexivity.
Defined.

Lemma blank_instruction_fails_witness :
  status (execute shop_call no_attr
            (world_of (MemoryOps.get_context_for_instruction blank_store (py "  "))
               (PlanSpec.reply_with_task (py "search")))
            blank_store (py "  ")).1 = error.
Proof.
  eapply (blank_instruction_fails shop_call no_attr
            (world_of (MemoryOps.get_context_for_instruction blank_store (py "  "))
               (PlanSpec.reply_with_task (py "search")))
            blank_store (py "  ")).
  - reflexivity.
  - unfold MemoryOps.blank. by repeat constructor.
  - eexists. split; [apply list_elem_of_here|]. constructor.
Defined.

Lemma returned_records_respect_price_max_witness :
  exists parsed f,
    parse (Ok priced_reply) (py "laptops under 150") = Ok parsed /\
    filters parsed = Some f /\
    truthy_num (price_max f) = true /\
    Forall (fun it =>
              exists d, it = Dict d /\
                forall v, parsed_price d = Some v ->
                  fle v (Fin (default 0%Q (price_max f))) = true)
      (results (execute shop_call no_attr (world_of (Ok tt) priced_reply) empty_memory
                  (py "laptops under 150")).1).
Proof.
  eexists. eexists. split; [reflexivity|]. split; [reflexivity|]. split; [reflexivity|].
  eapply (returned_records_respect_price_max shop_call no_attr
            (world_of (Ok tt) priced_reply) empty_memory (py "laptops under 150"));
    reflexivity.
Defined.
End OnAscii.

End OrchestratorMore.

(** ** llm_adapter.py *)

Module LlmFacts.
Import Py Llm.

Section Manager.
Context {Adapter World Response : Type}.
Context (is_available : Adapter -> World -> bool * World).
Context (adapter_generate : Adapter -> pystr -> World -> exn Response * World).

Lemma try_adapters_answer (adapters : list Adapter) (prompt : pystr) (w w' : World)
    (adapter : Adapter) (response : Response) :
  try_adapters is_available adapter_generate adapters prompt w
  = (Some (adapter, response), w') ->
  adapter ∈ adapters /\
  exists w0 w1,
    is_available adapter w0 = (true, w1) /\
    adapter_generate adapter prompt w1 = (Ok response, w').
Proof.
  revert w. induction adapters as [|a rest IH]; intros w; cbn [try_adapters]; [done|].
  destruct (is_available a w) as [available w1] eqn:Ea.
  destruct available; cbn [negb].
  - destruct (adapter_generate a prompt w1) as [[r|e] w2] eqn:Eg.
    + intros [= <- <- <-]. split; [apply list_elem_of_here|]. by exists w, w1.
    + intros H. destruct (IH _ H) as [Hin Hw].
      split; [by apply list_elem_of_further|done].
  - intros H. destruct (IH _ H) as [Hin Hw].
    split; [by apply list_elem_of_further|done].
Qed.

Lemma generate_cases (self : LLMManager) (prompt : pystr) (w : World) :
  (exists w', generate is_available adapter_generate self prompt w
              = (Raise all_failed, self, w')) \/
  (exists adapter response w0 w1 w',
     generate is_available adapter_generate self prompt w
     = (Ok response,
        {| primary_adapter := primary_adapter self;
           fallback_adapters := fallback_adapters self;
           current_adapter := adapter |}, w') /\
     adapter ∈ current_adapter self :: fallback_adapters self /\
     is_available adapter w0 = (true, w1) /\
     adapter_generate adapter prompt w1 = (Ok response, w')).
Proof.
  unfold generate.
  destruct (try_adapters _ _ _ prompt w) as [[[adapter response]|] w'] eqn:E.
  - right. destruct (try_adapters_answer _ _ _ _ _ _ E) as (Hin & w0 & w1 & H0 & H1).
    by exists adapter, response, w0, w1, w'.
  - left. by exists w'.
Qed.

(** X25. [generate] fails in one way only: with the RuntimeError that all
    adapters failed, and then the manager is as it was.  Otherwise
    the response is the one an adapter of the manager, the current one or a
    fallback, produced right after it said it was available, that adapter
    is made the current one, and the primary adapter and the fallback list
    stay as they were. *)
Theorem generate_answers_from_own_adapter (self : LLMManager)
    (prompt : pystr) (w : World) :
  let '(r, self', w') := generate is_available adapter_generate self prompt w in
  primary_adapter self' = primary_adapter self /\
  fallback_adapters self' = fallback_adapters self /\
  match r with
  | Raise e => e = all_failed /\ self' = self
  | Ok response =>
      current_adapter self' ∈ current_adapter self :: fallback_adapters self /\
      exists w0 w1,
        is_available (current_adapter self') w0 = (true, w1) /\
        adapter_generate (current_adapter self') prompt w1 = (Ok response, w')
  end.
Proof.
  destruct (generate_cases self prompt w)
    as [[w' ->]|(adapter & response & w0 & w1 & w' & -> & Hin & H0 & H1)].
  - done.
  - cbn. split; [done|]. split; [done|]. split; [done|]. by exists w0, w1.
Qed.

(** X26. Over any run of [generate] calls the manager keeps its primary
    adapter and its fallback list, and its current adapter is the one it
    began with or one of the fallbacks.  So once a fallback is the current
    adapter every later call is served by a fallback: the primary adapter
    is not tried again unless it is also in the fallback list. *)
Theorem current_adapter_stays_among_own (self : LLMManager)
    (prompts : list pystr) (w : World) :
  let self' := (generate_all is_available adapter_generate self prompts w).1.2 in
  primary_adapter self' = primary_adapter self /\
  fallback_adapters self' = fallback_adapters self /\
  current_adapter self' ∈ current_adapter self :: fallback_adapters self /\
  (current_adapter self ∈ fallback_adapters self ->
   current_adapter self' ∈ fallback_adapters self).
Proof.
  cbv zeta. revert self w.
  induction prompts as [|prompt rest IH]; intros self w; cbn [generate_all].
  { cbn. split; [done|]. split; [done|]. split; [apply list_elem_of_here|done]. }
  assert (Hstep : forall self1 w1,
            primary_adapter self1 = primary_adapter self ->
            fallback_adapters self1 = fallback_adapters self ->
            current_adapter self1 ∈ current_adapter self :: fallback_adapters self ->
            let self' := (generate_all is_available adapter_generate self1 rest w1).1.2 in
            primary_adapter self' = primary_adapter self /\
            fallback_adapters self' = fallback_adapters self /\
            current_adapter self' ∈ current_adapter self :: fallback_adapters self /\
            (current_adapter self ∈ fallback_adapters self ->
             current_adapter self' ∈ fallback_adapters self)).
  { intros self1 w1 Hp Hf Hc. cbv zeta.
    destruct (IH self1 w1) as (H1 & H2 & H3 & H4).
    rewrite Hp, Hf in *. split; [done|]. split; [done|].
    assert (H5 : current_adapter
                   (generate_all is_available adapter_generate self1 rest w1).1.2
                 ∈ current_adapter self :: fallback_adapters self).
    { apply elem_of_cons in H3 as [H3|H3]; [by rewrite H3|].
      by apply list_elem_of_further. }
    split; [done|]. intros Hin.
    apply elem_of_cons in H5 as [H5|H5]; [by rewrite H5|done]. }
  destruct (generate_cases self prompt w)
    as [[w' ->]|(adapter & response & w0 & w1 & w' & -> & Hin & _)].
  - specialize (Hstep self w' eq_refl eq_refl (list_elem_of_here _ _)).
    destruct (generate_all _ _ self rest w') as [[rs self2] w2]. exact Hstep.
  - specialize (Hstep {| primary_adapter := primary_adapter self;
                         fallback_adapters := fallback_adapters self;
                         current_adapter := adapter |} w' eq_refl eq_refl Hin).
    destruct (generate_all _ _ _ rest w') as [[rs self2] w2]. exact Hstep.
Qed.
End Manager.

End LlmFacts.
